(** * The EK80 datagram demultiplexer of echopype

    A shallow embedding of [ConvertEK80._read_datagrams] and
    [ConvertEK80.load_ek80_raw] (src/echopype/convert/ek80.py) and the
    properties of the demultiplexer checked against it.

    Python objects are modelled as follows.
    - A datagram is a dict with a fixed universe of keys; a key that is
      absent is [None] and reading it raises [KeyError].
    - [self] is a record of the attributes set in [__init__]; plain dicts
      and [defaultdict]s are [gmap]s, lists are lists.
    - Statements run in a state-and-exception monad over [self]: a raised
      exception keeps every mutation made before it, as in Python.
    - The file object [fid] is the list of datagrams still to be read;
      [fid.read(1)] on the empty list raises [SimradEOF]. *)

From Stdlib Require Import ZArith Lia Ascii String DecimalString.
From stdpp Require Import gmap strings list.

Local Open Scope string_scope.
Local Open Scope list_scope.
Local Open Scope Z_scope.

(** ** Python values *)

(** Values the demultiplexer only stores and copies.  A float is carried
    by its bit pattern, an array by its integer samples. *)
Inductive pyval :=
| PyNone
| PyInt (z : Z)
| PyFloat (bits : Z)
| PyStr (s : string)
| PyTime (us : Z)
| PyArray (a : list Z).

#[global] Instance pyval_eq_dec : EqDecision pyval.
Proof. solve_decision. Defined.

(** A dict whose key order is observable ([list(d)] gives the keys in
    insertion order). *)
Definition pydict (V : Type) : Type := list (string * V).

Definition dict_keys {V} (d : pydict V) : list string := d.*1.

Fixpoint dict_get {V} (d : pydict V) (k : string) : option V :=
  match d with
  | [] => None
  | (k', v) :: d' => if decide (k' = k) then Some v else dict_get d' k
  end.

(** ** Exceptions and the statement monad *)

Inductive exn :=
| KeyError (key : string)
| IndexError
| ValueError (msg : string)
| UnboundLocalError (var : string)
| SimradEOF.

#[global] Instance exn_eq_dec : EqDecision exn.
Proof. solve_decision. Defined.

Inductive outcome (A : Type) :=
| Return (a : A)
| Raise (e : exn).
Arguments Return {A} a.
Arguments Raise {A} e.

Definition raised {A} (o : outcome A) : bool :=
  match o with Return _ => false | Raise _ => true end.

(** [d[k]] on a dict: the value, or [KeyError]. *)
Definition getitem {A} (key : string) (field : option A) : outcome A :=
  match field with
  | Some v => Return v
  | None => Raise (KeyError key)
  end.

(** [l[i]] on a list, negative indices counting from the end. *)
Definition py_index {A} (l : list A) (i : Z) : outcome A :=
  let n := Z.of_nat (length l) in
  let j := if 0 <=? i then i else n + i in
  if (0 <=? j) && (j <? n)
  then match l !! Z.to_nat j with
       | Some x => Return x
       | None => Raise IndexError
       end
  else Raise IndexError.

(** [np.datetime64(t, '[ms]')]: the microsecond time stamp cut down to
    milliseconds. *)
Definition datetime64_ms (us : Z) : Z := 1000 * (us / 1000).

(** ** Datagrams *)

(** The [parameter] dict of an XML parameter datagram.  The code tests the
    presence of [frequency_start]; the three frequency keys are optional. *)
Module Param.
Record t := mk {
  channel_id : string;
  frequency : option Z;
  frequency_start : option Z;
  frequency_end : option Z;
  pulse_duration : pyval;
  pulse_form : pyval;
  sample_interval : pyval;
  slope : pyval;
  transmit_power : pyval
}.

(** [list(p)]: the keys of the dict. *)
Definition keys (p : t) : list string :=
  ["channel_id"]
    ++ (if frequency p is Some _ then ["frequency"] else [])
    ++ (if frequency_start p is Some _ then ["frequency_start"] else [])
    ++ (if frequency_end p is Some _ then ["frequency_end"] else [])
    ++ ["pulse_duration"; "pulse_form"; "sample_interval"; "slope";
        "transmit_power"].
End Param.

(** A datagram as the tokenizer yields it: [type] and [timestamp] are
    always there, every other key only for the datagram types that have
    it. *)
Module Dg.
Record t := mk {
  type : string;
  timestamp : Z;
  subtype : option string;
  environment : option (pydict pyval);
  parameter : option Param.t;
  configuration : option (pydict (pydict pyval));
  channel_id : option string;
  power : option pyval;
  angle : option pyval;
  complex : option pyval;
  nmea_string : option string;
  heading : option pyval;
  pitch : option pyval;
  roll : option pyval;
  heave : option pyval;
  stage : option Z;
  coefficients : option pyval;
  decimation_factor : option pyval
}.

(** [d['timestamp'] = ts] *)
Definition set_timestamp (ts : Z) (d : t) : t :=
  mk (type d) ts (subtype d) (environment d) (parameter d)
     (configuration d) (channel_id d) (power d) (angle d) (complex d)
     (nmea_string d) (heading d) (pitch d) (roll d) (heave d) (stage d)
     (coefficients d) (decimation_factor d).

(** [d['timestamp'] = np.datetime64(d['timestamp'], '[ms]')] *)
Definition normalise (d : t) : t :=
  set_timestamp (datetime64_ms (timestamp d)) d.

(** [list(d[key])] for the keys that hold a dict.  An XML datagram keeps
    its content under the key named by its subtype, so these are the
    only keys a subtype names. *)
Definition keys_at (key : string) (d : t) : outcome (list string) :=
  if decide (key = "configuration")
  then match configuration d with
       | Some c => Return (dict_keys c)
       | None => Raise (KeyError key)
       end
  else if decide (key = "environment")
  then match environment d with
       | Some e => Return (dict_keys e)
       | None => Raise (KeyError key)
       end
  else if decide (key = "parameter")
  then match parameter d with
       | Some p => Return (Param.keys p)
       | None => Raise (KeyError key)
       end
  else Raise (KeyError key).
End Dg.

(** ** The converter object *)

Record ConvertEK80 := mkConvertEK80 {
  config_datagram : option Dg.t;
  nmea_data : list (Z * string);
  ping_data_dict : gmap string (gmap string pyval);
  power_dict : gmap string (list pyval);
  angle_dict : gmap string (list pyval);
  complex_dict : gmap string (list pyval);
  ping_time : list Z;
  environment : pydict pyval;
  parameters : gmap string (gmap string (list pyval));
  mru_data : gmap string (list pyval);
  fil_coeffs : gmap string (gmap Z pyval);
  fil_df : gmap string (gmap Z pyval);
  ch_ids : list string
}.

(** [ConvertEK80.__init__] *)
Definition init : ConvertEK80 :=
  mkConvertEK80 None [] ∅ ∅ ∅ ∅ [] [] ∅ ∅ ∅ ∅ [].

Definition set_config_datagram (v : option Dg.t) (s : ConvertEK80) :=
  mkConvertEK80 v (nmea_data s) (ping_data_dict s) (power_dict s)
    (angle_dict s) (complex_dict s) (ping_time s) (environment s)
    (parameters s) (mru_data s) (fil_coeffs s) (fil_df s) (ch_ids s).
Definition set_nmea_data (v : list (Z * string)) (s : ConvertEK80) :=
  mkConvertEK80 (config_datagram s) v (ping_data_dict s) (power_dict s)
    (angle_dict s) (complex_dict s) (ping_time s) (environment s)
    (parameters s) (mru_data s) (fil_coeffs s) (fil_df s) (ch_ids s).
Definition set_ping_data_dict v (s : ConvertEK80) :=
  mkConvertEK80 (config_datagram s) (nmea_data s) v (power_dict s)
    (angle_dict s) (complex_dict s) (ping_time s) (environment s)
    (parameters s) (mru_data s) (fil_coeffs s) (fil_df s) (ch_ids s).
Definition set_power_dict v (s : ConvertEK80) :=
  mkConvertEK80 (config_datagram s) (nmea_data s) (ping_data_dict s) v
    (angle_dict s) (complex_dict s) (ping_time s) (environment s)
    (parameters s) (mru_data s) (fil_coeffs s) (fil_df s) (ch_ids s).
Definition set_angle_dict v (s : ConvertEK80) :=
  mkConvertEK80 (config_datagram s) (nmea_data s) (ping_data_dict s)
    (power_dict s) v (complex_dict s) (ping_time s) (environment s)
    (parameters s) (mru_data s) (fil_coeffs s) (fil_df s) (ch_ids s).
Definition set_complex_dict v (s : ConvertEK80) :=
  mkConvertEK80 (config_datagram s) (nmea_data s) (ping_data_dict s)
    (power_dict s) (angle_dict s) v (ping_time s) (environment s)
    (parameters s) (mru_data s) (fil_coeffs s) (fil_df s) (ch_ids s).
Definition set_ping_time v (s : ConvertEK80) :=
  mkConvertEK80 (config_datagram s) (nmea_data s) (ping_data_dict s)
    (power_dict s) (angle_dict s) (complex_dict s) v (environment s)
    (parameters s) (mru_data s) (fil_coeffs s) (fil_df s) (ch_ids s).
Definition set_environment v (s : ConvertEK80) :=
  mkConvertEK80 (config_datagram s) (nmea_data s) (ping_data_dict s)
    (power_dict s) (angle_dict s) (complex_dict s) (ping_time s) v
    (parameters s) (mru_data s) (fil_coeffs s) (fil_df s) (ch_ids s).
Definition set_parameters v (s : ConvertEK80) :=
  mkConvertEK80 (config_datagram s) (nmea_data s) (ping_data_dict s)
    (power_dict s) (angle_dict s) (complex_dict s) (ping_time s)
    (environment s) v (mru_data s) (fil_coeffs s) (fil_df s) (ch_ids s).
Definition set_mru_data v (s : ConvertEK80) :=
  mkConvertEK80 (config_datagram s) (nmea_data s) (ping_data_dict s)
    (power_dict s) (angle_dict s) (complex_dict s) (ping_time s)
    (environment s) (parameters s) v (fil_coeffs s) (fil_df s) (ch_ids s).
Definition set_fil_coeffs v (s : ConvertEK80) :=
  mkConvertEK80 (config_datagram s) (nmea_data s) (ping_data_dict s)
    (power_dict s) (angle_dict s) (complex_dict s) (ping_time s)
    (environment s) (parameters s) (mru_data s) v (fil_df s) (ch_ids s).
Definition set_fil_df v (s : ConvertEK80) :=
  mkConvertEK80 (config_datagram s) (nmea_data s) (ping_data_dict s)
    (power_dict s) (angle_dict s) (complex_dict s) (ping_time s)
    (environment s) (parameters s) (mru_data s) (fil_coeffs s) v (ch_ids s).
Definition set_ch_ids v (s : ConvertEK80) :=
  mkConvertEK80 (config_datagram s) (nmea_data s) (ping_data_dict s)
    (power_dict s) (angle_dict s) (complex_dict s) (ping_time s)
    (environment s) (parameters s) (mru_data s) (fil_coeffs s) (fil_df s) v.

(** Statements: they read and mutate [self] and return or raise. *)
Definition M (A : Type) : Type := ConvertEK80 → ConvertEK80 * outcome A.

Definition ret {A} (a : A) : M A := λ s, (s, Return a).
Definition raise {A} (e : exn) : M A := λ s, (s, Raise e).
Definition bind {A B} (m : M A) (k : A → M B) : M B :=
  λ s, match m s with
       | (s', Return a) => k a s'
       | (s', Raise e) => (s', Raise e)
       end.
Definition lift {A} (o : outcome A) : M A := λ s, (s, o).
Definition self {A} (f : ConvertEK80 → A) : M A := λ s, (s, Return (f s)).
Definition modify (f : ConvertEK80 → ConvertEK80) : M unit :=
  λ s, (f s, Return tt).

Declare Scope py_scope.
Delimit Scope py_scope with py.
Notation "'let!' x ':=' m 'in' k" := (bind m (λ x, k))
  (at level 10, x name, m at level 100, k at level 200) : py_scope.
Notation "m ;;; k" := (bind m (λ _, k))
  (at level 100, right associativity) : py_scope.
Local Open Scope py_scope.

(** [for x in l: body x] *)
Fixpoint for_each {A} (l : list A) (body : A → M unit) : M unit :=
  match l with
  | [] => ret tt
  | x :: l' => body x ;;; for_each l' body
  end.

(** [enumerate(l)] from index [i] on. *)
Fixpoint enumerate_from {A} (i : Z) (l : list A) : list (Z * A) :=
  match l with
  | [] => []
  | x :: l' => (i, x) :: enumerate_from (i + 1) l'
  end.
Definition enumerate {A} (l : list A) : list (Z * A) := enumerate_from 0 l.

Definition outcome_map {A B} (f : A → B) (o : outcome A) : outcome B :=
  match o with
  | Return a => Return (f a)
  | Raise e => Raise e
  end.

(** ** [_read_datagrams] *)

(** The local variables of [_read_datagrams].  [current_parameters] is
    bound by the first parameter datagram only: [None] is the unbound
    name. *)
Record locals := mkLocals {
  num_datagrams_parsed : Z;
  tmp_num_ch_per_ping_parsed : Z;
  tmp_datagram_dict : list Dg.t;
  current_parameters : option Param.t
}.

Definition initial_locals : locals := mkLocals 0 0 [] None.

(** [s.startswith(prefix)] *)
Definition startswith (s pre : string) : bool := String.prefix pre s.

(** [self.parameters[ch][key].append(arg)], [self.parameters] being a
    [defaultdict(dict)]: the outer lookup creates a missing entry, the
    inner one raises [KeyError]; the argument is evaluated after both. *)
Definition parameters_append (ch key : string) (arg : outcome pyval)
  : M unit :=
  λ s,
    let tbl := default ∅ (parameters s !! ch) in
    let s1 := set_parameters (<[ch := tbl]> (parameters s)) s in
    match tbl !! key with
    | None => (s1, Raise (KeyError key))
    | Some l =>
        match arg with
        | Raise e => (s1, Raise e)
        | Return v =>
            (set_parameters (<[ch := <[key := l ++ [v]]> tbl]> (parameters s)) s,
             Return tt)
        end
    end.

(** [self.parameters[ch][key] = []] *)
Definition clear_parameter (ch key : string) (s : ConvertEK80) : ConvertEK80 :=
  set_parameters
    (<[ch := <[key := []]> (default ∅ (parameters s !! ch))]> (parameters s)) s.

Definition parameters_clear (ch key : string) : M unit :=
  modify (clear_parameter ch key).

(** [d[k] = []] on one of the plain dicts of sample lists. *)
Definition clear_samples
    (get : ConvertEK80 → gmap string (list pyval))
    (set : gmap string (list pyval) → ConvertEK80 → ConvertEK80)
    (k : string) (s : ConvertEK80) : ConvertEK80 :=
  set (<[k := []]> (get s)) s.

Definition samples_clear get set (k : string) : M unit :=
  modify (clear_samples get set k).

(** [d[k].append(arg)] on one of the plain dicts of sample lists. *)
Definition samples_append
    (get : ConvertEK80 → gmap string (list pyval))
    (set : gmap string (list pyval) → ConvertEK80 → ConvertEK80)
    (k : string) (arg : outcome pyval) : M unit :=
  λ s,
    match get s !! k with
    | None => (s, Raise (KeyError k))
    | Some l =>
        match arg with
        | Raise e => (s, Raise e)
        | Return v => (set (<[k := l ++ [v]]> (get s)) s, Return tt)
        end
    end.

(** [self.mru_data[key].append(arg)], a [defaultdict(list)]. *)
Definition mru_append (key : string) (arg : outcome pyval) : M unit :=
  λ s,
    let l := default [] (mru_data s !! key) in
    match arg with
    | Raise e => (set_mru_data (<[key := l]> (mru_data s)) s, Raise e)
    | Return v => (set_mru_data (<[key := l ++ [v]]> (mru_data s)) s, Return tt)
    end.

(** [d[ch][stage] = v] on one of the two [defaultdict(dict)]s of filter
    data; the right-hand side [v] is evaluated first, then [ch], the
    outer lookup, and [stage]. *)
Definition fil_store
    (get : ConvertEK80 → gmap string (gmap Z pyval))
    (set : gmap string (gmap Z pyval) → ConvertEK80 → ConvertEK80)
    (v : option pyval) (vkey : string) (d : Dg.t) : M unit :=
  let! x := lift (getitem vkey v) in
  let! ch := lift (getitem "channel_id" (Dg.channel_id d)) in
  λ s,
    let tbl := default ∅ (get s !! ch) in
    match Dg.stage d with
    | None => (set (<[ch := tbl]> (get s)) s, Raise (KeyError "stage"))
    | Some st => (set (<[ch := <[st := x]> tbl]> (get s)) s, Return tt)
    end.

(** Modelled from the spec: [NMEAData.add_datagram] is defined in
    echopype/convert/utils/nmea_data.py; the position log is an
    unconditional append of the time stamp and the opaque sentence. *)
Definition add_datagram (ts : Z) (nmea_string : string) : M unit :=
  modify (λ s, set_nmea_data (nmea_data s ++ [(ts, nmea_string)]) s).

(** The appends of a parameter datagram: [frequency], or
    [frequency_start] and [frequency_end] when [frequency_start] is
    there, then the six lists every datagram extends. *)
Definition append_parameters (current_parameters : Param.t) (timestamp : Z)
  : M unit :=
  let cp := current_parameters in
  let ch := Param.channel_id cp in
  match Param.frequency_start cp with
  | None =>
      parameters_append ch "frequency"
        (outcome_map PyInt (getitem "frequency" (Param.frequency cp)))
  | Some fs =>
      parameters_append ch "frequency_start" (Return (PyInt fs)) ;;;
      parameters_append ch "frequency_end"
        (outcome_map PyInt (getitem "frequency_end" (Param.frequency_end cp)))
  end ;;;
  parameters_append ch "pulse_duration" (Return (Param.pulse_duration cp)) ;;;
  parameters_append ch "pulse_form" (Return (Param.pulse_form cp)) ;;;
  parameters_append ch "sample_interval" (Return (Param.sample_interval cp)) ;;;
  parameters_append ch "slope" (Return (Param.slope cp)) ;;;
  parameters_append ch "transmit_power" (Return (Param.transmit_power cp)) ;;;
  parameters_append ch "timestamp" (Return (PyTime timestamp)).

(** An XML datagram: environment or parameter information. *)
Definition read_xml (loc : locals) (new_datagram : Dg.t) : M locals :=
  let! subtype := lift (getitem "subtype" (Dg.subtype new_datagram)) in
  if decide (subtype = "environment") then
    let! env := lift (getitem "environment" (Dg.environment new_datagram)) in
    modify (set_environment env) ;;;
    ret loc
  else if decide (subtype = "parameter") then
    let! cp := lift (getitem "parameter" (Dg.parameter new_datagram)) in
    append_parameters cp (Dg.timestamp new_datagram) ;;;
    ret (mkLocals (num_datagrams_parsed loc) (tmp_num_ch_per_ping_parsed loc)
           (tmp_datagram_dict loc) (Some cp))
  else ret loc.

(** The body of [for i, ch_id in enumerate(self.ch_ids)] in the commit:
    the samples of the buffered datagram at index [i] go to channel
    [ch_id]. *)
Definition save_channel (tmp_datagram_dict : list Dg.t) (ich : Z * string)
  : M unit :=
  let buffered := py_index tmp_datagram_dict ich.1 in
  let ch_id := ich.2 in
  samples_append power_dict set_power_dict ch_id
    (match buffered with
     | Return b => getitem "power" (Dg.power b)
     | Raise e => Raise e
     end) ;;;
  samples_append angle_dict set_angle_dict ch_id
    (match buffered with
     | Return b => getitem "angle" (Dg.angle b)
     | Raise e => Raise e
     end) ;;;
  samples_append complex_dict set_complex_dict ch_id
    (match buffered with
     | Return b => getitem "complex" (Dg.complex b)
     | Raise e => Raise e
     end).

(** The commit: the ping time of the first buffered datagram, then the
    samples of every channel. *)
Definition save_ping (tmp_datagram_dict : list Dg.t) : M unit :=
  let! first := lift (py_index tmp_datagram_dict 0) in
  modify (λ s, set_ping_time (ping_time s ++ [Dg.timestamp first]) s) ;;;
  let! ids := self ch_ids in
  for_each (enumerate ids) (save_channel tmp_datagram_dict).

(** A RAW datagram: sample data of one channel. *)
Definition read_raw (loc : locals) (new_datagram : Dg.t) : M locals :=
  let! curr_ch_id := lift (getitem "channel_id" (Dg.channel_id new_datagram)) in
  let! cp := lift (match current_parameters loc with
                   | Some cp => Return cp
                   | None => Raise (UnboundLocalError "current_parameters")
                   end) in
  if decide (Param.channel_id cp ≠ curr_ch_id)
  then raise (ValueError "Parameter ID does not match RAW")
  else
    let! ids := self ch_ids in
    let! first := lift (py_index ids 0) in
    let reset := bool_decide (curr_ch_id = first) in
    let n := (if reset then -1 else tmp_num_ch_per_ping_parsed loc) + 1 in
    let buf := (if reset then [] else tmp_datagram_dict loc) ++ [new_datagram] in
    let loc' := mkLocals (num_datagrams_parsed loc) n buf
                  (current_parameters loc) in
    let! at_n := lift (py_index ids n) in
    let! last := lift (py_index ids (-1)) in
    if bool_decide (curr_ch_id = last) && bool_decide (at_n = last)
    then save_ping buf ;;; ret loc'
    else ret loc'.

(** [num_datagrams_parsed += 1] *)
Definition count_datagram (loc : locals) : locals :=
  mkLocals (num_datagrams_parsed loc + 1) (tmp_num_ch_per_ping_parsed loc)
    (tmp_datagram_dict loc) (current_parameters loc).

(** One turn of the [while True] loop, for the datagram just read. *)
Definition read_datagram (loc : locals) (datagram : Dg.t) : M locals :=
  let loc := count_datagram loc in
  let new_datagram := Dg.normalise datagram in
  let type := Dg.type new_datagram in
  if startswith type "XML" then read_xml loc new_datagram
  else if startswith type "RAW" then read_raw loc new_datagram
  else if startswith type "NME" then
    let! nmea_string := lift (getitem "nmea_string" (Dg.nmea_string new_datagram)) in
    add_datagram (Dg.timestamp new_datagram) nmea_string ;;;
    ret loc
  else if startswith type "MRU" then
    mru_append "heading" (getitem "heading" (Dg.heading new_datagram)) ;;;
    mru_append "pitch" (getitem "pitch" (Dg.pitch new_datagram)) ;;;
    mru_append "roll" (getitem "roll" (Dg.roll new_datagram)) ;;;
    mru_append "heave" (getitem "heave" (Dg.heave new_datagram)) ;;;
    mru_append "timestamp" (Return (PyTime (Dg.timestamp new_datagram))) ;;;
    ret loc
  else if startswith type "FIL" then
    fil_store fil_coeffs set_fil_coeffs
      (Dg.coefficients new_datagram) "coefficients" new_datagram ;;;
    fil_store fil_df set_fil_df
      (Dg.decimation_factor new_datagram) "decimation_factor" new_datagram ;;;
    ret loc
  else ret loc.

(** The loop: [fid.read(1)] until [SimradEOF], which ends it normally. *)
Fixpoint read_loop (fid : list Dg.t) (loc : locals) : M unit :=
  match fid with
  | [] => ret tt
  | datagram :: fid' =>
      let! loc' := read_datagram loc datagram in
      read_loop fid' loc'
  end.

Definition _read_datagrams (fid : list Dg.t) : M unit :=
  read_loop fid initial_locals.

(** ** [load_ek80_raw] *)

(** [config['configuration'][ch_id]['transducer_frequency']] *)
Definition transducer_frequency (config : option Dg.t) (ch_id : string)
  : outcome pyval :=
  match config with
  | None => Raise (KeyError "configuration")
  | Some config =>
      match getitem "configuration" (Dg.configuration config) with
      | Raise e => Raise e
      | Return c =>
          match getitem ch_id (dict_get c ch_id) with
          | Raise e => Raise e
          | Return desc =>
              getitem "transducer_frequency"
                (dict_get desc "transducer_frequency")
          end
      end
  end.

(** [self.ping_data_dict[ch_id] = defaultdict(list)] *)
Definition new_ping_data (ch_id : string) (s : ConvertEK80) : ConvertEK80 :=
  set_ping_data_dict (<[ch_id := ∅]> (ping_data_dict s)) s.

(** [self.ping_data_dict[ch_id][key] = v] *)
Definition store_ping_data (ch_id key : string) (v : pyval)
    (s : ConvertEK80) : ConvertEK80 :=
  set_ping_data_dict
    (<[ch_id := <[key := v]> (default ∅ (ping_data_dict s !! ch_id))]>
       (ping_data_dict s)) s.

(** The body of [for ch_id in self.ch_ids] in [load_ek80_raw]. *)
Definition init_channel (ch_id : string) : M unit :=
  modify (new_ping_data ch_id) ;;;
  let! config := self config_datagram in
  let! freq := lift (transducer_frequency config ch_id) in
  modify (store_ping_data ch_id "frequency" freq) ;;;
  samples_clear power_dict set_power_dict ch_id ;;;
  samples_clear angle_dict set_angle_dict ch_id ;;;
  samples_clear complex_dict set_complex_dict ch_id ;;;
  parameters_clear ch_id "frequency_start" ;;;
  parameters_clear ch_id "frequency_end" ;;;
  parameters_clear ch_id "frequency" ;;;
  parameters_clear ch_id "pulse_duration" ;;;
  parameters_clear ch_id "pulse_form" ;;;
  parameters_clear ch_id "sample_interval" ;;;
  parameters_clear ch_id "slope" ;;;
  parameters_clear ch_id "transmit_power" ;;;
  parameters_clear ch_id "timestamp".

(** The statements on the first datagram of a file: it is stored as the
    configuration, whatever its type, and the keys of its content give
    the channels. *)
Definition read_configuration (first : Dg.t) : M unit :=
  let config := Dg.normalise first in
  modify (set_config_datagram (Some config)) ;;;
  let! subtype := lift (getitem "subtype" (Dg.subtype config)) in
  let! ids := lift (Dg.keys_at subtype config) in
  modify (set_ch_ids ids) ;;;
  for_each ids init_channel.

(** One file: the first datagram read is taken as the configuration, the
    rest goes to [_read_datagrams]. *)
Definition load_file (fid : list Dg.t) : M unit :=
  match fid with
  | [] => raise SimradEOF
  | first :: fid' => read_configuration first ;;; _read_datagrams fid'
  end.

(** [load_ek80_raw(raw)], [raw] given by the datagrams of each file. *)
Definition load_ek80_raw (raw : list (list Dg.t)) : M unit :=
  for_each raw load_file.

(** ** Datagrams of each type, as the tokenizer builds them *)

Definition xml_configuration (ts : Z) (c : pydict (pydict pyval)) : Dg.t :=
  Dg.mk "XML0" ts (Some "configuration") None None (Some c) None None None
    None None None None None None None None None.

Definition xml_environment (ts : Z) (e : pydict pyval) : Dg.t :=
  Dg.mk "XML0" ts (Some "environment") (Some e) None None None None None
    None None None None None None None None None.

Definition xml_parameter (ts : Z) (p : Param.t) : Dg.t :=
  Dg.mk "XML0" ts (Some "parameter") None (Some p) None None None None
    None None None None None None None None None.

Definition raw_datagram (ts : Z) (ch : string) (power angle complex : pyval)
  : Dg.t :=
  Dg.mk "RAW3" ts None None None None (Some ch) (Some power) (Some angle)
    (Some complex) None None None None None None None None.

Definition nmea_datagram (ts : Z) (sentence : string) : Dg.t :=
  Dg.mk "NME0" ts None None None None None None None None (Some sentence)
    None None None None None None None.

Definition mru_datagram (ts : Z) (heading pitch roll heave : pyval) : Dg.t :=
  Dg.mk "MRU0" ts None None None None None None None None None
    (Some heading) (Some pitch) (Some roll) (Some heave) None None None.

Definition fil_datagram (ts : Z) (ch : string) (stage : Z)
    (coefficients decimation_factor : pyval) : Dg.t :=
  Dg.mk "FIL1" ts None None None None (Some ch) None None None None None
    None None None (Some stage) (Some coefficients) (Some decimation_factor).

Definition tag_datagram (ts : Z) : Dg.t :=
  Dg.mk "TAG0" ts None None None None None None None None None None None
    None None None None None.

(** A continuous-wave parameter dict (single [frequency]) and a
    broadband one ([frequency_start], [frequency_end]). *)
Definition cw_parameter (ch : string) (f : Z) : Param.t :=
  Param.mk ch (Some f) None None (PyFloat 1) (PyInt 0) (PyFloat 2)
    (PyFloat 3) (PyFloat 4).

Definition fm_parameter (ch : string) (f0 f1 : Z) : Param.t :=
  Param.mk ch None (Some f0) (Some f1) (PyFloat 1) (PyInt 1) (PyFloat 2)
    (PyFloat 3) (PyFloat 4).

(** A configuration that declares the given channels in order. *)
Definition channel_descriptor (f : Z) : pydict pyval :=
  [("transducer_frequency", PyInt f); ("transducer_name", PyStr "ES")].

Definition configuration_of (chs : list string) : pydict (pydict pyval) :=
  (λ ch, (ch, channel_descriptor 38000)) <$> chs.

(** ** Views of a datagram stream used in the statements *)

(** The loop of [_read_datagrams] with the local variables handed out
    at the end: the state after a prefix of the stream. *)
Fixpoint run_datagrams (fid : list Dg.t) (loc : locals) : M locals :=
  match fid with
  | [] => ret loc
  | datagram :: fid' =>
      let! loc' := read_datagram loc datagram in
      run_datagrams fid' loc'
  end.

(** The dispatch of [read_datagram], read off the type tag. *)
Definition is_xml (d : Dg.t) : bool := startswith (Dg.type d) "XML".
Definition is_raw (d : Dg.t) : bool := startswith (Dg.type d) "RAW".
Definition is_nme (d : Dg.t) : bool := startswith (Dg.type d) "NME".
Definition is_mru (d : Dg.t) : bool := startswith (Dg.type d) "MRU".
Definition is_fil (d : Dg.t) : bool := startswith (Dg.type d) "FIL".

(** The parameter dict of a parameter datagram. *)
Definition as_parameter (d : Dg.t) : option Param.t :=
  if is_xml d
  then match Dg.subtype d with
       | Some st => if decide (st = "parameter") then Dg.parameter d else None
       | None => None
       end
  else None.

(** The parameter dict of the last parameter datagram of [pre], or
    [before] when [pre] has none. *)
Fixpoint most_recent_parameter (pre : list Dg.t) (before : option Param.t)
  : option Param.t :=
  match pre with
  | [] => before
  | d :: rest =>
      most_recent_parameter rest
        (match as_parameter d with Some p => Some p | None => before end)
  end.

(** The accumulators of the converter and the fields each one owns. *)
Inductive accumulator :=
| Configuration
| ParameterTable
| PingOutputs
| MotionBuffer
| PositionLog
| FilterTables
| EnvironmentSnapshot.

#[global] Instance accumulator_eq_dec : EqDecision accumulator.
Proof. solve_decision. Defined.

Definition unchanged (a : accumulator) (s s' : ConvertEK80) : Prop :=
  match a with
  | Configuration =>
      config_datagram s' = config_datagram s ∧ ch_ids s' = ch_ids s
      ∧ ping_data_dict s' = ping_data_dict s
  | ParameterTable => parameters s' = parameters s
  | PingOutputs =>
      ping_time s' = ping_time s ∧ power_dict s' = power_dict s
      ∧ angle_dict s' = angle_dict s ∧ complex_dict s' = complex_dict s
  | MotionBuffer => mru_data s' = mru_data s
  | PositionLog => nmea_data s' = nmea_data s
  | FilterTables => fil_coeffs s' = fil_coeffs s ∧ fil_df s' = fil_df s
  | EnvironmentSnapshot => environment s' = environment s
  end.

(** The accumulator a datagram is dispatched to, [None] for a datagram
    that no branch handles. *)
Definition handler (d : Dg.t) : option accumulator :=
  if is_xml d then
    match Dg.subtype d with
    | Some st =>
        if decide (st = "environment") then Some EnvironmentSnapshot
        else if decide (st = "parameter") then Some ParameterTable
        else None
    | None => None
    end
  else if is_raw d then Some PingOutputs
  else if is_nme d then Some PositionLog
  else if is_mru d then Some MotionBuffer
  else if is_fil d then Some FilterTables
  else None.

(** ** Reasoning about statements *)

Lemma bind_return {A B} (m : M A) (k : A → M B) s s' b :
  bind m k s = (s', Return b) →
  ∃ s1 a, m s = (s1, Return a) ∧ k a s1 = (s', Return b).
Proof.
  unfold bind. destruct (m s) as [s1 [a|e]]; [eauto | discriminate].
Qed.

Lemma bind_step {A B} (m : M A) (k : A → M B) s s1 a :
  m s = (s1, Return a) → bind m k s = k a s1.
Proof. unfold bind. intros ->. reflexivity. Qed.

Lemma bind_raise {A B} (m : M A) (k : A → M B) s s1 e :
  m s = (s1, Raise e) → bind m k s = (s1, Raise e).
Proof. unfold bind. intros ->. reflexivity. Qed.

(** [keeps f m]: statement [m] never changes the field [f] of [self],
    whether it returns or raises. *)
Definition keeps {A B} (f : ConvertEK80 → B) (m : M A) : Prop :=
  ∀ s, f (m s).1 = f s.

Section Keeps.
Context {B : Type} (f : ConvertEK80 → B).

Lemma keeps_ret {A} (a : A) : keeps f (ret a).
Proof. intros s. reflexivity. Qed.

Lemma keeps_raise {A} e : keeps f (@raise A e).
Proof. intros s. reflexivity. Qed.

Lemma keeps_lift {A} (o : outcome A) : keeps f (lift o).
Proof. intros s. reflexivity. Qed.

Lemma keeps_self {A} (g : ConvertEK80 → A) : keeps f (self g).
Proof. intros s. reflexivity. Qed.

Lemma keeps_modify g : (∀ s, f (g s) = f s) → keeps f (modify g).
Proof. intros H s. apply H. Qed.

Lemma keeps_bind {A C} (m : M A) (k : A → M C) :
  keeps f m → (∀ a, keeps f (k a)) → keeps f (bind m k).
Proof.
  intros Hm Hk s. unfold bind. specialize (Hm s).
  destruct (m s) as [s1 [a|e]]; simpl in *; [|done].
  rewrite Hk. done.
Qed.

Lemma keeps_for_each {A} (l : list A) body :
  (∀ x, keeps f (body x)) → keeps f (for_each l body).
Proof.
  intros Hb. induction l as [|x l IH]; simpl.
  - apply keeps_ret.
  - apply keeps_bind; [apply Hb | intros _; apply IH].
Qed.

Lemma keeps_parameters_append ch key arg :
  (∀ v s, f (set_parameters v s) = f s) →
  keeps f (parameters_append ch key arg).
Proof.
  intros H s. unfold parameters_append.
  destruct (default ∅ (parameters s !! ch) !! key); [destruct arg|];
    simpl; apply H.
Qed.

Lemma keeps_samples_append get set k arg :
  (∀ v s, f (set v s) = f s) → keeps f (samples_append get set k arg).
Proof.
  intros H s. unfold samples_append.
  destruct (get s !! k); [destruct arg|]; simpl; auto.
Qed.

Lemma keeps_mru_append key arg :
  (∀ v s, f (set_mru_data v s) = f s) → keeps f (mru_append key arg).
Proof. intros H s. unfold mru_append. destruct arg; simpl; apply H. Qed.

Lemma keeps_fil_store get set v vkey d :
  (∀ v s, f (set v s) = f s) → keeps f (fil_store get set v vkey d).
Proof.
  intros H s. unfold fil_store, bind, lift.
  destruct v; simpl; [|done].
  destruct (Dg.channel_id d); simpl; [|done].
  destruct (Dg.stage d); simpl; apply H.
Qed.
End Keeps.

(** Solves [keeps f m] for a field [f] that no primitive of [m] sets. *)
Ltac keeps_step :=
  first
    [ apply keeps_ret | apply keeps_raise | apply keeps_lift
    | apply keeps_self
    | apply keeps_modify; intros; reflexivity
    | apply keeps_parameters_append; intros; reflexivity
    | apply keeps_samples_append; intros; reflexivity
    | apply keeps_mru_append; intros; reflexivity
    | apply keeps_fil_store; intros; reflexivity
    | apply keeps_for_each; intros
    | apply keeps_bind; [|intros] ].
Ltac keeps_auto := repeat (keeps_step || case_match).

Lemma keeps_save_ping {B} (f : ConvertEK80 → B) buf :
  (∀ v s, f (set_ping_time v s) = f s) →
  (∀ v s, f (set_power_dict v s) = f s) →
  (∀ v s, f (set_angle_dict v s) = f s) →
  (∀ v s, f (set_complex_dict v s) = f s) →
  keeps f (save_ping buf).
Proof.
  intros H1 H2 H3 H4. unfold save_ping.
  apply keeps_bind; [apply keeps_lift|intros first].
  apply keeps_bind; [apply keeps_modify; intros; apply H1|intros _].
  apply keeps_bind; [apply keeps_self|intros ids].
  apply keeps_for_each; intros [i ch]; unfold save_channel.
  repeat (apply keeps_bind; [|intros _]);
    apply keeps_samples_append; assumption.
Qed.

Lemma keeps_read_raw {B} (f : ConvertEK80 → B) loc d :
  (∀ v s, f (set_ping_time v s) = f s) →
  (∀ v s, f (set_power_dict v s) = f s) →
  (∀ v s, f (set_angle_dict v s) = f s) →
  (∀ v s, f (set_complex_dict v s) = f s) →
  keeps f (read_raw loc d).
Proof.
  intros H1 H2 H3 H4. unfold read_raw.
  repeat first
    [ apply keeps_save_ping; assumption
    | keeps_step | case_match ].
Qed.

Lemma bind_lift_return {A C} (a : A) (k : A → M C) :
  bind (lift (Return a)) k = k a.
Proof. reflexivity. Qed.

Lemma bind_lift_raise {A C} e (k : A → M C) :
  bind (lift (Raise e)) k = raise e.
Proof. reflexivity. Qed.

(** The frame rule of the dispatch: a datagram only uses the setters of
    the accumulator that handles it. *)
Lemma keeps_read_datagram {B} (f : ConvertEK80 → B) loc d :
  (handler d = Some EnvironmentSnapshot → ∀ v s, f (set_environment v s) = f s) →
  (handler d = Some ParameterTable → ∀ v s, f (set_parameters v s) = f s) →
  (handler d = Some PingOutputs →
     (∀ v s, f (set_ping_time v s) = f s) ∧ (∀ v s, f (set_power_dict v s) = f s)
     ∧ (∀ v s, f (set_angle_dict v s) = f s)
     ∧ (∀ v s, f (set_complex_dict v s) = f s)) →
  (handler d = Some PositionLog → ∀ v s, f (set_nmea_data v s) = f s) →
  (handler d = Some MotionBuffer → ∀ v s, f (set_mru_data v s) = f s) →
  (handler d = Some FilterTables →
     (∀ v s, f (set_fil_coeffs v s) = f s) ∧ (∀ v s, f (set_fil_df v s) = f s)) →
  keeps f (read_datagram loc d).
Proof.
  unfold handler, read_datagram, is_xml, is_raw, is_nme, is_mru, is_fil.
  cbn [Dg.type Dg.normalise Dg.set_timestamp].
  generalize (count_datagram loc); clear loc; intros loc.
  intros Henv Hpar Hping Hpos Hmot Hfil.
  destruct (startswith (Dg.type d) "XML").
  { unfold read_xml. cbn [Dg.subtype Dg.normalise Dg.set_timestamp].
    destruct (Dg.subtype d) as [st|]; simpl getitem;
      [rewrite bind_lift_return | apply keeps_raise].
    destruct (decide (st = "environment")).
    { apply keeps_bind; [apply keeps_lift|intros env].
      apply keeps_bind; [apply keeps_modify; intros; apply Henv; done|].
      intros; apply keeps_ret. }
    destruct (decide (st = "parameter")); [|apply keeps_ret].
    specialize (Hpar eq_refl).
    apply keeps_bind; [apply keeps_lift|intros cp].
    unfold append_parameters.
    repeat first
      [ apply keeps_parameters_append; assumption
      | keeps_step | case_match ]. }
  destruct (startswith (Dg.type d) "RAW").
  { destruct (Hping eq_refl) as (? & ? & ? & ?).
    apply keeps_read_raw; assumption. }
  destruct (startswith (Dg.type d) "NME").
  { apply keeps_bind; [apply keeps_lift|intros ?].
    apply keeps_bind; [|intros; apply keeps_ret].
    apply keeps_modify. intros; apply Hpos; done. }
  destruct (startswith (Dg.type d) "MRU").
  { specialize (Hmot eq_refl).
    repeat first [ apply keeps_mru_append; assumption | keeps_step ]. }
  destruct (startswith (Dg.type d) "FIL").
  { destruct (Hfil eq_refl).
    repeat first [ apply keeps_fil_store; assumption | keeps_step ]. }
  apply keeps_ret.
Qed.

Lemma read_datagram_frame loc d a s :
  handler d ≠ Some a → unchanged a s (read_datagram loc d s).1.
Proof.
  intros Hne.
  destruct a; simpl; repeat split;
    apply keeps_read_datagram; intros Hh; try (rewrite Hh in Hne; done);
    repeat split; intros; reflexivity.
Qed.

Lemma read_datagram_unhandled loc d s :
  handler d = None → (read_datagram loc d s).1 = s.
Proof.
  intros Hh. apply (keeps_read_datagram id); rewrite Hh; discriminate.
Qed.

(** ** Indexing *)

Lemma py_index_nonneg {A} (l : list A) (i : Z) :
  0 ≤ i →
  py_index l i = match l !! Z.to_nat i with
                 | Some x => Return x
                 | None => Raise IndexError
                 end.
Proof.
  intros Hi. unfold py_index.
  rewrite (proj2 (Z.leb_le 0 i) Hi). cbv zeta iota.
  rewrite (proj2 (Z.leb_le 0 i) Hi). cbn [andb].
  destruct (i <? Z.of_nat (length l)) eqn:Hlt; [done|].
  apply Z.ltb_ge in Hlt.
  rewrite (proj2 (lookup_ge_None l (Z.to_nat i))); [done|lia].
Qed.

Lemma py_index_nat {A} (l : list A) (i : nat) :
  py_index l (Z.of_nat i) = match l !! i with
                            | Some x => Return x
                            | None => Raise IndexError
                            end.
Proof. rewrite py_index_nonneg by lia. by rewrite Nat2Z.id. Qed.

Lemma py_index_last {A} (l : list A) :
  py_index l (-1) = match last l with
                    | Some x => Return x
                    | None => Raise IndexError
                    end.
Proof.
  unfold py_index. rewrite last_lookup.
  destruct l as [|x l]; [done|].
  change (0 <=? -1) with false. cbv iota.
  replace (0 <=? Z.of_nat (length (x :: l)) + -1) with true
    by (symmetry; apply Z.leb_le; simpl; lia).
  replace (Z.of_nat (length (x :: l)) + -1 <? Z.of_nat (length (x :: l)))
    with true by (symmetry; apply Z.ltb_lt; lia).
  simpl andb. cbv iota.
  replace (Z.to_nat (Z.of_nat (length (x :: l)) + -1))
    with (Nat.pred (length (x :: l))) by (simpl; lia).
  done.
Qed.

(** ** The commit *)

(** The state after channel [ch] received one entry of each kind. *)
Definition channel_saved (ch : string) (pw an cx : pyval)
    (lp la lc : list pyval) (s : ConvertEK80) : ConvertEK80 :=
  set_complex_dict (<[ch := lc ++ [cx]]> (complex_dict s))
    (set_angle_dict (<[ch := la ++ [an]]> (angle_dict s))
       (set_power_dict (<[ch := lp ++ [pw]]> (power_dict s)) s)).

(** What a returning [save_channel] found and did. *)
Definition channel_entry (buf : list Dg.t) (i : Z) (ch : string)
    (s s' : ConvertEK80) : Prop :=
  ∃ b pw an cx lp la lc,
    py_index buf i = Return b
    ∧ Dg.power b = Some pw ∧ Dg.angle b = Some an ∧ Dg.complex b = Some cx
    ∧ power_dict s !! ch = Some lp ∧ angle_dict s !! ch = Some la
    ∧ complex_dict s !! ch = Some lc
    ∧ power_dict s' !! ch = Some (lp ++ [pw])
    ∧ angle_dict s' !! ch = Some (la ++ [an])
    ∧ complex_dict s' !! ch = Some (lc ++ [cx]).

Definition same_samples (ch : string) (s s' : ConvertEK80) : Prop :=
  power_dict s' !! ch = power_dict s !! ch
  ∧ angle_dict s' !! ch = angle_dict s !! ch
  ∧ complex_dict s' !! ch = complex_dict s !! ch.

Lemma save_channel_return buf i ch s s' :
  save_channel buf (i, ch) s = (s', Return tt) →
  ∃ b pw an cx lp la lc,
    py_index buf i = Return b
    ∧ Dg.power b = Some pw ∧ Dg.angle b = Some an ∧ Dg.complex b = Some cx
    ∧ power_dict s !! ch = Some lp ∧ angle_dict s !! ch = Some la
    ∧ complex_dict s !! ch = Some lc
    ∧ s' = channel_saved ch pw an cx lp la lc s.
Proof.
  unfold save_channel, bind, samples_append. simpl.
  destruct (power_dict s !! ch) as [lp|]; [|by intros [=]].
  destruct (py_index buf i) as [b|]; [|by intros [=]].
  destruct (Dg.power b) as [pw|] eqn:Hp; simpl; [|by intros [=]].
  destruct (angle_dict s !! ch) as [la|]; [|by intros [=]].
  destruct (Dg.angle b) as [an|] eqn:Ha; simpl; [|by intros [=]].
  destruct (complex_dict s !! ch) as [lc|]; [|by intros [=]].
  destruct (Dg.complex b) as [cx|] eqn:Hc; simpl; [|by intros [=]].
  intros [= <-]. by exists b, pw, an, cx, lp, la, lc.
Qed.

Lemma save_channel_saves buf i ch s b pw an cx lp la lc :
  py_index buf i = Return b →
  Dg.power b = Some pw → Dg.angle b = Some an → Dg.complex b = Some cx →
  power_dict s !! ch = Some lp → angle_dict s !! ch = Some la →
  complex_dict s !! ch = Some lc →
  save_channel buf (i, ch) s
  = (channel_saved ch pw an cx lp la lc s, Return tt).
Proof.
  intros Hb Hp Ha Hc Hlp Hla Hlc.
  unfold save_channel, bind, samples_append. simpl.
  rewrite Hlp, Hb, Hp. simpl. rewrite Hla, Ha. simpl. by rewrite Hlc, Hc.
Qed.

Lemma channel_saved_entry buf i ch s b pw an cx lp la lc :
  py_index buf i = Return b →
  Dg.power b = Some pw → Dg.angle b = Some an → Dg.complex b = Some cx →
  power_dict s !! ch = Some lp → angle_dict s !! ch = Some la →
  complex_dict s !! ch = Some lc →
  channel_entry buf i ch s (channel_saved ch pw an cx lp la lc s).
Proof.
  intros. exists b, pw, an, cx, lp, la, lc. simpl.
  rewrite !lookup_insert_eq. done.
Qed.

Lemma channel_saved_other ch ch' pw an cx lp la lc s :
  ch ≠ ch' → same_samples ch' s (channel_saved ch pw an cx lp la lc s).
Proof.
  intros Hne. unfold same_samples; simpl.
  by rewrite !lookup_insert_ne.
Qed.

(** The loop over the channels, when it returns: every channel of the
    list got the samples of the buffered datagram at its index, appended
    to what it had; every other channel is as before. *)
Lemma save_channels_return buf suffix : ∀ (k : Z) s s',
  for_each (enumerate_from k suffix) (save_channel buf) s = (s', Return tt) →
  NoDup suffix →
  ∀ ch,
    (ch ∉ suffix → same_samples ch s s')
    ∧ (∀ j : nat, suffix !! j = Some ch →
         channel_entry buf (k + Z.of_nat j) ch s s').
Proof.
  induction suffix as [|c rest IH]; intros k s s' Hrun Hnd ch.
  - simpl in Hrun. injection Hrun as <-. split; [done|].
    intros j Hj. by rewrite lookup_nil in Hj.
  - simpl in Hrun. apply bind_return in Hrun as (s1 & [] & Hc & Hrest).
    apply NoDup_cons in Hnd as [Hc_rest Hnd].
    apply save_channel_return in Hc
      as (b & pw & an & cx & lp & la & lc & Hb & Hp & Ha & Hx
          & Hlp & Hla & Hlc & ->).
    specialize (IH _ _ _ Hrest Hnd).
    destruct (decide (ch = c)) as [->|Hne].
    + split; [intros Hni; exfalso; apply Hni; left|].
      intros [|j] Hj.
      * destruct (IH c) as [Hsame _].
        destruct (Hsame Hc_rest) as (Hs1 & Hs2 & Hs3).
        exists b, pw, an, cx, lp, la, lc.
        rewrite Z.add_0_r, Hs1, Hs2, Hs3. simpl.
        rewrite !lookup_insert_eq. done.
      * simpl in Hj. exfalso. apply Hc_rest.
        by eapply list_elem_of_lookup_2.
    + assert (Hother := channel_saved_other c ch pw an cx lp la lc s
                          (not_eq_sym Hne)).
      destruct Hother as (Ho1 & Ho2 & Ho3).
      destruct (IH ch) as [Hsame Hentry]. split.
      * intros Hni. destruct Hsame as (Hs1 & Hs2 & Hs3).
        { intros Hin. apply Hni. by right. }
        unfold same_samples. by rewrite Hs1, Hs2, Hs3.
      * intros [|j] Hj; [simpl in Hj; congruence|].
        simpl in Hj. specialize (Hentry j Hj).
        destruct Hentry as (b' & pw' & an' & cx' & lp' & la' & lc' & Hb'
                            & ? & ? & ? & Hlp' & Hla' & Hlc' & ? & ? & ?).
        exists b', pw', an', cx', lp', la', lc'.
        replace (k + Z.of_nat (S j)) with (k + 1 + Z.of_nat j) by lia.
        rewrite <- Ho1, <- Ho2, <- Ho3. done.
Qed.

(** The loop returns when every channel of the list has its three
    sample lists and a buffered datagram with the three sample keys at
    its index. *)
Lemma save_channels_total buf suffix : ∀ (k : Z) s,
  (∀ (j : nat) ch, suffix !! j = Some ch →
     (∃ b, py_index buf (k + Z.of_nat j) = Return b
           ∧ is_Some (Dg.power b) ∧ is_Some (Dg.angle b)
           ∧ is_Some (Dg.complex b))
     ∧ is_Some (power_dict s !! ch) ∧ is_Some (angle_dict s !! ch)
     ∧ is_Some (complex_dict s !! ch)) →
  ∃ s', for_each (enumerate_from k suffix) (save_channel buf) s
        = (s', Return tt).
Proof.
  induction suffix as [|c rest IH]; intros k s Hpre.
  - by eexists.
  - destruct (Hpre 0%nat c eq_refl)
      as ((b & Hb & [pw Hpw] & [an Han] & [cx Hcx])
          & [lp Hlp] & [la Hla] & [lc Hlc]).
    rewrite Z.add_0_r in Hb. simpl.
    erewrite bind_step by (by eapply save_channel_saves).
    apply IH. intros j ch Hj.
    destruct (Hpre (S j) ch Hj) as (Hbuf & Hp & Ha & Hc).
    replace (k + 1 + Z.of_nat j) with (k + Z.of_nat (S j)) by lia.
    split; [done|]. simpl.
    rewrite !lookup_insert_is_Some'. tauto.
Qed.

Lemma keeps_save_channels {B} (f : ConvertEK80 → B) buf l :
  (∀ v s, f (set_power_dict v s) = f s) →
  (∀ v s, f (set_angle_dict v s) = f s) →
  (∀ v s, f (set_complex_dict v s) = f s) →
  keeps f (for_each l (save_channel buf)).
Proof.
  intros H1 H2 H3. apply keeps_for_each. intros [i ch]. unfold save_channel.
  repeat (apply keeps_bind; [|intros _]);
    apply keeps_samples_append; assumption.
Qed.

Lemma save_ping_return buf s s' :
  save_ping buf s = (s', Return tt) →
  NoDup (ch_ids s) →
  ∃ first,
    py_index buf 0 = Return first
    ∧ ping_time s' = ping_time s ++ [Dg.timestamp first]
    ∧ ∀ ch,
        (ch ∉ ch_ids s → same_samples ch s s')
        ∧ (∀ j : nat, ch_ids s !! j = Some ch →
             channel_entry buf (Z.of_nat j) ch s s').
Proof.
  unfold save_ping. intros Hrun Hnd.
  destruct (py_index buf 0) as [first|e] eqn:Hfirst; [|discriminate].
  rewrite bind_lift_return in Hrun.
  apply bind_return in Hrun as (s1 & [] & Hmod & Hrun).
  injection Hmod as <-.
  apply bind_return in Hrun as (s2 & ids & Hids & Hrun).
  injection Hids as <- <-.
  exists first. split; [done|]. split.
  - pose proof (keeps_save_channels ping_time buf (enumerate (ch_ids s))
                  (λ _ _, eq_refl) (λ _ _, eq_refl) (λ _ _, eq_refl)
                  (set_ping_time (ping_time s ++ [Dg.timestamp first]) s))
      as Hk.
    rewrite Hrun in Hk. exact Hk.
  - intros ch.
    destruct (save_channels_return buf _ 0 _ _ Hrun Hnd ch) as [H1 H2].
    split; [exact H1|]. intros j Hj. exact (H2 j Hj).
Qed.

Lemma save_ping_total buf s :
  (∀ (j : nat) ch, ch_ids s !! j = Some ch →
     (∃ b, buf !! j = Some b
           ∧ is_Some (Dg.power b) ∧ is_Some (Dg.angle b)
           ∧ is_Some (Dg.complex b))
     ∧ is_Some (power_dict s !! ch) ∧ is_Some (angle_dict s !! ch)
     ∧ is_Some (complex_dict s !! ch)) →
  buf ≠ [] →
  ∃ s', save_ping buf s = (s', Return tt).
Proof.
  intros Hpre Hne. unfold save_ping.
  destruct buf as [|first buf']; [done|].
  change (py_index (first :: buf') 0) with (Return (A:=Dg.t) first).
  rewrite bind_lift_return.
  unfold bind at 1, modify at 1. unfold bind at 1, self at 1.
  apply save_channels_total. intros j ch Hj.
  destruct (Hpre j ch Hj) as ((b & Hb & Hf) & Hd). split; [|exact Hd].
  exists b. split; [|exact Hf].
  rewrite Z.add_0_l, py_index_nat. by rewrite Hb.
Qed.

(** ** Returned values *)

(** [yields Q m]: whenever [m] returns, the value satisfies [Q]. *)
Definition yields {A} (Q : A → Prop) (m : M A) : Prop :=
  ∀ s s' a, m s = (s', Return a) → Q a.

Lemma yields_ret {A} (Q : A → Prop) a : Q a → yields Q (ret a).
Proof. intros H s s' a' [= _ <-]. done. Qed.

Lemma yields_raise {A} (Q : A → Prop) e : yields Q (raise e).
Proof. intros s s' a [=]. Qed.

Lemma yields_bind {A C} (Q : C → Prop) (m : M A) (k : A → M C) :
  (∀ a, yields Q (k a)) → yields Q (bind m k).
Proof.
  intros Hk s s' c Hrun.
  apply bind_return in Hrun as (s1 & a & _ & Hrun). by eapply Hk.
Qed.

Ltac yields_auto :=
  repeat first
    [ apply yields_raise
    | apply yields_ret; reflexivity
    | apply yields_bind; intros
    | case_match ].

(** ** The type tags *)

Lemma raw_not_xml d : is_raw d = true → is_xml d = false.
Proof.
  unfold is_raw, is_xml, startswith.
  destruct (Dg.type d) as [|a t]; [done|]. cbn [String.prefix].
  destruct (Ascii.ascii_dec _ a) as [<-|]; [intros _|done].
  destruct (Ascii.ascii_dec _ _); [discriminate|reflexivity].
Qed.

(** The local variables after a datagram that is not sample data: only
    the datagram count moves, and a parameter datagram binds
    [current_parameters]. *)
Lemma read_datagram_locals loc d :
  is_raw d = false ∨ is_xml d = true →
  yields (λ loc',
      loc' = mkLocals (num_datagrams_parsed loc + 1)
               (tmp_num_ch_per_ping_parsed loc) (tmp_datagram_dict loc)
               (match as_parameter d with
                | Some p => Some p
                | None => current_parameters loc
                end))
    (read_datagram loc d).
Proof.
  unfold read_datagram, as_parameter, is_xml, is_raw.
  cbn [Dg.type Dg.normalise Dg.set_timestamp].
  intros Hkind.
  destruct (startswith (Dg.type d) "XML").
  { unfold read_xml. cbn [Dg.subtype Dg.parameter Dg.normalise Dg.set_timestamp].
    destruct (Dg.subtype d) as [st|]; simpl getitem;
      [rewrite bind_lift_return | apply yields_raise].
    destruct (decide (st = "environment")) as [->|].
    { yields_auto. }
    destruct (decide (st = "parameter")); [|yields_auto].
    destruct (Dg.parameter d) as [cp|]; simpl getitem;
      [rewrite bind_lift_return | apply yields_raise].
    yields_auto. }
  destruct Hkind as [->|]; [|done].
  yields_auto.
Qed.

(** The local variables after a sample datagram: the buffer is one
    longer, or restarted with the datagram. *)
Lemma read_raw_locals loc d :
  yields (λ loc',
      current_parameters loc' = current_parameters loc
      ∧ (tmp_datagram_dict loc' = tmp_datagram_dict loc ++ [d]
         ∨ tmp_datagram_dict loc' = [d]))
    (read_raw loc d).
Proof.
  unfold read_raw.
  repeat first
    [ apply yields_raise
    | apply yields_ret; simpl; split; [reflexivity|]
    | apply yields_bind; intros
    | case_match ];
  case_bool_decide; auto.
Qed.

(** ** Running a stream *)

Lemma read_datagram_raw loc d :
  is_raw d = true →
  read_datagram loc d = read_raw (count_datagram loc) (Dg.normalise d).
Proof.
  intros Hraw. pose proof (raw_not_xml d Hraw) as Hxml.
  unfold is_raw, is_xml in *. unfold read_datagram.
  cbn [Dg.type Dg.normalise Dg.set_timestamp] in *.
  by rewrite Hxml, Hraw.
Qed.

Lemma as_parameter_raw d : is_raw d = true → as_parameter d = None.
Proof.
  intros Hraw. unfold as_parameter. by rewrite (raw_not_xml d Hraw).
Qed.

Lemma read_datagram_current loc d :
  yields (λ loc',
      current_parameters loc'
      = match as_parameter d with
        | Some p => Some p
        | None => current_parameters loc
        end)
    (read_datagram loc d).
Proof.
  intros s s' loc' Hrun.
  destruct (is_raw d) eqn:Hraw.
  - rewrite read_datagram_raw in Hrun by done.
    apply read_raw_locals in Hrun as [-> _].
    by rewrite as_parameter_raw.
  - apply read_datagram_locals in Hrun; [|by left]. by subst loc'.
Qed.

Lemma run_datagrams_app pre post : ∀ loc s,
  run_datagrams (pre ++ post) loc s
  = bind (run_datagrams pre loc) (run_datagrams post) s.
Proof.
  induction pre as [|d pre IH]; intros loc s; simpl.
  - reflexivity.
  - unfold bind.
    destruct (read_datagram loc d s) as [s1 [loc1|e]]; [|done].
    by rewrite IH.
Qed.

(** [read_loop] is [run_datagrams] with the local variables dropped. *)
Lemma read_loop_run fid : ∀ loc s,
  read_loop fid loc s
  = ((run_datagrams fid loc s).1,
     outcome_map (λ _, tt) (run_datagrams fid loc s).2).
Proof.
  induction fid as [|d fid IH]; intros loc s; simpl.
  - reflexivity.
  - unfold bind.
    destruct (read_datagram loc d s) as [s1 [loc1|e]]; [|done].
    apply IH.
Qed.

Lemma read_loop_return fid loc s s' loc' :
  run_datagrams fid loc s = (s', Return loc') →
  read_loop fid loc s = (s', Return tt).
Proof. intros H. by rewrite read_loop_run, H. Qed.

(** An exception raised by a datagram ends the loop there: the
    datagrams behind it are not read. *)
Lemma read_loop_raise pre d rest loc s s1 loc1 s2 e :
  run_datagrams pre loc s = (s1, Return loc1) →
  read_datagram loc1 d s1 = (s2, Raise e) →
  read_loop (pre ++ d :: rest) loc s = (s2, Raise e).
Proof.
  intros Hpre Hd.
  rewrite read_loop_run, run_datagrams_app.
  rewrite (bind_step _ _ _ _ _ Hpre). simpl.
  by rewrite (bind_raise _ _ _ _ _ Hd).
Qed.

Lemma run_datagrams_current pre : ∀ loc s s' loc',
  run_datagrams pre loc s = (s', Return loc') →
  current_parameters loc'
  = most_recent_parameter pre (current_parameters loc).
Proof.
  induction pre as [|d pre IH]; intros loc s s' loc' Hrun; simpl in *.
  - by injection Hrun as _ <-.
  - apply bind_return in Hrun as (s1 & loc1 & Hd & Hrun).
    apply read_datagram_current in Hd.
    rewrite (IH _ _ _ _ Hrun). by rewrite Hd.
Qed.

(** An exception in a file ends [load_ek80_raw]: the files behind it
    are not opened. *)
Lemma load_ek80_raw_raise first fid files s0 s s' e :
  read_configuration first s0 = (s, Return tt) →
  _read_datagrams fid s = (s', Raise e) →
  load_ek80_raw ((first :: fid) :: files) s0 = (s', Raise e).
Proof.
  intros Hcfg Hrun. unfold load_ek80_raw. simpl.
  apply bind_raise. by rewrite (bind_step _ _ _ _ _ Hcfg).
Qed.

(** ** The check of a sample datagram against the parameters *)

Lemma read_raw_mismatch loc d s c cp :
  Dg.channel_id d = Some c →
  current_parameters loc = Some cp →
  c ≠ Param.channel_id cp →
  read_raw loc d s = (s, Raise (ValueError "Parameter ID does not match RAW")).
Proof.
  intros Hc Hcp Hne. unfold read_raw.
  rewrite Hc, Hcp. simpl. rewrite !bind_lift_return.
  destruct (decide (Param.channel_id cp ≠ c)); [done|].
  exfalso. apply n. congruence.
Qed.

Lemma read_raw_unbound loc d s :
  is_Some (Dg.channel_id d) →
  current_parameters loc = None →
  read_raw loc d s = (s, Raise (UnboundLocalError "current_parameters")).
Proof.
  intros [c Hc] Hcp. unfold read_raw.
  rewrite Hc, Hcp. simpl. by rewrite bind_lift_return.
Qed.

(** C2.  A sample datagram whose channel id differs from the channel id
    of the most recent parameter datagram raises [ValueError]; the
    exception ends the whole load (the rest of the file and the files
    behind it are not read), and the converter is left exactly as it was
    after the datagrams before it: this datagram commits no ping, and
    every parameter appended so far is still there. *)
Theorem data_channel_mismatch
    s0 first pre d rest files s s1 loc1 cp c :
  read_configuration first s0 = (s, Return tt) →
  run_datagrams pre initial_locals s = (s1, Return loc1) →
  most_recent_parameter pre None = Some cp →
  is_raw d = true →
  Dg.channel_id d = Some c →
  c ≠ Param.channel_id cp →
  load_ek80_raw ((first :: pre ++ d :: rest) :: files) s0
  = (s1, Raise (ValueError "Parameter ID does not match RAW")).
Proof.
  intros Hcfg Hpre Hcp Hraw Hc Hne.
  eapply load_ek80_raw_raise; [exact Hcfg|].
  unfold _read_datagrams. eapply read_loop_raise; [exact Hpre|].
  rewrite read_datagram_raw by done.
  apply (read_raw_mismatch _ _ _ c cp); [done| |done].
  simpl. rewrite (run_datagrams_current _ _ _ _ _ Hpre). exact Hcp.
Qed.

(** C10.  A sample datagram that comes before any parameter datagram
    reads the local name [current_parameters] before it was ever bound:
    the load ends with [UnboundLocalError], not with the [ValueError] of
    the channel check, and the datagram is not skipped. *)
Theorem data_before_parameter
    s0 first pre d rest files s s1 loc1 :
  read_configuration first s0 = (s, Return tt) →
  run_datagrams pre initial_locals s = (s1, Return loc1) →
  most_recent_parameter pre None = None →
  is_raw d = true →
  is_Some (Dg.channel_id d) →
  load_ek80_raw ((first :: pre ++ d :: rest) :: files) s0
  = (s1, Raise (UnboundLocalError "current_parameters")).
Proof.
  intros Hcfg Hpre Hcp Hraw Hc.
  eapply load_ek80_raw_raise; [exact Hcfg|].
  unfold _read_datagrams. eapply read_loop_raise; [exact Hpre|].
  rewrite read_datagram_raw by done.
  apply read_raw_unbound; [done|].
  simpl. rewrite (run_datagrams_current _ _ _ _ _ Hpre). exact Hcp.
Qed.

(** ** The dispatch and the accumulators *)

Lemma read_datagram_skip loc d s :
  handler d = None →
  is_xml d = false ∨ is_Some (Dg.subtype d) →
  read_datagram loc d s = (s, Return (count_datagram loc)).
Proof.
  unfold handler, read_datagram, is_xml, is_raw, is_nme, is_mru, is_fil.
  cbn [Dg.type Dg.normalise Dg.set_timestamp].
  intros Hh Hsub.
  destruct (startswith (Dg.type d) "XML").
  - destruct Hsub as [|[st Hst]]; [done|].
    unfold read_xml. cbn [Dg.subtype Dg.normalise Dg.set_timestamp].
    rewrite Hst in *. simpl getitem. rewrite bind_lift_return.
    destruct (decide (st = "environment")); [done|].
    destruct (decide (st = "parameter")); [done|]. reflexivity.
  - repeat (case_match; [done|]). reflexivity.
Qed.

(** C8 (as the code has it).  A datagram that no branch handles (a type
    tag outside XML, RAW, NME, MRU and FIL, the TAG datagram among them,
    or an XML datagram that is neither environment nor parameter) is
    skipped and leaves the whole converter as it was; a handled datagram
    leaves every accumulator but its own as it was, so it modifies at
    most one. *)
Theorem dispatch_frame loc d s :
  (handler d = None → (read_datagram loc d s).1 = s)
  ∧ (handler d = None → is_xml d = false ∨ is_Some (Dg.subtype d) →
     read_datagram loc d s = (s, Return (count_datagram loc)))
  ∧ (∀ a, handler d ≠ Some a → unchanged a s (read_datagram loc d s).1).
Proof.
  split; [apply read_datagram_unhandled|].
  split; [apply read_datagram_skip|].
  intros a. apply read_datagram_frame.
Qed.

(** The configuration of the two channels A and B, and the converter
    after reading it. *)
Definition config_AB : Dg.t :=
  xml_configuration 0 (configuration_of ["A"; "B"]).

Definition loaded_AB : ConvertEK80 := (read_configuration config_AB init).1.

Definition parameter_A : Dg.t := xml_parameter 1000 (cw_parameter "A" 38000).
Definition parameter_B : Dg.t := xml_parameter 3000 (cw_parameter "B" 70000).
Definition data_A : Dg.t := raw_datagram 2000 "A" (PyArray [1; 2]) PyNone PyNone.
Definition data_B : Dg.t := raw_datagram 4000 "B" (PyArray [3; 4]) PyNone PyNone.

(** The value a statement returned ([a] if it raised). *)
Definition returned {A} (a : A) (r : ConvertEK80 * outcome A) : A :=
  match r.2 with
  | Return x => x
  | Raise _ => a
  end.


Lemma unchanged_eq a s s' : s' = s → unchanged a s s'.
Proof. intros ->. destruct a; simpl; done. Qed.

(** C8 (as stated) fails: the sample datagram of channel A, first of
    its cycle, is handled and returns, and modifies no accumulator at
    all (it is only buffered in a local list). *)
Lemma data_record_modifies_nothing :
  let r := run_datagrams [parameter_A] initial_locals loaded_AB in
  handler data_A = Some PingOutputs
  ∧ read_datagram (returned initial_locals r) data_A r.1
    = (r.1, Return (mkLocals 2 0 [data_A] (Some (cw_parameter "A" 38000))))
  ∧ ∀ a, unchanged a r.1 (read_datagram (returned initial_locals r) data_A r.1).1.
Proof.
  cbv zeta. split; [reflexivity|]. split; [vm_compute; reflexivity|].
  intros a. apply unchanged_eq. vm_compute. reflexivity.
Qed.

(** Scenario C of the specification: parameter(A), data(A),
    parameter(B), data(A).  The second sample datagram raises; no ping
    was committed and the parameters of channel A are still there. *)
Lemma data_channel_mismatch_witness :
  let pre := [parameter_A; data_A; parameter_B] in
  let r := run_datagrams pre initial_locals loaded_AB in
  load_ek80_raw [config_AB :: pre ++ [data_A]] init
  = (r.1, Raise (ValueError "Parameter ID does not match RAW"))
  ∧ ping_time r.1 = []
  ∧ parameters r.1 !! "A" ≫= (.!! "frequency") = Some [PyInt 38000].
Proof.
  cbv zeta. split; [|split; vm_compute; reflexivity].
  apply (data_channel_mismatch init config_AB
           [parameter_A; data_A; parameter_B] data_A [] [] loaded_AB
           (run_datagrams [parameter_A; data_A; parameter_B]
              initial_locals loaded_AB).1
           (returned initial_locals
              (run_datagrams [parameter_A; data_A; parameter_B]
                 initial_locals loaded_AB))
           (cw_parameter "B" 70000) "A");
    try (vm_compute; reflexivity).
  discriminate.
Defined.

(** A file whose first datagram behind the configuration is sample
    data. *)
Lemma data_before_parameter_witness :
  load_ek80_raw [config_AB :: [] ++ [data_A; parameter_A]] init
  = (loaded_AB, Raise (UnboundLocalError "current_parameters")).
Proof.
  apply (data_before_parameter init config_AB [] data_A [parameter_A] []
           loaded_AB loaded_AB initial_locals);
    try (vm_compute; reflexivity).
  by exists "A".
Defined.

(** ** Reading the configuration *)

(** The keys of [self.parameters[ch_id]] that [load_ek80_raw] creates,
    in the order of the assignments. *)
Definition parameter_keys : list string :=
  ["frequency_start"; "frequency_end"; "frequency"; "pulse_duration";
   "pulse_form"; "sample_interval"; "slope"; "transmit_power"; "timestamp"].

(** The converter after the loop body of [load_ek80_raw] ran for
    [ch_id]. *)
Definition channel_initialised (ch_id : string) (f : pyval)
    (s : ConvertEK80) : ConvertEK80 :=
  foldl (λ s key, clear_parameter ch_id key s)
    (clear_samples complex_dict set_complex_dict ch_id
       (clear_samples angle_dict set_angle_dict ch_id
          (clear_samples power_dict set_power_dict ch_id
             (store_ping_data ch_id "frequency" f (new_ping_data ch_id s)))))
    parameter_keys.

Lemma init_channel_eq ch_id s :
  init_channel ch_id s
  = match transducer_frequency (config_datagram s) ch_id with
    | Return f => (channel_initialised ch_id f s, Return tt)
    | Raise e => (new_ping_data ch_id s, Raise e)
    end.
Proof.
  unfold init_channel, bind, modify, self, lift. cbn [config_datagram new_ping_data set_ping_data_dict].
  destruct (transducer_frequency (config_datagram s) ch_id); reflexivity.
Qed.

Definition cleared (tbl : gmap string (list pyval)) : gmap string (list pyval) :=
  foldl (λ t key, <[key := []]> t) tbl parameter_keys.

Lemma cleared_lookup tbl key :
  key ∈ parameter_keys → cleared tbl !! key = Some [].
Proof.
  unfold cleared, parameter_keys. cbn [foldl]. intros Hin.
  repeat (apply elem_of_cons in Hin as [->|Hin];
          [by rewrite ?lookup_insert_ne, lookup_insert_eq by done|]).
  by apply elem_of_nil in Hin.
Qed.

Lemma cleared_lookup_other tbl key :
  key ∉ parameter_keys → cleared tbl !! key = tbl !! key.
Proof.
  unfold cleared, parameter_keys. cbn [foldl]. intros Hni.
  rewrite !lookup_insert_ne; [done|..];
    intros <-; apply Hni; set_solver.
Qed.

Lemma parameters_cleared ch keys : ∀ key s,
  parameters (foldl (λ s key, clear_parameter ch key s)
                (clear_parameter ch key s) keys)
  = <[ch := foldl (λ t key, <[key := []]> t)
              (<[key := []]> (default ∅ (parameters s !! ch))) keys]>
      (parameters s).
Proof.
  induction keys as [|k2 keys IH]; intros key s; cbn [foldl].
  - reflexivity.
  - rewrite IH. unfold clear_parameter at 1 2. cbn [parameters set_parameters].
    rewrite lookup_insert_eq. cbn [default from_option].
    by rewrite insert_insert_eq.
Qed.

Lemma foldl_clear_keeps {B} (f : ConvertEK80 → B) ch keys :
  (∀ v s, f (set_parameters v s) = f s) →
  ∀ s, f (foldl (λ s key, clear_parameter ch key s) s keys) = f s.
Proof.
  intros Hf. induction keys as [|k keys IH]; intros s; cbn [foldl]; [done|].
  rewrite IH. apply Hf.
Qed.

Lemma parameters_channel_initialised ch f s :
  parameters (channel_initialised ch f s)
  = <[ch := cleared (default ∅ (parameters s !! ch))]> (parameters s).
Proof.
  unfold channel_initialised, cleared.
  exact (parameters_cleared ch (tail parameter_keys) "frequency_start"
           (clear_samples complex_dict set_complex_dict ch
              (clear_samples angle_dict set_angle_dict ch
                 (clear_samples power_dict set_power_dict ch
                    (store_ping_data ch "frequency" f (new_ping_data ch s)))))).
Qed.

(** A channel as [load_ek80_raw] leaves it: empty sample lists and
    empty parameter lists under all nine keys. *)
Definition fresh_channel (ch : string) (s : ConvertEK80) : Prop :=
  power_dict s !! ch = Some [] ∧ angle_dict s !! ch = Some []
  ∧ complex_dict s !! ch = Some []
  ∧ ∃ tbl, parameters s !! ch = Some tbl
           ∧ ∀ key, key ∈ parameter_keys → tbl !! key = Some [].

Lemma channel_initialised_samples ch f s :
  power_dict (channel_initialised ch f s) = <[ch := []]> (power_dict s)
  ∧ angle_dict (channel_initialised ch f s) = <[ch := []]> (angle_dict s)
  ∧ complex_dict (channel_initialised ch f s) = <[ch := []]> (complex_dict s).
Proof.
  unfold channel_initialised.
  repeat split; rewrite foldl_clear_keeps by done; reflexivity.
Qed.

Lemma fresh_after_init ch f s : fresh_channel ch (channel_initialised ch f s).
Proof.
  unfold fresh_channel.
  destruct (channel_initialised_samples ch f s) as (-> & -> & ->).
  rewrite parameters_channel_initialised.
  rewrite !lookup_insert_eq. repeat split; try done.
  eexists. split; [done|]. apply cleared_lookup.
Qed.

Lemma fresh_preserved ch0 ch f s :
  fresh_channel ch0 s → fresh_channel ch0 (channel_initialised ch f s).
Proof.
  destruct (decide (ch0 = ch)) as [->|Hne]; [intros _; apply fresh_after_init|].
  unfold fresh_channel.
  destruct (channel_initialised_samples ch f s) as (-> & -> & ->).
  rewrite parameters_channel_initialised.
  by rewrite !lookup_insert_ne.
Qed.

Lemma keeps_init_channel {B} (f : ConvertEK80 → B) ch :
  (∀ v s, f (set_ping_data_dict v s) = f s) →
  (∀ v s, f (set_power_dict v s) = f s) →
  (∀ v s, f (set_angle_dict v s) = f s) →
  (∀ v s, f (set_complex_dict v s) = f s) →
  (∀ v s, f (set_parameters v s) = f s) →
  keeps f (init_channel ch).
Proof.
  intros H1 H2 H3 H4 H5 s. rewrite init_channel_eq.
  destruct (transducer_frequency _ _); cbn [fst]; [|apply H1].
  unfold channel_initialised. rewrite foldl_clear_keeps by done.
  unfold clear_samples, store_ping_data, new_ping_data.
  by rewrite H4, H3, H2, !H1.
Qed.

Lemma init_channels_return ids : ∀ s s',
  for_each ids init_channel s = (s', Return tt) →
  (∀ ch, fresh_channel ch s → fresh_channel ch s')
  ∧ (∀ ch, ch ∈ ids → fresh_channel ch s').
Proof.
  induction ids as [|c ids IH]; intros s s' Hrun; simpl in Hrun.
  - injection Hrun as <-. split; [done|]. intros ch Hin.
    by apply elem_of_nil in Hin.
  - apply bind_return in Hrun as (s1 & [] & Hc & Hrun).
    rewrite init_channel_eq in Hc.
    destruct (transducer_frequency _ _) as [f|]; [|done].
    injection Hc as <-.
    destruct (IH _ _ Hrun) as [Hkeep Hfresh]. split.
    + intros ch Hch. by apply Hkeep, fresh_preserved.
    + intros ch [->|Hin]%elem_of_cons; [|by apply Hfresh].
      apply Hkeep, fresh_after_init.
Qed.

Lemma init_channels_total ids : ∀ s,
  (∀ ch, ch ∈ ids →
     ∃ f, transducer_frequency (config_datagram s) ch = Return f) →
  ∃ s', for_each ids init_channel s = (s', Return tt).
Proof.
  induction ids as [|c ids IH]; intros s Hf; simpl.
  - by eexists.
  - destruct (Hf c) as [f Hc]; [by left|].
    assert (Hs : init_channel c s = (channel_initialised c f s, Return tt))
      by (by rewrite init_channel_eq, Hc).
    rewrite (bind_step _ _ _ _ _ Hs). apply IH.
    intros ch Hin.
    replace (config_datagram (channel_initialised c f s))
      with (config_datagram s).
    + apply Hf. by right.
    + symmetry. unfold channel_initialised.
      by rewrite foldl_clear_keeps.
Qed.

Lemma bind_modify {B} g (k : unit → M B) s :
  bind (modify g) k s = k tt (g s).
Proof. reflexivity. Qed.

Lemma read_configuration_eq first s :
  read_configuration first s
  = let s1 := set_config_datagram (Some (Dg.normalise first)) s in
    match Dg.subtype first with
    | None => (s1, Raise (KeyError "subtype"))
    | Some st =>
        match Dg.keys_at st first with
        | Raise e => (s1, Raise e)
        | Return ids => for_each ids init_channel (set_ch_ids ids s1)
        end
    end.
Proof.
  unfold read_configuration. rewrite bind_modify.
  cbn [Dg.subtype Dg.normalise Dg.set_timestamp].
  destruct (Dg.subtype first) as [st|]; simpl getitem; [|done].
  rewrite bind_lift_return.
  change (Dg.keys_at st (Dg.normalise first)) with (Dg.keys_at st first).
  destruct (Dg.keys_at st first) as [ids|e]; [|done].
  by rewrite bind_lift_return, bind_modify.
Qed.

Lemma keeps_init_channels {B} (f : ConvertEK80 → B) ids :
  (∀ v s, f (set_ping_data_dict v s) = f s) →
  (∀ v s, f (set_power_dict v s) = f s) →
  (∀ v s, f (set_angle_dict v s) = f s) →
  (∀ v s, f (set_complex_dict v s) = f s) →
  (∀ v s, f (set_parameters v s) = f s) →
  keeps f (for_each ids init_channel).
Proof.
  intros. apply keeps_for_each. intros ch. by apply keeps_init_channel.
Qed.

(** What a configuration that was read leaves behind. *)
Lemma read_configuration_return first s s' :
  read_configuration first s = (s', Return tt) →
  ∃ st, Dg.subtype first = Some st
        ∧ Dg.keys_at st first = Return (ch_ids s')
        ∧ config_datagram s' = Some (Dg.normalise first)
        ∧ (∀ ch, ch ∈ ch_ids s' → fresh_channel ch s')
        ∧ ping_time s' = ping_time s.
Proof.
  rewrite read_configuration_eq. cbv zeta.
  destruct (Dg.subtype first) as [st|]; [|done].
  destruct (Dg.keys_at st first) as [ids|e] eqn:Hkeys; [|done].
  intros Hrun. exists st. split; [done|]. rewrite Hkeys.
  pose proof (keeps_init_channels ch_ids ids
                (λ _ _, eq_refl) (λ _ _, eq_refl) (λ _ _, eq_refl)
                (λ _ _, eq_refl) (λ _ _, eq_refl)
                (set_ch_ids ids (set_config_datagram (Some (Dg.normalise first)) s)))
    as Hids.
  pose proof (keeps_init_channels config_datagram ids
                (λ _ _, eq_refl) (λ _ _, eq_refl) (λ _ _, eq_refl)
                (λ _ _, eq_refl) (λ _ _, eq_refl)
                (set_ch_ids ids (set_config_datagram (Some (Dg.normalise first)) s)))
    as Hcfg.
  pose proof (keeps_init_channels ping_time ids
                (λ _ _, eq_refl) (λ _ _, eq_refl) (λ _ _, eq_refl)
                (λ _ _, eq_refl) (λ _ _, eq_refl)
                (set_ch_ids ids (set_config_datagram (Some (Dg.normalise first)) s)))
    as Hpt.
  rewrite Hrun in Hids, Hcfg, Hpt. cbn [fst] in Hids, Hcfg, Hpt.
  rewrite Hids. split; [done|]. split; [done|]. split; [|done].
  intros ch Hin. by eapply init_channels_return.
Qed.

Lemma dict_get_keys {V} (d : pydict V) k :
  k ∈ dict_keys d → is_Some (dict_get d k).
Proof.
  unfold dict_keys. induction d as [|[k' v] d IH]; simpl.
  - intros Hin. by apply elem_of_nil in Hin.
  - intros Hin. destruct (decide (k' = k)); [by eexists|].
    apply IH. apply elem_of_cons in Hin as [->|]; done.
Qed.

(** A configuration datagram whose channel descriptors all have a
    transducer frequency is read without an exception. *)
Lemma read_configuration_total first c s :
  Dg.subtype first = Some "configuration" →
  Dg.configuration first = Some c →
  (∀ ch desc, dict_get c ch = Some desc →
     is_Some (dict_get desc "transducer_frequency")) →
  ∃ s', read_configuration first s = (s', Return tt)
        ∧ ch_ids s' = dict_keys c.
Proof.
  intros Hst Hc Hdesc. rewrite read_configuration_eq. cbv zeta.
  rewrite Hst. unfold Dg.keys_at. rewrite decide_True by done. rewrite Hc.
  destruct (init_channels_total (dict_keys c)
              (set_ch_ids (dict_keys c)
                 (set_config_datagram (Some (Dg.normalise first)) s)))
    as [s' Hs'].
  - intros ch Hin. cbn [config_datagram set_ch_ids set_config_datagram].
    unfold transducer_frequency.
    cbn [Dg.configuration Dg.normalise Dg.set_timestamp]. rewrite Hc.
    destruct (dict_get_keys c ch Hin) as [desc Hd].
    destruct (Hdesc ch desc Hd) as [f Hf].
    exists f. simpl. rewrite Hd. simpl. by rewrite Hf.
  - exists s'. split; [done|].
    pose proof (keeps_init_channels ch_ids (dict_keys c)
                  (λ _ _, eq_refl) (λ _ _, eq_refl) (λ _ _, eq_refl)
                  (λ _ _, eq_refl) (λ _ _, eq_refl)
                  (set_ch_ids (dict_keys c)
                     (set_config_datagram (Some (Dg.normalise first)) s)))
      as Hids.
    by rewrite Hs' in Hids.
Qed.

(** Every field but the ones of its handler survives a whole stream. *)
Lemma keeps_read_loop {B} (f : ConvertEK80 → B) fid :
  (∀ loc d, keeps f (read_datagram loc d)) →
  ∀ loc, keeps f (read_loop fid loc).
Proof.
  intros Hd. induction fid as [|d fid IH]; intros loc; simpl.
  - apply keeps_ret.
  - apply keeps_bind; [apply Hd|intros loc'; apply IH].
Qed.

Lemma keeps_run_datagrams {B} (f : ConvertEK80 → B) fid :
  (∀ loc d, keeps f (read_datagram loc d)) →
  ∀ loc, keeps f (run_datagrams fid loc).
Proof.
  intros Hd. induction fid as [|d fid IH]; intros loc; simpl.
  - apply keeps_ret.
  - apply keeps_bind; [apply Hd|intros loc'; apply IH].
Qed.

Lemma keeps_configuration_fields loc d :
  keeps config_datagram (read_datagram loc d)
  ∧ keeps ch_ids (read_datagram loc d).
Proof.
  split; apply keeps_read_datagram; intros; repeat split; intros; reflexivity.
Qed.

Lemma config_datagram_read_configuration first s :
  config_datagram (read_configuration first s).1 = Some (Dg.normalise first).
Proof.
  rewrite read_configuration_eq. cbv zeta.
  destruct (Dg.subtype first) as [st|]; [|done].
  destruct (Dg.keys_at st first) as [ids|e]; [|done].
  by rewrite keeps_init_channels.
Qed.

Lemma config_datagram_load_file first fid s :
  config_datagram (load_file (first :: fid) s).1 = Some (Dg.normalise first).
Proof.
  pose proof (config_datagram_read_configuration first s) as Hcfg.
  unfold load_file, bind.
  destruct (read_configuration first s) as [s1 [[]|e]]; [|done].
  unfold _read_datagrams. rewrite keeps_read_loop; [done|].
  intros loc d. apply keeps_configuration_fields.
Qed.

(** C4 (as the code has it).  [load_ek80_raw] takes the first datagram
    of the file as the configuration without looking at its type, and
    hands every datagram behind it to [_read_datagrams].  There is no
    format check: a first datagram without configuration content makes
    the load fail with [KeyError], at the first key that is missing,
    unless the content named by its subtype is an empty dict, in which
    case the load goes on with no channel at all. *)
Theorem first_datagram_is_configuration first fid s :
  Dg.configuration first = None →
  let s1 := set_config_datagram (Some (Dg.normalise first)) s in
  config_datagram (load_file (first :: fid) s).1 = Some (Dg.normalise first)
  ∧ match Dg.subtype first with
    | None => load_file (first :: fid) s = (s1, Raise (KeyError "subtype"))
    | Some st =>
        match Dg.keys_at st first with
        | Raise e => load_file (first :: fid) s = (s1, Raise e)
        | Return [] =>
            load_file (first :: fid) s = _read_datagrams fid (set_ch_ids [] s1)
        | Return (ch :: ids) =>
            load_file (first :: fid) s
            = (new_ping_data ch (set_ch_ids (ch :: ids) s1),
               Raise (KeyError "configuration"))
        end
    end.
Proof.
  intros Hnone s1. split.
  - apply config_datagram_load_file.
  - unfold load_file, bind. rewrite read_configuration_eq. fold s1. cbv zeta.
    destruct (Dg.subtype first) as [st|]; [|done].
    destruct (Dg.keys_at st first) as [[|ch ids]|e]; [done| |done].
    simpl for_each. unfold bind. rewrite init_channel_eq.
    unfold transducer_frequency. subst s1.
    cbn [config_datagram set_ch_ids set_config_datagram Dg.configuration
         Dg.normalise Dg.set_timestamp].
    by rewrite Hnone.
Qed.

(** A file that starts with sample data: the datagram is stored as the
    configuration and the load fails on its missing subtype. *)
Lemma first_datagram_is_configuration_witness :
  config_datagram (load_file [data_A; parameter_A] init).1 = Some data_A
  ∧ load_file [data_A; parameter_A] init
    = (set_config_datagram (Some data_A) init, Raise (KeyError "subtype")).
Proof.
  exact (first_datagram_is_configuration data_A [parameter_A] init eq_refl).
Defined.

(** C4 (as stated) fails: a file whose first datagram is an environment
    datagram with an empty environment dict is loaded without any
    exception; the environment datagram is kept as the configuration and
    the channel list is empty. *)
Lemma empty_environment_read_as_configuration :
  let first := xml_environment 0 [] in
  Dg.subtype first = Some "environment"
  ∧ Dg.configuration first = None
  ∧ load_file [first; tag_datagram 1000] init
    = (set_ch_ids [] (set_config_datagram (Some first) init), Return tt).
Proof. cbv zeta. repeat split. Qed.

(** ** The parameter table *)

(** What one parameter dict, read at time [ts], adds under [key]. *)
Definition parameter_values (key : string) (cp : Param.t) (ts : Z)
  : list pyval :=
  if decide (key = "frequency") then
    match Param.frequency_start cp, Param.frequency cp with
    | None, Some f => [PyInt f]
    | _, _ => []
    end
  else if decide (key = "frequency_start") then
    match Param.frequency_start cp with
    | Some fs => [PyInt fs]
    | None => []
    end
  else if decide (key = "frequency_end") then
    match Param.frequency_start cp, Param.frequency_end cp with
    | Some _, Some fe => [PyInt fe]
    | _, _ => []
    end
  else if decide (key = "pulse_duration") then [Param.pulse_duration cp]
  else if decide (key = "pulse_form") then [Param.pulse_form cp]
  else if decide (key = "sample_interval") then [Param.sample_interval cp]
  else if decide (key = "slope") then [Param.slope cp]
  else if decide (key = "transmit_power") then [Param.transmit_power cp]
  else if decide (key = "timestamp") then [PyTime ts]
  else [].



(** The list under [key] in the table of channel [ch], a missing table
    read as the empty one. *)
Definition sequence (s : ConvertEK80) (ch key : string)
  : option (list pyval) :=
  default ∅ (parameters s !! ch) !! key.

(** [s'] has the lists of [s], each extended by [vals]. *)
Definition extended (vals : string → string → list pyval)
    (s s' : ConvertEK80) : Prop :=
  ∀ ch key, sequence s' ch key = (λ l, l ++ vals ch key) <$> sequence s ch key.


Lemma extended_trans v1 v2 s1 s2 s3 :
  extended v1 s1 s2 → extended v2 s2 s3 →
  extended (λ ch key, v1 ch key ++ v2 ch key) s1 s3.
Proof.
  intros H1 H2 ch key. rewrite H2, H1.
  destruct (sequence s1 ch key); simpl; [|done]. by rewrite app_assoc.
Qed.

Lemma extended_ext v v' s s' :
  (∀ ch key, v ch key = v' ch key) → extended v s s' → extended v' s s'.
Proof. intros Hv H ch key. by rewrite H, Hv. Qed.

Lemma parameters_append_return ch key arg s s' :
  parameters_append ch key arg s = (s', Return tt) →
  ∃ v l, arg = Return v ∧ sequence s ch key = Some l
         ∧ s' = set_parameters
                  (<[ch := <[key := l ++ [v]]> (default ∅ (parameters s !! ch))]>
                     (parameters s)) s.
Proof.
  unfold parameters_append, sequence.
  destruct (default ∅ (parameters s !! ch) !! key) as [l|]; [|done].
  destruct arg as [v|]; [|done]. intros [= <-]. by exists v, l.
Qed.

Lemma parameters_append_extended ch key arg s s' :
  parameters_append ch key arg s = (s', Return tt) →
  ∃ v, arg = Return v
       ∧ extended (λ ch' key',
                     if decide (ch' = ch ∧ key' = key) then [v] else []) s s'.
Proof.
  intros (v & l & -> & Hl & ->)%parameters_append_return.
  exists v. split; [done|]. intros ch' key'. unfold sequence in *.
  cbn [parameters set_parameters].
  destruct (decide (ch' = ch)) as [->|Hch].
  - rewrite lookup_insert_eq. cbn [default from_option id].
    destruct (decide (key' = key)) as [->|Hkey].
    + rewrite lookup_insert_eq, Hl, decide_True by done. done.
    + rewrite lookup_insert_ne by done.
      rewrite decide_False by (intros [_ ?]; done).
      destruct (_ !! key'); simpl; [|done]. by rewrite app_nil_r.
  - rewrite lookup_insert_ne by done.
    rewrite decide_False by (intros [? _]; done).
    destruct (_ !! key'); simpl; [|done]. by rewrite app_nil_r.
Qed.

(** One value under one key of one channel. *)
Definition single (ch key : string) (v : pyval) : string → string → list pyval :=
  λ ch' key', if decide (ch' = ch ∧ key' = key) then [v] else [].

Lemma parameters_append_single ch key arg s s' :
  parameters_append ch key arg s = (s', Return tt) →
  ∃ v, arg = Return v ∧ extended (single ch key v) s s'.
Proof. apply parameters_append_extended. Qed.

Ltac append_steps H :=
  repeat
    (let s1 := fresh "s" in
     let Hs := fresh "Hs" in
     let v := fresh "v" in
     let Hv := fresh "Hv" in
     apply bind_return in H as (s1 & [] & Hs & H);
     apply parameters_append_single in Hs as (v & Hv & Hs)).

Ltac decide_key :=
  repeat (case_decide; simplify_eq; try done; try (exfalso; intuition congruence)).

(** The appends of a parameter datagram extend the lists of its channel
    by [parameter_values] and nothing else. *)
Lemma append_parameters_extended cp ts s s' :
  append_parameters cp ts s = (s', Return tt) →
  extended (λ ch key,
      if decide (Param.channel_id cp = ch)
      then parameter_values key cp ts else []) s s'.
Proof.
  unfold append_parameters. cbv zeta. intros H.
  apply bind_return in H as (sf & [] & Hfreq & H).
  destruct (Param.frequency_start cp) as [fs|] eqn:Hfs.
  - apply bind_return in Hfreq as (sa & [] & Hs & Hs0).
    apply parameters_append_single in Hs as (v & Hv & Hs).
    apply parameters_append_single in Hs0 as (v0 & Hv0 & Hs0).
    append_steps H.
    apply parameters_append_single in H as (v6 & Hv6 & H).
    simplify_eq.
    destruct (Param.frequency_end cp) as [fe|] eqn:Hfe; [|done].
    simpl in Hv0. simplify_eq.
    eapply extended_ext;
      [|exact (extended_trans _ _ _ _ _
                 (extended_trans _ _ _ _ _
                    (extended_trans _ _ _ _ _
                       (extended_trans _ _ _ _ _
                          (extended_trans _ _ _ _ _
                             (extended_trans _ _ _ _ _
                                (extended_trans _ _ _ _ _ Hs Hs0) Hs1) Hs2)
                          Hs3) Hs4) Hs5) H)].
    intros ch key. unfold single, parameter_values. rewrite Hfs, Hfe.
    destruct (decide (Param.channel_id cp = ch)) as [<-|Hne].
    + destruct (decide (key = "frequency")) as [->|]; [decide_key|].
      destruct (decide (key = "frequency_start")) as [->|]; [decide_key|].
      destruct (decide (key = "frequency_end")) as [->|]; [decide_key|].
      destruct (decide (key = "pulse_duration")) as [->|]; [decide_key|].
      destruct (decide (key = "pulse_form")) as [->|]; [decide_key|].
      destruct (decide (key = "sample_interval")) as [->|]; [decide_key|].
      destruct (decide (key = "slope")) as [->|]; [decide_key|].
      destruct (decide (key = "transmit_power")) as [->|]; [decide_key|].
      destruct (decide (key = "timestamp")) as [->|]; decide_key.
    + decide_key.
  - apply parameters_append_single in Hfreq as (v & Hv & Hs).
    append_steps H.
    apply parameters_append_single in H as (v5 & Hv5 & H).
    simplify_eq.
    destruct (Param.frequency cp) as [f|] eqn:Hf; [|done].
    simpl in Hv. simplify_eq.
    eapply extended_ext;
      [|exact (extended_trans _ _ _ _ _
                 (extended_trans _ _ _ _ _
                    (extended_trans _ _ _ _ _
                       (extended_trans _ _ _ _ _
                          (extended_trans _ _ _ _ _
                             (extended_trans _ _ _ _ _ Hs Hs0) Hs1) Hs2)
                          Hs3) Hs4) H)].
    intros ch key. unfold single, parameter_values. rewrite Hfs, Hf.
    destruct (decide (Param.channel_id cp = ch)) as [<-|Hne].
    + destruct (decide (key = "frequency")) as [->|]; [decide_key|].
      destruct (decide (key = "frequency_start")) as [->|]; [decide_key|].
      destruct (decide (key = "frequency_end")) as [->|]; [decide_key|].
      destruct (decide (key = "pulse_duration")) as [->|]; [decide_key|].
      destruct (decide (key = "pulse_form")) as [->|]; [decide_key|].
      destruct (decide (key = "sample_interval")) as [->|]; [decide_key|].
      destruct (decide (key = "slope")) as [->|]; [decide_key|].
      destruct (decide (key = "transmit_power")) as [->|]; [decide_key|].
      destruct (decide (key = "timestamp")) as [->|]; decide_key.
    + decide_key.
Qed.

(** The frequency keys the appends read are there. *)
Definition well_formed_parameter (cp : Param.t) : Prop :=
  match Param.frequency_start cp with
  | None => is_Some (Param.frequency cp)
  | Some _ => is_Some (Param.frequency_end cp)
  end.


Lemma as_parameter_handler d cp :
  as_parameter d = Some cp → handler d = Some ParameterTable.
Proof.
  unfold as_parameter, handler. destruct (is_xml d); [|done].
  destruct (Dg.subtype d) as [st|]; [|done].
  destruct (decide (st = "parameter")) as [->|]; [|done].
  by rewrite decide_False.
Qed.

Lemma handler_as_parameter d :
  handler d ≠ Some ParameterTable → as_parameter d = None.
Proof.
  intros Hh. destruct (as_parameter d) as [cp|] eqn:Hp; [|done].
  by apply as_parameter_handler in Hp.
Qed.

(** A parameter datagram runs the appends and binds
    [current_parameters]. *)
Lemma read_datagram_parameter loc d cp s :
  as_parameter d = Some cp →
  read_datagram loc d s
  = bind (append_parameters cp (datetime64_ms (Dg.timestamp d)))
      (λ _, ret (mkLocals (num_datagrams_parsed loc + 1)
                   (tmp_num_ch_per_ping_parsed loc) (tmp_datagram_dict loc)
                   (Some cp))) s.
Proof.
  unfold as_parameter, read_datagram, is_xml.
  cbn [Dg.type Dg.normalise Dg.set_timestamp].
  destruct (startswith (Dg.type d) "XML"); [|done].
  unfold read_xml. cbn [Dg.subtype Dg.parameter Dg.timestamp Dg.normalise
                        Dg.set_timestamp].
  destruct (Dg.subtype d) as [st|]; [|done].
  destruct (decide (st = "parameter")) as [->|]; [|done].
  intros ->. simpl getitem. rewrite !bind_lift_return.
  rewrite decide_False by done. by rewrite decide_True by done.
Qed.




(** A channel whose nine parameter lists exist. *)
Definition ready (ch : string) (s : ConvertEK80) : Prop :=
  ∀ key, key ∈ parameter_keys → is_Some (sequence s ch key).


Lemma ready_extended vals ch s s' :
  extended vals s s' → ready ch s → ready ch s'.
Proof.
  intros Hext Hr key Hin. rewrite Hext.
  destruct (Hr key Hin) as [l ->]. by eexists.
Qed.


Lemma fresh_ready ch s : fresh_channel ch s → ready ch s.
Proof.
  intros (_ & _ & _ & tbl & Htbl & Hkeys) key Hin.
  unfold sequence. rewrite Htbl. simpl. rewrite Hkeys by done. by eexists.
Qed.

Lemma parameters_append_total ch key v s :
  is_Some (sequence s ch key) →
  ∃ s', parameters_append ch key (Return v) s = (s', Return tt).
Proof.
  intros [l Hl]. unfold parameters_append, sequence in *. rewrite Hl.
  by eexists.
Qed.

Ltac append_total Hr :=
  match goal with
  | |- ∃ s', bind (parameters_append ?ch ?key (Return ?v)) ?k ?s = _ =>
      let s1 := fresh "s" in
      let H1 := fresh "H" in
      destruct (parameters_append_total ch key v s) as [s1 H1];
      [apply Hr; set_solver|];
      rewrite (bind_step _ _ _ _ _ H1);
      apply parameters_append_single in H1 as (? & _ & H1);
      apply (ready_extended _ ch) in H1; [|exact Hr];
      clear Hr; rename H1 into Hr
  end.

(** The appends return for a channel whose lists exist. *)
Lemma append_parameters_total cp ts s :
  ready (Param.channel_id cp) s →
  well_formed_parameter cp →
  ∃ s', append_parameters cp ts s = (s', Return tt).
Proof.
  unfold append_parameters, well_formed_parameter. cbv zeta.
  intros Hr Hwf.
  assert (∃ s1, match Param.frequency_start cp with
                | Some fs =>
                    parameters_append (Param.channel_id cp) "frequency_start"
                      (Return (PyInt fs));;;
                    parameters_append (Param.channel_id cp) "frequency_end"
                      (outcome_map PyInt
                         (getitem "frequency_end" (Param.frequency_end cp)))
                | None =>
                    parameters_append (Param.channel_id cp) "frequency"
                      (outcome_map PyInt
                         (getitem "frequency" (Param.frequency cp)))
                end s = (s1, Return tt)
                ∧ ready (Param.channel_id cp) s1) as (s1 & Hs1 & Hr1).
  { destruct (Param.frequency_start cp) as [fs|].
    - destruct Hwf as [fe ->]. simpl.
      destruct (parameters_append_total (Param.channel_id cp)
                  "frequency_start" (PyInt fs) s) as [sa Ha];
        [apply Hr; set_solver|].
      rewrite (bind_step _ _ _ _ _ Ha).
      apply parameters_append_single in Ha as (? & _ & Ha).
      apply (ready_extended _ (Param.channel_id cp)) in Ha; [|exact Hr].
      destruct (parameters_append_total (Param.channel_id cp)
                  "frequency_end" (PyInt fe) sa) as [sb Hb];
        [apply Ha; set_solver|].
      exists sb. split; [done|].
      apply parameters_append_single in Hb as (? & _ & Hb).
      by apply (ready_extended _ (Param.channel_id cp)) in Hb.
    - destruct Hwf as [f ->]. simpl.
      destruct (parameters_append_total (Param.channel_id cp)
                  "frequency" (PyInt f) s) as [sa Ha];
        [apply Hr; set_solver|].
      exists sa. split; [done|].
      apply parameters_append_single in Ha as (? & _ & Ha).
      by apply (ready_extended _ (Param.channel_id cp)) in Ha. }
  rewrite (bind_step _ _ _ _ _ Hs1). clear Hr Hs1.
  do 5 append_total Hr1.
  apply parameters_append_total. apply Hr1. set_solver.
Qed.


(** ** The converter after a configuration and a prefix of the stream *)



Lemma run_datagrams_ch_ids pre loc s s' o :
  run_datagrams pre loc s = (s', o) → ch_ids s' = ch_ids s.
Proof.
  intros Hrun.
  pose proof (keeps_run_datagrams ch_ids pre
                (λ loc d, proj2 (keeps_configuration_fields loc d)) loc s)
    as Hk.
  by rewrite Hrun in Hk.
Qed.






Definition parameter_C : Dg.t := xml_parameter 5000 (cw_parameter "C" 120000).


















(** ** The sample lists and the ping times *)

Lemma handler_ping_outputs d :
  handler d = Some PingOutputs → is_raw d = true.
Proof.
  unfold handler. destruct (is_xml d).
  - destruct (Dg.subtype d) as [st|]; [|done]. repeat case_decide; done.
  - destruct (is_raw d); [done|]. repeat case_match; done.
Qed.

(** A sample datagram that returns either changed nothing or committed
    its buffer. *)
Lemma read_raw_return loc d s s' loc' :
  read_raw loc d s = (s', Return loc') →
  s' = s ∨ save_ping (tmp_datagram_dict loc') s = (s', Return tt).
Proof.
  unfold read_raw. intros Hrun.
  apply bind_return in Hrun as (s1 & c & [= <- Hc] & Hrun).
  apply bind_return in Hrun as (s1 & cp & [= <- Hcp] & Hrun).
  destruct (decide (Param.channel_id cp ≠ c)); [done|].
  apply bind_return in Hrun as (s1 & ids & [= <- <-] & Hrun).
  apply bind_return in Hrun as (s1 & first & [= <- Hfirst] & Hrun).
  cbv zeta in Hrun.
  apply bind_return in Hrun as (s1 & at_n & [= <- Hat] & Hrun).
  apply bind_return in Hrun as (s1 & last & [= <- Hlast] & Hrun).
  destruct (bool_decide (c = last) && bool_decide (at_n = last)).
  - apply bind_return in Hrun as (s1 & [] & Hsave & [= <- <-]).
    right. exact Hsave.
  - injection Hrun as <- <-. by left.
Qed.


Lemma save_ping_ch_ids buf s :
  ch_ids (save_ping buf s).1 = ch_ids s.
Proof. by apply keeps_save_ping. Qed.







(** ** Well-formed streams *)

#[global] Instance well_formed_parameter_dec cp :
  Decision (well_formed_parameter cp).
Proof. unfold well_formed_parameter. destruct (Param.frequency_start cp); apply _. Defined.

(** The three sample keys of a sample datagram are there. *)
Definition has_samples (d : Dg.t) : Prop :=
  is_Some (Dg.power d) ∧ is_Some (Dg.angle d) ∧ is_Some (Dg.complex d).

#[global] Instance has_samples_dec d : Decision (has_samples d).
Proof. unfold has_samples. apply _. Defined.

(** A datagram that is neither sample data nor parameters, with the keys
    its branch reads. *)
Definition ancillary (d : Dg.t) : bool :=
  if is_xml d then
    match Dg.subtype d with
    | Some st =>
        if decide (st = "environment") then bool_decide (is_Some (Dg.environment d))
        else if decide (st = "parameter") then false
        else true
    | None => false
    end
  else if is_raw d then false
  else if is_nme d then bool_decide (is_Some (Dg.nmea_string d))
  else if is_mru d then
    bool_decide (is_Some (Dg.heading d) ∧ is_Some (Dg.pitch d)
                 ∧ is_Some (Dg.roll d) ∧ is_Some (Dg.heave d))
  else if is_fil d then
    bool_decide (is_Some (Dg.coefficients d) ∧ is_Some (Dg.decimation_factor d)
                 ∧ is_Some (Dg.channel_id d) ∧ is_Some (Dg.stage d))
  else true.

(** The place in the cycle after the datagram at place [i]. *)
Definition next_place (chs : list string) (i : nat) : nat :=
  if decide (S i = length chs) then 0%nat else S i.

(** A stream for the channels [chs], read from place [i] of the cycle on,
    [prev] being the channel of the parameter datagram just before:
    - every sample datagram is of the channel at the current place, has
      its sample keys, and comes right after a parameter datagram of the
      same channel;
    - every parameter datagram is of a configured channel and has the
      frequency keys the appends read;
    - the stream ends between two cycles. *)
Fixpoint well_formed (chs : list string) (i : nat) (prev : option string)
    (fid : list Dg.t) : bool :=
  match fid with
  | [] => bool_decide (i = 0%nat)
  | d :: rest =>
      if is_raw d then
        bool_decide (is_Some (chs !! i) ∧ Dg.channel_id d = chs !! i
                     ∧ prev = chs !! i ∧ has_samples d)
        && well_formed chs (next_place chs i) None rest
      else
        match as_parameter d with
        | Some cp =>
            bool_decide (Param.channel_id cp ∈ chs ∧ well_formed_parameter cp)
            && well_formed chs i (Some (Param.channel_id cp)) rest
        | None => ancillary d && well_formed chs i None rest
        end
  end.

(** The number of sample datagrams of a stream. *)
Definition raw_count (fid : list Dg.t) : nat :=
  length (List.filter is_raw fid).

(** The sample datagrams of a stream, as the loop sees them. *)
Definition data_records (fid : list Dg.t) : list Dg.t :=
  Dg.normalise <$> List.filter is_raw fid.

Definition data_channel (ch : string) (d : Dg.t) : bool :=
  bool_decide (Dg.channel_id d = Some ch).

(** The samples of channel [ch] among sample datagrams, in their order. *)
Definition samples_of (field : Dg.t → option pyval) (ch : string)
    (ds : list Dg.t) : list pyval :=
  omap field (List.filter (data_channel ch) ds).

(** The time stamps of the sample datagrams of channel [ch]. *)
Definition times_of (ch : string) (ds : list Dg.t) : list Z :=
  Dg.timestamp <$> List.filter (data_channel ch) ds.

(** An ancillary datagram returns. *)
Lemma ancillary_returns loc d s :
  ancillary d = true →
  ∃ s', read_datagram loc d s = (s', Return (count_datagram loc)).
Proof.
  unfold ancillary, read_datagram, is_xml, is_raw, is_nme, is_mru, is_fil.
  cbn [Dg.type Dg.normalise Dg.set_timestamp].
  destruct (startswith (Dg.type d) "XML").
  { unfold read_xml. cbn [Dg.subtype Dg.environment Dg.normalise Dg.set_timestamp].
    destruct (Dg.subtype d) as [st|]; [|done]. simpl getitem.
    rewrite bind_lift_return.
    destruct (decide (st = "environment")).
    - intros [env ->]%bool_decide_eq_true. by eexists.
    - destruct (decide (st = "parameter")); [done|]. by eexists. }
  destruct (startswith (Dg.type d) "RAW"); [done|].
  destruct (startswith (Dg.type d) "NME").
  { cbn [Dg.nmea_string Dg.normalise Dg.set_timestamp].
    intros [x ->]%bool_decide_eq_true. by eexists. }
  destruct (startswith (Dg.type d) "MRU").
  { cbn [Dg.heading Dg.pitch Dg.roll Dg.heave Dg.normalise Dg.set_timestamp].
    intros ([? ->] & [? ->] & [? ->] & [? ->])%bool_decide_eq_true.
    by eexists. }
  destruct (startswith (Dg.type d) "FIL"); [|by eexists].
  unfold fil_store.
  cbn [Dg.coefficients Dg.decimation_factor Dg.channel_id Dg.stage
       Dg.normalise Dg.set_timestamp].
  intros ([? ->] & [? ->] & [? ->] & [? ->])%bool_decide_eq_true.
  by eexists.
Qed.

Lemma ancillary_handler d :
  ancillary d = true →
  handler d ≠ Some PingOutputs ∧ handler d ≠ Some ParameterTable.
Proof.
  unfold ancillary, handler. destruct (is_xml d).
  - destruct (Dg.subtype d) as [st|]; [|done]. repeat case_decide; done.
  - destruct (is_raw d); [done|]. repeat case_match; done.
Qed.

Lemma bind_self {A B} (g : ConvertEK80 → A) (k : A → M B) s :
  bind (self g) k s = k (g s) s.
Proof. reflexivity. Qed.

(** A sample datagram whose channel is at place [i] of the cycle, read
    when the counter stands for the [i] datagrams buffered before it. *)
Lemma read_raw_eval loc d s c cp (i : nat) :
  Dg.channel_id d = Some c →
  current_parameters loc = Some cp →
  Param.channel_id cp = c →
  NoDup (ch_ids s) →
  ch_ids s !! i = Some c →
  (i ≠ 0%nat → tmp_num_ch_per_ping_parsed loc = Z.of_nat i - 1) →
  let buf := (if decide (i = 0%nat) then [] else tmp_datagram_dict loc) ++ [d] in
  let loc' := mkLocals (num_datagrams_parsed loc) (Z.of_nat i) buf
                (current_parameters loc) in
  read_raw loc d s
  = if decide (S i = length (ch_ids s))
    then bind (save_ping buf) (λ _, ret loc') s
    else (s, Return loc').
Proof.
  intros Hc Hcp Hch Hnd Hi Htmp. cbv zeta.
  unfold read_raw. rewrite Hc, Hcp. simpl getitem.
  rewrite !bind_lift_return.
  rewrite decide_False by (intros Hne; by apply Hne).
  rewrite bind_self.
  destruct (ch_ids s) as [|first chs] eqn:Hids;
    [exfalso; by destruct i|].
  change (py_index (first :: chs) 0) with (Return (A:=string) first).
  rewrite bind_lift_return. cbv zeta.
  assert (Hreset : bool_decide (c = first) = bool_decide (i = 0%nat)).
  { apply bool_decide_ext. split.
    - intros Heq. rewrite Heq in Hi. by apply (NoDup_lookup _ _ _ _ Hnd Hi).
    - intros ->. simpl in Hi. congruence. }
  rewrite Hreset. clear Hreset.
  assert (Hn : (if bool_decide (i = 0%nat) then -1
                else tmp_num_ch_per_ping_parsed loc) + 1 = Z.of_nat i).
  { destruct (decide (i = 0%nat)) as [->|H0].
    - by rewrite bool_decide_eq_true_2.
    - rewrite bool_decide_eq_false_2 by done. rewrite Htmp by done. lia. }
  rewrite Hn. rewrite py_index_nat, Hi. rewrite bind_lift_return.
  rewrite py_index_last.
  assert (is_Some (last (first :: chs))) as [lastc Hlast]
    by (by apply last_is_Some).
  rewrite Hlast.
  rewrite bind_lift_return.
  assert (Hcommit : bool_decide (c = lastc) && bool_decide (c = lastc)
                    = bool_decide (S i = length (first :: chs))).
  { rewrite andb_diag. apply bool_decide_ext.
    rewrite last_lookup in Hlast. split.
    - intros Heq. rewrite Heq in Hi.
      pose proof (NoDup_lookup _ _ _ _ Hnd Hi Hlast) as ->. simpl. lia.
    - intros Hlen. replace (Nat.pred (length (first :: chs))) with i in Hlast
        by (simpl in *; lia). congruence. }
  rewrite Hcommit. clear Hcommit.
  destruct (decide (S i = length (first :: chs))) as [Hlen|Hlen].
  - rewrite bool_decide_eq_true_2 by done.
    destruct (decide (i = 0%nat)) as [->|H0].
    + by rewrite bool_decide_eq_true_2.
    + by rewrite bool_decide_eq_false_2.
  - rewrite bool_decide_eq_false_2 by done.
    destruct (decide (i = 0%nat)) as [->|H0].
    + by rewrite bool_decide_eq_true_2.
    + by rewrite bool_decide_eq_false_2.
Qed.

(** ** One cycle of sample datagrams *)

(** A buffered sample datagram of channel [ch]. *)
Definition buffered_for (d : Dg.t) (ch : string) : Prop :=
  Dg.channel_id d = Some ch ∧ has_samples d.

Lemma filter_other_channels buf chs ch :
  Forall2 buffered_for buf chs → ch ∉ chs →
  List.filter (data_channel ch) buf = [].
Proof.
  induction 1 as [|b c buf chs [Hb _] _ IH]; intros Hni; [done|].
  simpl. unfold data_channel at 1. rewrite Hb.
  rewrite bool_decide_eq_false_2 by (intros [= ->]; apply Hni; by left).
  apply IH. intros Hin. apply Hni. by right.
Qed.

(** Among the datagrams of one cycle, channel [ch] has the one at its
    own place. *)
Lemma filter_cycle buf chs :
  Forall2 buffered_for buf chs → NoDup chs →
  ∀ (j : nat) ch b, chs !! j = Some ch → buf !! j = Some b →
    List.filter (data_channel ch) buf = [b].
Proof.
  induction 1 as [|b0 c0 buf chs [Hb0 _] Hrest IH]; intros Hnd j ch b Hch Hb;
    [done|].
  apply NoDup_cons in Hnd as [Hc0 Hnd]. simpl. unfold data_channel at 1.
  rewrite Hb0. destruct j as [|j]; simpl in Hch, Hb.
  - simplify_eq. rewrite bool_decide_eq_true_2 by done.
    by rewrite (filter_other_channels _ _ _ Hrest Hc0).
  - rewrite bool_decide_eq_false_2.
    + by eapply IH.
    + intros [= ->]. apply Hc0. by eapply list_elem_of_lookup_2.
Qed.

Lemma samples_of_app field ch l1 l2 :
  samples_of field ch (l1 ++ l2)
  = samples_of field ch l1 ++ samples_of field ch l2.
Proof. unfold samples_of. by rewrite List.filter_app, omap_app. Qed.

Lemma times_of_app ch l1 l2 :
  times_of ch (l1 ++ l2) = times_of ch l1 ++ times_of ch l2.
Proof. unfold times_of. by rewrite List.filter_app, fmap_app. Qed.

(** What the loop relies on between two datagrams of a well-formed
    stream: [i] datagrams of the running cycle are buffered in [pend],
    the counter stands at [i - 1], the lists of all channels exist, and
    [current_parameters] is the parameter dict of channel [prev]. *)
Record cycle_state (chs : list string) (i : nat) (prev : option string)
    (pend : list Dg.t) (s : ConvertEK80) (loc : locals) : Prop := {
  cs_ids : ch_ids s = chs;
  cs_samples : ∀ ch, ch ∈ chs →
    is_Some (power_dict s !! ch) ∧ is_Some (angle_dict s !! ch)
    ∧ is_Some (complex_dict s !! ch);
  cs_ready : ∀ ch, ch ∈ chs → ready ch s;
  cs_prev : ∀ c, prev = Some c →
    ∃ cp, current_parameters loc = Some cp ∧ Param.channel_id cp = c;
  cs_pend : i ≠ 0%nat →
    tmp_num_ch_per_ping_parsed loc = Z.of_nat i - 1
    ∧ tmp_datagram_dict loc = pend;
  cs_channels : Forall2 buffered_for pend (take i chs)
}.

Lemma cycle_state_parameter chs i prev pend s loc d cp :
  cycle_state chs i prev pend s loc →
  as_parameter d = Some cp →
  Param.channel_id cp ∈ chs →
  well_formed_parameter cp →
  ∃ s' loc',
    read_datagram loc d s = (s', Return loc')
    ∧ cycle_state chs i (Some (Param.channel_id cp)) pend s' loc'
    ∧ unchanged PingOutputs s s'.
Proof.
  intros [Hids Hsamples Hready Hprev Hpend Hchs] Hp Hin Hwf.
  destruct (append_parameters_total cp (datetime64_ms (Dg.timestamp d)) s
              (Hready _ Hin) Hwf) as [s' Hs'].
  assert (Hrun : read_datagram loc d s
                 = (s', Return (mkLocals (num_datagrams_parsed loc + 1)
                                  (tmp_num_ch_per_ping_parsed loc)
                                  (tmp_datagram_dict loc) (Some cp)))).
  { rewrite (read_datagram_parameter _ _ _ _ Hp).
    by rewrite (bind_step _ _ _ _ _ Hs'). }
  pose proof (read_datagram_frame loc d PingOutputs s) as Hf.
  rewrite Hrun in Hf. simpl in Hf.
  destruct Hf as (Ht & Hpw & Han & Hcx);
    [by rewrite (as_parameter_handler _ _ Hp)|].
  pose proof (proj2 (keeps_configuration_fields loc d) s) as Hk.
  rewrite Hrun in Hk. simpl in Hk.
  exists s'. eexists. split; [exact Hrun|]. split; [|done].
  split; simpl.
  - by rewrite Hk.
  - intros ch Hch. rewrite Hpw, Han, Hcx. by apply Hsamples.
  - intros ch Hch. apply append_parameters_extended in Hs'.
    eapply ready_extended; [exact Hs'|]. by apply Hready.
  - intros c [= <-]. by exists cp.
  - exact Hpend.
  - exact Hchs.
Qed.

Lemma cycle_state_ancillary chs i prev pend s loc d :
  cycle_state chs i prev pend s loc →
  ancillary d = true →
  ∃ s' loc',
    read_datagram loc d s = (s', Return loc')
    ∧ cycle_state chs i None pend s' loc'
    ∧ unchanged PingOutputs s s'.
Proof.
  intros [Hids Hsamples Hready Hprev Hpend Hchs] Hanc.
  destruct (ancillary_returns loc d s Hanc) as [s' Hrun].
  destruct (ancillary_handler d Hanc) as [Hh1 Hh2].
  pose proof (read_datagram_frame loc d PingOutputs s Hh1) as Hf.
  pose proof (read_datagram_frame loc d ParameterTable s Hh2) as Hpar.
  pose proof (proj2 (keeps_configuration_fields loc d) s) as Hk.
  rewrite Hrun in Hf, Hpar, Hk. simpl in Hf, Hpar, Hk.
  destruct Hf as (Ht & Hpw & Han & Hcx).
  exists s'. eexists. split; [exact Hrun|]. split; [|done].
  split; simpl.
  - by rewrite Hk.
  - intros ch Hch. rewrite Hpw, Han, Hcx. by apply Hsamples.
  - intros ch Hch key Hkey. unfold sequence. rewrite Hpar.
    by apply Hready.
  - done.
  - exact Hpend.
  - exact Hchs.
Qed.

Lemma py_index_nat_return {A} (l : list A) (j : nat) x :
  py_index l (Z.of_nat j) = Return x → l !! j = Some x.
Proof. rewrite py_index_nat. destruct (l !! j); [by intros [= ->]|done]. Qed.

(** A sample datagram at place [i] of the cycle: it completes the cycle
    and is committed with the buffered ones, or it is buffered. *)
Lemma cycle_state_data chs i c pend s loc d :
  NoDup chs →
  cycle_state chs i (Some c) pend s loc →
  is_raw d = true →
  Dg.channel_id d = Some c →
  chs !! i = Some c →
  has_samples d →
  if decide (S i = length chs) then
    ∃ s' loc',
      read_datagram loc d s = (s', Return loc')
      ∧ cycle_state chs 0 None [] s' loc'
      ∧ ping_time s'
        = ping_time s
          ++ from_option (λ ch0, times_of ch0 (pend ++ [Dg.normalise d])) []
               (head chs)
      ∧ ∀ ch, ch ∈ chs →
          power_dict s' !! ch
          = (λ l, l ++ samples_of Dg.power ch (pend ++ [Dg.normalise d]))
            <$> power_dict s !! ch
          ∧ angle_dict s' !! ch
            = (λ l, l ++ samples_of Dg.angle ch (pend ++ [Dg.normalise d]))
              <$> angle_dict s !! ch
          ∧ complex_dict s' !! ch
            = (λ l, l ++ samples_of Dg.complex ch (pend ++ [Dg.normalise d]))
              <$> complex_dict s !! ch
  else
    ∃ loc',
      read_datagram loc d s = (s, Return loc')
      ∧ cycle_state chs (S i) None (pend ++ [Dg.normalise d]) s loc'.
Proof.
  intros Hnd [Hids Hsamples Hready Hprev Hpend Hchs] Hraw Hc Hi Hs.
  destruct (Hprev c eq_refl) as (cp & Hcp & Hcpc).
  assert (Hbuf : (if decide (i = 0%nat) then []
                  else tmp_datagram_dict (count_datagram loc))
                 = pend).
  { destruct (decide (i = 0%nat)) as [->|H0].
    - by apply Forall2_nil_inv_r in Hchs.
    - by destruct (Hpend H0) as [_ <-]. }
  assert (Hall : Forall2 buffered_for (pend ++ [Dg.normalise d]) (take (S i) chs)).
  { rewrite (take_S_r _ _ _ Hi). apply Forall2_app; [done|].
    constructor; [split; [exact Hc|exact Hs]|constructor]. }
  pose proof (read_raw_eval (count_datagram loc) (Dg.normalise d) s c cp i)
    as Heval.
  rewrite Hids in Heval. cbv zeta in Heval. rewrite Hbuf in Heval.
  rewrite read_datagram_raw by done.
  rewrite Heval; try done;
    [|intros H0; simpl; by destruct (Hpend H0) as [-> _]].
  clear Heval.
  destruct (decide (S i = length chs)) as [Hlen|Hlen].
  - rewrite firstn_all2 in Hall by lia.
    destruct (save_ping_total (pend ++ [Dg.normalise d]) s) as [s' Hsave].
    { rewrite Hids. intros j ch Hj.
      destruct (Forall2_lookup_r _ _ _ _ _ Hall Hj) as (b & Hb & _ & Hbs).
      split; [by exists b|]. apply Hsamples. by eapply list_elem_of_lookup_2. }
    { by destruct pend. }
    rewrite (bind_step _ _ _ _ _ Hsave).
    destruct (save_ping_return _ _ _ Hsave) as (first & Hfirst & Htime & Hent);
      [by rewrite Hids|].
    rewrite Hids in Hent.
    pose proof (save_ping_ch_ids (pend ++ [Dg.normalise d]) s) as Hk.
    pose proof (keeps_save_ping parameters (pend ++ [Dg.normalise d])
                  (λ _ _, eq_refl) (λ _ _, eq_refl) (λ _ _, eq_refl)
                  (λ _ _, eq_refl) s) as Hpar.
    rewrite Hsave in Hk, Hpar. simpl in Hk, Hpar.
    assert (Hsam : ∀ ch, ch ∈ chs →
              power_dict s' !! ch
              = (λ l, l ++ samples_of Dg.power ch (pend ++ [Dg.normalise d]))
                <$> power_dict s !! ch
              ∧ angle_dict s' !! ch
                = (λ l, l ++ samples_of Dg.angle ch (pend ++ [Dg.normalise d]))
                  <$> angle_dict s !! ch
              ∧ complex_dict s' !! ch
                = (λ l, l ++ samples_of Dg.complex ch (pend ++ [Dg.normalise d]))
                  <$> complex_dict s !! ch).
    { intros ch [j Hj]%list_elem_of_lookup.
      destruct (Hent ch) as [_ Hentry].
      destruct (Hentry j Hj)
        as (b & pw & an & cx & lp & la & lc & Hb%py_index_nat_return
            & Hpw & Han & Hcx & -> & -> & -> & -> & -> & ->).
      unfold samples_of.
      rewrite (filter_cycle _ _ Hall Hnd j ch b Hj Hb). simpl.
      by rewrite Hpw, Han, Hcx. }
    exists s'. eexists. split; [reflexivity|]. split; [|split; [|exact Hsam]].
    + split; simpl.
      * by rewrite Hk.
      * intros ch Hch. destruct (Hsam ch Hch) as (-> & -> & ->).
        destruct (Hsamples ch Hch) as ([? ->] & [? ->] & [? ->]).
        by repeat split; eexists.
      * intros ch Hch key Hkey. unfold sequence. rewrite Hpar.
        by apply Hready.
      * done.
      * done.
      * constructor.
    + rewrite Htime. f_equal.
      destruct chs as [|ch0 chs]; [done|]. simpl.
      assert (Hb0 : (pend ++ [Dg.normalise d]) !! 0%nat = Some first)
        by (by apply (py_index_nat_return _ 0%nat)).
      unfold times_of.
      by rewrite (filter_cycle _ _ Hall Hnd 0%nat ch0 first eq_refl Hb0).
  - eexists. split; [reflexivity|].
    split; simpl.
    + exact Hids.
    + exact Hsamples.
    + exact Hready.
    + done.
    + intros _. split; [lia|done].
    + exact Hall.
Qed.

(** ** Whole well-formed streams *)

Lemma raw_count_cons d fid :
  raw_count (d :: fid) = ((if is_raw d then 1 else 0) + raw_count fid)%nat.
Proof. unfold raw_count. simpl. by destruct (is_raw d). Qed.

Lemma data_records_cons d fid :
  data_records (d :: fid)
  = (if is_raw d then [Dg.normalise d] else []) ++ data_records fid.
Proof. unfold data_records. simpl. by destruct (is_raw d). Qed.

(** The sample lists and ping times [s'] has beyond those of [s]. *)
Definition outputs_extended (chs : list string) (ds : list Dg.t)
    (s s' : ConvertEK80) : Prop :=
  ping_time s'
  = ping_time s ++ from_option (λ ch0, times_of ch0 ds) [] (head chs)
  ∧ ∀ ch, ch ∈ chs →
      power_dict s' !! ch
      = (λ l, l ++ samples_of Dg.power ch ds) <$> power_dict s !! ch
      ∧ angle_dict s' !! ch
        = (λ l, l ++ samples_of Dg.angle ch ds) <$> angle_dict s !! ch
      ∧ complex_dict s' !! ch
        = (λ l, l ++ samples_of Dg.complex ch ds) <$> complex_dict s !! ch.

Lemma outputs_extended_unchanged chs ds s1 s2 s3 :
  unchanged PingOutputs s1 s2 →
  outputs_extended chs ds s2 s3 → outputs_extended chs ds s1 s3.
Proof.
  intros (Ht & Hp & Ha & Hc) [Htime Hsam]. split.
  - by rewrite <- Ht.
  - intros ch Hch. rewrite <- Hp, <- Ha, <- Hc. by apply Hsam.
Qed.

Lemma outputs_extended_trans chs ds1 ds2 s1 s2 s3 :
  outputs_extended chs ds1 s1 s2 →
  outputs_extended chs ds2 s2 s3 →
  outputs_extended chs (ds1 ++ ds2) s1 s3.
Proof.
  intros [Ht1 Hs1] [Ht2 Hs2]. split.
  - rewrite Ht2, Ht1, <- app_assoc. f_equal.
    destruct (head chs); simpl; [|done]. by rewrite times_of_app.
  - intros ch Hch.
    destruct (Hs1 ch Hch) as (Hp1 & Ha1 & Hc1).
    destruct (Hs2 ch Hch) as (-> & -> & ->).
    rewrite Hp1, Ha1, Hc1, !samples_of_app.
    destruct (power_dict s1 !! ch), (angle_dict s1 !! ch),
      (complex_dict s1 !! ch); simpl; by rewrite ?app_assoc.
Qed.

(** A well-formed stream is read to its end without an exception; the
    number of ping times grows by the number of complete cycles, and the
    lists grow by the samples of the stream, the ones still buffered at
    the start included. *)
Lemma well_formed_run chs :
  NoDup chs →
  ∀ fid i prev pend s loc,
    well_formed chs i prev fid = true →
    cycle_state chs i prev pend s loc →
    ∃ s' loc',
      run_datagrams fid loc s = (s', Return loc')
      ∧ length (ping_time s')
        = (length (ping_time s) + (i + raw_count fid) / length chs)%nat
      ∧ outputs_extended chs (pend ++ data_records fid) s s'.
Proof.
  intros Hnd. induction fid as [|d fid IH]; intros i prev pend s loc Hwf Hst.
  - simpl in Hwf. apply bool_decide_eq_true in Hwf as ->.
    exists s, loc. split; [done|].
    pose proof (cs_channels _ _ _ _ _ _ Hst) as Hp.
    apply Forall2_nil_inv_r in Hp as ->. split.
    + unfold raw_count. simpl. rewrite Nat.Div0.div_0_l. lia.
    + split.
      * simpl. destruct (head chs); simpl; by rewrite app_nil_r.
      * intros ch Hch. unfold samples_of. simpl.
        destruct (power_dict s !! ch), (angle_dict s !! ch),
          (complex_dict s !! ch); simpl; by rewrite ?app_nil_r.
  - simpl in Hwf. rewrite raw_count_cons, data_records_cons.
    destruct (is_raw d) eqn:Hraw.
    + apply andb_true_iff in Hwf as [Hd Hwf].
      apply bool_decide_eq_true in Hd as ([c Hi] & Hc & Hprev & Hs).
      rewrite Hi in Hc, Hprev. subst prev.
      pose proof (cycle_state_data chs i c pend s loc d Hnd Hst Hraw Hc Hi Hs)
        as Hstep.
      unfold next_place in Hwf.
      destruct (decide (S i = length chs)) as [Hlen|Hlen].
      * destruct Hstep as (s1 & loc1 & Hrun & Hst1 & Htime & Hsam).
        destruct (IH _ _ _ _ _ Hwf Hst1) as (s' & loc' & Hrest & Hcount & Hout).
        exists s', loc'. split; [|split].
        -- simpl. by rewrite (bind_step _ _ _ _ _ Hrun).
        -- rewrite Hcount, Htime, length_app.
           replace (i + (1 + raw_count fid))%nat
             with (1 * length chs + raw_count fid)%nat by lia.
           rewrite Nat.div_add_l by lia.
           destruct chs as [|ch0 chs]; [done|]. simpl head. simpl from_option.
           assert (Hb : ∃ b, (pend ++ [Dg.normalise d]) !! 0%nat = Some b)
             by (destruct pend; by eexists).
           destruct Hb as [b Hb].
           pose proof (cs_channels _ _ _ _ _ _ Hst) as Hp.
           assert (Hall : Forall2 buffered_for (pend ++ [Dg.normalise d])
                            (ch0 :: chs)).
           { rewrite <- (firstn_all2 (ch0 :: chs) (n := S i)) by lia.
             rewrite (take_S_r _ _ _ Hi). apply Forall2_app; [done|].
             constructor; [split; [exact Hc|exact Hs]|constructor]. }
           unfold times_of.
           rewrite (filter_cycle _ _ Hall Hnd 0%nat ch0 b eq_refl Hb).
           simpl. lia.
        -- rewrite app_assoc.
           eapply outputs_extended_trans; [|exact Hout].
           split; [exact Htime|exact Hsam].
      * destruct Hstep as (loc1 & Hrun & Hst1).
        destruct (IH _ _ _ _ _ Hwf Hst1) as (s' & loc' & Hrest & Hcount & Hout).
        exists s', loc'. split; [|split].
        -- simpl. by rewrite (bind_step _ _ _ _ _ Hrun).
        -- rewrite Hcount. f_equal. f_equal. lia.
        -- by rewrite app_assoc.
    + simpl app. rewrite Nat.add_0_l.
      destruct (as_parameter d) as [cp|] eqn:Hp.
      * apply andb_true_iff in Hwf as [Hd Hwf].
        apply bool_decide_eq_true in Hd as [Hin Hwfp].
        destruct (cycle_state_parameter _ _ _ _ _ _ _ _ Hst Hp Hin Hwfp)
          as (s1 & loc1 & Hrun & Hst1 & Hun).
        destruct (IH _ _ _ _ _ Hwf Hst1) as (s' & loc' & Hrest & Hcount & Hout).
        exists s', loc'. split; [|split].
        -- simpl. by rewrite (bind_step _ _ _ _ _ Hrun).
        -- rewrite Hcount. by destruct Hun as (-> & _).
        -- by eapply outputs_extended_unchanged.
      * apply andb_true_iff in Hwf as [Hanc Hwf].
        destruct (cycle_state_ancillary _ _ _ _ _ _ _ Hst Hanc)
          as (s1 & loc1 & Hrun & Hst1 & Hun).
        destruct (IH _ _ _ _ _ Hwf Hst1) as (s' & loc' & Hrest & Hcount & Hout).
        exists s', loc'. split; [|split].
        -- simpl. by rewrite (bind_step _ _ _ _ _ Hrun).
        -- rewrite Hcount. by destruct Hun as (-> & _).
        -- by eapply outputs_extended_unchanged.
Qed.

Lemma bind_step_eq {A B} (m : M A) (k : A → M B) s s1 a r :
  m s = (s1, Return a) → k a s1 = r → bind m k s = r.
Proof. intros Hm <-. by apply bind_step. Qed.

Lemma cycle_state_start first s_init s0 :
  read_configuration first s_init = (s0, Return tt) →
  cycle_state (ch_ids s0) 0 None [] s0 initial_locals.
Proof.
  intros Hcfg.
  destruct (read_configuration_return _ _ _ Hcfg) as (_ & _ & _ & _ & Hfresh & _).
  split; [done| | |done|done|constructor].
  - intros ch Hch. destruct (Hfresh ch Hch) as (-> & -> & -> & _).
    by repeat split; eexists.
  - intros ch Hch. by apply fresh_ready, Hfresh.
Qed.

(** C3.  A file that starts with a proper configuration of [K] channels
    and goes on with a well-formed stream of [N] sample datagrams (whole
    cycles, every sample datagram right behind the parameter datagram of
    its channel, other datagrams in between allowed) is loaded without
    an exception and adds [N / K] ping times; the ping times are the time
    stamps of the first channel's datagrams, and every channel gets its
    own samples in arrival order. *)
Theorem complete_cycles_commit first c s_init fid :
  Dg.subtype first = Some "configuration" →
  Dg.configuration first = Some c →
  (∀ ch desc, dict_get c ch = Some desc →
     is_Some (dict_get desc "transducer_frequency")) →
  NoDup (dict_keys c) →
  well_formed (dict_keys c) 0 None fid = true →
  ∃ s,
    load_ek80_raw [first :: fid] s_init = (s, Return tt)
    ∧ length (ping_time s)
      = (length (ping_time s_init)
         + raw_count fid / length (dict_keys c))%nat
    ∧ ping_time s
      = ping_time s_init
        ++ from_option (λ ch0, times_of ch0 (data_records fid)) []
             (head (dict_keys c))
    ∧ ∀ ch, ch ∈ dict_keys c →
        power_dict s !! ch = Some (samples_of Dg.power ch (data_records fid))
        ∧ angle_dict s !! ch = Some (samples_of Dg.angle ch (data_records fid))
        ∧ complex_dict s !! ch
          = Some (samples_of Dg.complex ch (data_records fid)).
Proof.
  intros Hst Hc Hdesc Hnd Hwf.
  destruct (read_configuration_total first c s_init Hst Hc Hdesc)
    as (s0 & Hcfg & Hids).
  pose proof (cycle_state_start _ _ _ Hcfg) as Hstart. rewrite Hids in Hstart.
  destruct (well_formed_run _ Hnd fid 0%nat None [] s0 initial_locals Hwf Hstart)
    as (s & loc & Hrun & Hcount & Htime & Hsam).
  destruct (read_configuration_return _ _ _ Hcfg)
    as (_ & _ & _ & _ & Hfresh & Hpt).
  exists s. split; [|split; [|split]].
  - unfold load_ek80_raw, load_file, _read_datagrams. simpl.
    rewrite (bind_step _ _ _ _ _
               (bind_step_eq _ _ _ _ _ _ Hcfg (read_loop_return _ _ _ _ _ Hrun))).
    reflexivity.
  - by rewrite Hcount, Hpt.
  - by rewrite Htime, Hpt.
  - intros ch Hch. destruct (Hsam ch Hch) as (-> & -> & ->).
    rewrite <- Hids in Hch.
    destruct (Hfresh ch Hch) as (-> & -> & -> & _). done.
Qed.

Lemma configuration_of_descriptors chs ch desc :
  dict_get (configuration_of chs) ch = Some desc →
  is_Some (dict_get desc "transducer_frequency").
Proof.
  unfold configuration_of. induction chs as [|c chs IH]; simpl; [done|].
  destruct (decide (c = ch)); [|done]. intros [= <-]. by eexists.
Qed.

Lemma NoDup_AB : NoDup ["A"; "B"].
Proof.
  apply NoDup_cons. split; [|apply NoDup_singleton].
  by intros [|?%elem_of_nil]%elem_of_cons.
Qed.

(** Scenario A of the specification: channels A and B, and the stream
    parameter(A), data(A), parameter(B), data(B).  One ping is
    committed, with the samples of A under A and those of B under B. *)
Lemma complete_cycles_commit_witness :
  ∃ s,
    load_ek80_raw [config_AB :: [parameter_A; data_A; parameter_B; data_B]]
      init = (s, Return tt)
    ∧ length (ping_time s) = 1%nat
    ∧ ping_time s = [2000]
    ∧ (power_dict s !! "A" = Some [PyArray [1; 2]]
       ∧ angle_dict s !! "A" = Some [PyNone]
       ∧ complex_dict s !! "A" = Some [PyNone])
    ∧ (power_dict s !! "B" = Some [PyArray [3; 4]]
       ∧ angle_dict s !! "B" = Some [PyNone]
       ∧ complex_dict s !! "B" = Some [PyNone]).
Proof.
  destruct (complete_cycles_commit config_AB (configuration_of ["A"; "B"]) init
              [parameter_A; data_A; parameter_B; data_B])
    as (s & Hrun & Hcount & Htime & Hsam).
  - reflexivity.
  - reflexivity.
  - apply configuration_of_descriptors.
  - exact NoDup_AB.
  - vm_compute. reflexivity.
  - exists s. split; [exact Hrun|]. split; [exact Hcount|].
    split; [exact Htime|]. split.
    + exact (Hsam "A" ltac:(by left)).
    + exact (Hsam "B" ltac:(by right; left)).
Defined.

(** ** The buffer at the end of the stream *)

(** A commit that returns found a buffered datagram for every channel. *)
Lemma save_channels_length buf suffix : ∀ (k : nat) s s',
  for_each (enumerate_from (Z.of_nat k) suffix) (save_channel buf) s
  = (s', Return tt) →
  suffix ≠ [] → (k + length suffix ≤ length buf)%nat.
Proof.
  induction suffix as [|c rest IH]; intros k s s' Hrun Hne; [done|].
  simpl in Hrun. apply bind_return in Hrun as (s1 & [] & Hc & Hrest).
  apply save_channel_return in Hc as (b & ? & ? & ? & ? & ? & ? & Hb & _).
  apply py_index_nat_return in Hb. apply lookup_lt_Some in Hb.
  destruct rest as [|c' rest]; [simpl; lia|].
  replace (Z.of_nat k + 1) with (Z.of_nat (S k)) in Hrest by lia.
  apply IH in Hrest; [|done]. simpl in *. lia.
Qed.

Lemma save_ping_length buf s s' :
  save_ping buf s = (s', Return tt) → (length (ch_ids s) ≤ length buf)%nat.
Proof.
  unfold save_ping. intros Hrun.
  apply bind_return in Hrun as (s1 & first & [= <- _] & Hrun).
  apply bind_return in Hrun as (s1 & [] & [= <-] & Hrun).
  apply bind_return in Hrun as (s2 & ids & [= <- <-] & Hrun).
  cbn [ch_ids set_ping_time] in Hrun.
  destruct (ch_ids s) as [|c chs] eqn:Hids; [simpl; lia|].
  apply (save_channels_length buf (c :: chs) 0%nat) in Hrun; [|done].
  simpl in *. lia.
Qed.

Lemma unchanged_trans a s1 s2 s3 :
  unchanged a s1 s2 → unchanged a s2 s3 → unchanged a s1 s3.
Proof.
  destruct a; simpl; intros H1 H2; destruct_and?; repeat split; congruence.
Qed.

(** One datagram, seen from the buffer: a sample datagram makes the
    buffer one longer or restarts it, and changes the converter only if
    the buffer has reached the number of channels; any other datagram
    leaves the buffer and the ping outputs alone. *)
Lemma read_datagram_buffer loc d s s' loc' :
  read_datagram loc d s = (s', Return loc') →
  ch_ids s' = ch_ids s
  ∧ if is_raw d
    then (length (tmp_datagram_dict loc') = S (length (tmp_datagram_dict loc))
          ∨ length (tmp_datagram_dict loc') = 1%nat)
         ∧ ((length (tmp_datagram_dict loc') < length (ch_ids s))%nat → s' = s)
    else tmp_datagram_dict loc' = tmp_datagram_dict loc
         ∧ unchanged PingOutputs s s'.
Proof.
  intros Hrun.
  pose proof (proj2 (keeps_configuration_fields loc d) s) as Hk.
  rewrite Hrun in Hk. split; [exact Hk|].
  destruct (is_raw d) eqn:Hraw.
  - rewrite read_datagram_raw in Hrun by done. split.
    + apply read_raw_locals in Hrun as [_ [-> | ->]].
      * left. rewrite length_app. simpl. lia.
      * by right.
    + intros Hlen. apply read_raw_return in Hrun as [->|Hsave]; [done|].
      apply save_ping_length in Hsave. lia.
  - split.
    + apply read_datagram_locals in Hrun; [|by left]. by subst loc'.
    + pose proof (read_datagram_frame loc d PingOutputs s) as Hf.
      rewrite Hrun in Hf. apply Hf. intros Hh.
      apply handler_ping_outputs in Hh. congruence.
Qed.

(** Over a stream, the buffer either grew by every sample datagram, or
    it was restarted and is no longer than their number. *)
Lemma run_datagrams_buffer tail : ∀ loc s s' loc',
  run_datagrams tail loc s = (s', Return loc') →
  length (tmp_datagram_dict loc')
  = (length (tmp_datagram_dict loc) + raw_count tail)%nat
  ∨ (length (tmp_datagram_dict loc') ≤ raw_count tail)%nat.
Proof.
  induction tail as [|d tail IH]; intros loc s s' loc' Hrun; simpl in Hrun.
  - injection Hrun as _ <-. left. unfold raw_count. simpl. lia.
  - apply bind_return in Hrun as (s1 & loc1 & Hd & Hrun).
    apply read_datagram_buffer in Hd as [_ Hd]. apply IH in Hrun.
    rewrite raw_count_cons.
    destruct (is_raw d).
    + destruct Hd as [[Hlen|Hlen] _]; lia.
    + destruct Hd as [Hbuf _]. rewrite Hbuf in Hrun. lia.
Qed.

(** A buffer that grew by every sample datagram of the stream and is
    still shorter than the number of channels: nothing was committed. *)
Lemma run_datagrams_growing tail : ∀ loc s s' loc',
  run_datagrams tail loc s = (s', Return loc') →
  length (tmp_datagram_dict loc')
  = (length (tmp_datagram_dict loc) + raw_count tail)%nat →
  (length (tmp_datagram_dict loc') < length (ch_ids s'))%nat →
  unchanged PingOutputs s s'.
Proof.
  induction tail as [|d tail IH]; intros loc s s' loc' Hrun Hlen Hpart;
    simpl in Hrun.
  - injection Hrun as <- _. by apply unchanged_eq.
  - apply bind_return in Hrun as (s1 & loc1 & Hd & Hrun).
    pose proof (run_datagrams_buffer _ _ _ _ _ Hrun) as Hbound.
    pose proof (run_datagrams_ch_ids _ _ _ _ _ Hrun) as Hids.
    apply read_datagram_buffer in Hd as [Hids1 Hd].
    rewrite raw_count_cons in Hlen.
    destruct (is_raw d).
    + destruct Hd as [Hgrow Hsame].
      assert (Hlen1 : length (tmp_datagram_dict loc')
                      = (length (tmp_datagram_dict loc1) + raw_count tail)%nat)
        by lia.
      assert (s1 = s) as -> by (apply Hsame; rewrite <- Hids1, <- Hids; lia).
      by eapply IH.
    + destruct Hd as [Hbuf Hun]. rewrite <- Hbuf in Hlen.
      eapply unchanged_trans; [exact Hun|]. eapply IH; [exact Hrun|lia|done].
Qed.

(** A buffer that holds exactly the sample datagrams of the stream and is
    shorter than the number of channels: nothing was committed. *)
Lemma run_datagrams_pending tail : ∀ loc s s' loc',
  run_datagrams tail loc s = (s', Return loc') →
  length (tmp_datagram_dict loc') = raw_count tail →
  (length (tmp_datagram_dict loc') < length (ch_ids s'))%nat →
  unchanged PingOutputs s s'.
Proof.
  induction tail as [|d tail IH]; intros loc s s' loc' Hrun Hlen Hpart;
    simpl in Hrun.
  - injection Hrun as <- _. by apply unchanged_eq.
  - apply bind_return in Hrun as (s1 & loc1 & Hd & Hrun).
    pose proof (run_datagrams_buffer _ _ _ _ _ Hrun) as Hbound.
    pose proof (run_datagrams_ch_ids _ _ _ _ _ Hrun) as Hids.
    apply read_datagram_buffer in Hd as [Hids1 Hd].
    rewrite raw_count_cons in Hlen.
    destruct (is_raw d).
    + destruct Hd as [Hgrow Hsame].
      assert (Hlen1 : length (tmp_datagram_dict loc')
                      = (length (tmp_datagram_dict loc1) + raw_count tail)%nat)
        by lia.
      assert (s1 = s) as -> by (apply Hsame; rewrite <- Hids1, <- Hids; lia).
      by eapply run_datagrams_growing.
    + destruct Hd as [Hbuf Hun].
      eapply unchanged_trans; [exact Hun|]. eapply IH; [exact Hrun|lia|done].
Qed.

(** When the stream ends while the buffer holds fewer sample datagrams
    than there are channels ([tail] being the part of the stream that
    holds the buffered ones), [_read_datagrams] returns normally: the
    end of the file only leaves the loop.  The ping times and the sample
    lists are what they were before [tail]: the buffered datagrams are
    dropped with the local buffer. *)
Theorem truncated_cycle_is_dropped s loc pre tail s1 loc1 s2 loc2 :
  run_datagrams pre loc s = (s1, Return loc1) →
  run_datagrams tail loc1 s1 = (s2, Return loc2) →
  length (tmp_datagram_dict loc2) = raw_count tail →
  (length (tmp_datagram_dict loc2) < length (ch_ids s2))%nat →
  read_loop (pre ++ tail) loc s = (s2, Return tt)
  ∧ unchanged PingOutputs s1 s2.
Proof.
  intros Hpre Htail Hlen Hpart. split.
  - eapply read_loop_return. rewrite run_datagrams_app.
    rewrite (bind_step _ _ _ _ _ Hpre). exact Htail.
  - by eapply run_datagrams_pending.
Qed.

(** Scenario B of the specification: channels A and B, and the stream
    parameter(A), data(A), parameter(B), ending before data(B). *)
Lemma truncated_cycle_is_dropped_witness :
  let tail := [parameter_A; data_A; parameter_B] in
  let r := run_datagrams tail initial_locals loaded_AB in
  read_loop ([] ++ tail) initial_locals loaded_AB = (r.1, Return tt)
  ∧ unchanged PingOutputs loaded_AB r.1.
Proof.
  cbv zeta.
  apply (truncated_cycle_is_dropped loaded_AB initial_locals []
           [parameter_A; data_A; parameter_B] loaded_AB initial_locals
           (run_datagrams [parameter_A; data_A; parameter_B]
              initial_locals loaded_AB).1
           (returned initial_locals
              (run_datagrams [parameter_A; data_A; parameter_B]
                 initial_locals loaded_AB)));
    vm_compute; reflexivity.
Defined.

(** ** The environment *)

(** The environment dict of an environment datagram. *)
Definition as_environment (d : Dg.t) : option (pydict pyval) :=
  if is_xml d
  then match Dg.subtype d with
       | Some st =>
           if decide (st = "environment") then Dg.environment d else None
       | None => None
       end
  else None.

(** The environment dict of the last environment datagram of [fid], or
    [before] when [fid] has none. *)
Fixpoint last_environment (fid : list Dg.t) (before : pydict pyval)
  : pydict pyval :=
  match fid with
  | [] => before
  | d :: rest =>
      last_environment rest
        (match as_environment d with Some e => e | None => before end)
  end.

Lemma read_datagram_environment loc d s s' loc' :
  read_datagram loc d s = (s', Return loc') →
  environment s'
  = match as_environment d with Some e => e | None => environment s end.
Proof.
  intros Hrun.
  destruct (decide (handler d = Some EnvironmentSnapshot)) as [Hh|Hh].
  - revert Hrun Hh.
    unfold handler, as_environment, read_datagram, is_xml.
    cbn [Dg.type Dg.normalise Dg.set_timestamp].
    destruct (startswith (Dg.type d) "XML"); [|repeat case_match; done].
    unfold read_xml.
    cbn [Dg.subtype Dg.environment Dg.normalise Dg.set_timestamp].
    destruct (Dg.subtype d) as [st|]; [|done]. simpl getitem.
    rewrite bind_lift_return.
    destruct (decide (st = "environment")); [|by case_decide].
    destruct (Dg.environment d) as [env|]; [|done]. simpl getitem.
    rewrite bind_lift_return. by intros [= <- _] _.
  - pose proof (read_datagram_frame loc d EnvironmentSnapshot s Hh) as Hf.
    rewrite Hrun in Hf. simpl in Hf. rewrite Hf.
    destruct (as_environment d) as [e|] eqn:He; [|done].
    exfalso. apply Hh. unfold as_environment, handler in *.
    destruct (is_xml d); [|done].
    destruct (Dg.subtype d) as [st|]; [|done].
    by destruct (decide (st = "environment")).
Qed.

Lemma run_datagrams_environment fid : ∀ loc s s' loc',
  run_datagrams fid loc s = (s', Return loc') →
  environment s' = last_environment fid (environment s).
Proof.
  induction fid as [|d fid IH]; intros loc s s' loc' Hrun; simpl in Hrun.
  - by injection Hrun as <- _.
  - apply bind_return in Hrun as (s1 & loc1 & Hd & Hrun).
    apply read_datagram_environment in Hd.
    rewrite (IH _ _ _ _ Hrun). simpl. by rewrite Hd.
Qed.

Lemma last_environment_none fid before :
  (∀ d, d ∈ fid → as_environment d = None) →
  last_environment fid before = before.
Proof.
  induction fid as [|d fid IH]; intros Hnone; simpl; [done|].
  rewrite (Hnone d) by (by left). apply IH. intros d' Hin. apply Hnone.
  by right.
Qed.

Lemma environment_read_configuration first s :
  environment (read_configuration first s).1 = environment s.
Proof.
  rewrite read_configuration_eq. cbv zeta.
  destruct (Dg.subtype first) as [st|]; [|done].
  destruct (Dg.keys_at st first) as [ids|]; [|done].
  by rewrite keeps_init_channels.
Qed.

(** The environment is replaced as a whole by every environment
    datagram, and by nothing else: after a file that was read without an
    exception it is the dict of the last environment datagram of the
    file, and, when the file has none, what it was before the file was
    opened (the configuration datagram does not reset it). *)
Theorem environment_is_last_datagram first fid s s0 s' loc' :
  read_configuration first s = (s0, Return tt) →
  run_datagrams fid initial_locals s0 = (s', Return loc') →
  environment s' = last_environment fid (environment s).
Proof.
  intros Hcfg Hrun. rewrite (run_datagrams_environment _ _ _ _ _ Hrun).
  pose proof (environment_read_configuration first s) as H0.
  rewrite Hcfg in H0. simpl in H0. by rewrite H0.
Qed.

Definition environment_1 : Dg.t :=
  xml_environment 100 [("temperature", PyFloat 10); ("depth", PyFloat 5)].
Definition environment_2 : Dg.t :=
  xml_environment 9000 [("temperature", PyFloat 12)].

(** Two environment datagrams around the datagrams of channel A: the
    second one is what is left. *)
Lemma environment_is_last_datagram_witness :
  environment
    (run_datagrams [environment_1; parameter_A; data_A; environment_2]
       initial_locals loaded_AB).1
  = [("temperature", PyFloat 12)].
Proof.
  apply (environment_is_last_datagram config_AB
           [environment_1; parameter_A; data_A; environment_2]
           init loaded_AB _
           (returned initial_locals
              (run_datagrams [environment_1; parameter_A; data_A; environment_2]
                 initial_locals loaded_AB)));
    vm_compute; reflexivity.
Defined.


(** ** [save]: the environment group *)

(** [_set_env_dict] of [save]: the five values the environment group
    takes from [self.environment], read in the order of the keyword
    arguments. *)
Definition _set_env_dict : M (pydict pyval) :=
  let! env := self environment in
  let! temperature := lift (getitem "temperature" (dict_get env "temperature")) in
  let! depth := lift (getitem "depth" (dict_get env "depth")) in
  let! acidity := lift (getitem "acidity" (dict_get env "acidity")) in
  let! salinity := lift (getitem "salinity" (dict_get env "salinity")) in
  let! sound_speed := lift (getitem "sound_speed" (dict_get env "sound_speed")) in
  ret [("temperature", temperature); ("depth", depth); ("acidity", acidity);
       ("salinity", salinity); ("sound_speed_indicative", sound_speed)].

(** The environment group of a file loaded into a new converter:
    - without any environment datagram in the file, [_set_env_dict]
      raises [KeyError] for its first key;
    - when the last environment datagram has the five keys, it returns
      their values, the sound speed under the name
      [sound_speed_indicative];
    - in no case does it change the converter. *)
Theorem environment_group first fid s0 s loc :
  read_configuration first init = (s0, Return tt) →
  run_datagrams fid initial_locals s0 = (s, Return loc) →
  ((∀ d, d ∈ fid → as_environment d = None) →
   _set_env_dict s = (s, Raise (KeyError "temperature")))
  ∧ (∀ t d a sa ss,
       let e := last_environment fid [] in
       dict_get e "temperature" = Some t → dict_get e "depth" = Some d →
       dict_get e "acidity" = Some a → dict_get e "salinity" = Some sa →
       dict_get e "sound_speed" = Some ss →
       _set_env_dict s
       = (s, Return [("temperature", t); ("depth", d); ("acidity", a);
                     ("salinity", sa); ("sound_speed_indicative", ss)]))
  ∧ (_set_env_dict s).1 = s.
Proof.
  intros Hcfg Hrun.
  assert (Henv : environment s = last_environment fid []).
  { rewrite (run_datagrams_environment _ _ _ _ _ Hrun).
    pose proof (environment_read_configuration first init) as H0.
    rewrite Hcfg in H0. simpl in H0. by rewrite H0. }
  unfold _set_env_dict. rewrite bind_self, Henv.
  split; [|split].
  - intros Hnone. by rewrite last_environment_none.
  - cbv zeta. intros t d a sa ss Ht Hd Ha Hsa Hss.
    rewrite Ht, Hd, Ha, Hsa, Hss. reflexivity.
  - unfold bind, lift.
    repeat (destruct (getitem _ _); [|done]). done.
Qed.

Definition environment_full : Dg.t :=
  xml_environment 100
    [("depth", PyFloat 5); ("acidity", PyFloat 8); ("salinity", PyFloat 35);
     ("sound_speed", PyFloat 1500); ("temperature", PyFloat 10);
     ("water_level_draft", PyFloat 0)].

(** A file with one full environment datagram. *)
Lemma environment_group_witness :
  let s := (run_datagrams [environment_full; parameter_A] initial_locals
              loaded_AB).1 in
  _set_env_dict s
  = (s, Return [("temperature", PyFloat 10); ("depth", PyFloat 5);
                ("acidity", PyFloat 8); ("salinity", PyFloat 35);
                ("sound_speed_indicative", PyFloat 1500)]).
Proof.
  cbv zeta.
  destruct (environment_group config_AB [environment_full; parameter_A]
              loaded_AB
              (run_datagrams [environment_full; parameter_A] initial_locals
                 loaded_AB).1
              (returned initial_locals
                 (run_datagrams [environment_full; parameter_A]
                    initial_locals loaded_AB)))
    as (_ & Hfull & _).
  - vm_compute. reflexivity.
  - vm_compute. reflexivity.
  - by apply Hfull.
Defined.

(** ** The motion lists *)

(** [self.mru_data[key]], as a reader that does not create the entry
    sees it. *)
Definition motion_list (key : string) (s : ConvertEK80) : list pyval :=
  default [] (mru_data s !! key).

(** The MRU datagrams of a stream, as the loop sees them. *)
Definition motion_records (fid : list Dg.t) : list Dg.t :=
  Dg.normalise <$> List.filter is_mru fid.

Definition motion_append (key : string) (v : pyval) (s : ConvertEK80)
  : ConvertEK80 :=
  set_mru_data (<[key := motion_list key s ++ [v]]> (mru_data s)) s.

Definition motion_touch (key : string) (s : ConvertEK80) : ConvertEK80 :=
  set_mru_data (<[key := motion_list key s]> (mru_data s)) s.

Lemma mru_append_return {B} key v (k : unit → M B) s :
  bind (mru_append key (Return v)) k s = k tt (motion_append key v s).
Proof. reflexivity. Qed.

Lemma mru_append_raise {B} key e (k : unit → M B) s :
  bind (mru_append key (Raise e)) k s = (motion_touch key s, Raise e).
Proof. reflexivity. Qed.

Lemma motion_list_append key' key v s :
  motion_list key' (motion_append key v s)
  = if decide (key' = key) then motion_list key s ++ [v]
    else motion_list key' s.
Proof.
  unfold motion_append, motion_list at 1. destruct s; simpl.
  case_decide as Hk.
  - subst. by rewrite lookup_insert_eq.
  - by rewrite lookup_insert_ne.
Qed.

Lemma motion_list_touch key' key s :
  motion_list key' (motion_touch key s) = motion_list key' s.
Proof.
  unfold motion_touch, motion_list at 1. destruct s; simpl.
  destruct (decide (key' = key)) as [->|Hk].
  - by rewrite lookup_insert_eq.
  - by rewrite lookup_insert_ne.
Qed.

Lemma mru_dispatch d :
  is_mru d = true → is_xml d = false ∧ is_raw d = false ∧ is_nme d = false.
Proof.
  unfold is_mru, is_xml, is_raw, is_nme, startswith.
  destruct (Dg.type d) as [|a t]; [done|]. cbn [String.prefix].
  destruct (Ascii.ascii_dec _ a) as [<-|]; [intros _|done].
  repeat split; by destruct (Ascii.ascii_dec _ _).
Qed.

Lemma handler_motion d : handler d = Some MotionBuffer → is_mru d = true.
Proof.
  unfold handler. destruct (is_xml d).
  - destruct (Dg.subtype d) as [st|]; [|done]. repeat case_decide; done.
  - destruct (is_raw d); [done|]. destruct (is_nme d); [done|].
    destruct (is_mru d); [done|]. by destruct (is_fil d).
Qed.

(** An MRU datagram, as the loop runs it. *)
Lemma read_datagram_mru loc d :
  is_mru d = true →
  read_datagram loc d
  = (mru_append "heading" (getitem "heading" (Dg.heading d)) ;;;
     mru_append "pitch" (getitem "pitch" (Dg.pitch d)) ;;;
     mru_append "roll" (getitem "roll" (Dg.roll d)) ;;;
     mru_append "heave" (getitem "heave" (Dg.heave d)) ;;;
     mru_append "timestamp"
       (Return (PyTime (datetime64_ms (Dg.timestamp d)))) ;;;
     ret (count_datagram loc)).
Proof.
  intros Hmru. destruct (mru_dispatch d Hmru) as (Hx & Hr & Hn).
  unfold read_datagram, is_mru, is_xml, is_raw, is_nme in *.
  cbn [Dg.type Dg.normalise Dg.set_timestamp Dg.heading Dg.pitch Dg.roll
       Dg.heave Dg.timestamp].
  by rewrite Hx, Hr, Hn, Hmru.
Qed.

Definition motion_keys : list string :=
  ["heading"; "pitch"; "roll"; "heave"; "timestamp"].

(** The value of a datagram the loop has normalised for one of the five
    lists. *)
Definition motion_value (key : string) (d : Dg.t) : option pyval :=
  if decide (key = "heading") then Dg.heading d
  else if decide (key = "pitch") then Dg.pitch d
  else if decide (key = "roll") then Dg.roll d
  else if decide (key = "heave") then Dg.heave d
  else if decide (key = "timestamp") then Some (PyTime (Dg.timestamp d))
  else None.

Lemma read_datagram_motion loc d s s' loc' :
  read_datagram loc d s = (s', Return loc') →
  ∀ key, key ∈ motion_keys →
    if is_mru d
    then ∃ v, motion_value key (Dg.normalise d) = Some v
              ∧ motion_list key s' = motion_list key s ++ [v]
    else motion_list key s' = motion_list key s.
Proof.
  intros Hrun key Hkey. destruct (is_mru d) eqn:Hmru.
  - rewrite read_datagram_mru in Hrun by done.
    destruct (Dg.heading d) as [h|] eqn:Hh; [|done].
    destruct (Dg.pitch d) as [p|] eqn:Hp; [|done].
    destruct (Dg.roll d) as [r|] eqn:Hr; [|done].
    destruct (Dg.heave d) as [v|] eqn:Hv; [|done].
    cbn [getitem] in Hrun. rewrite !mru_append_return in Hrun.
    injection Hrun as <- _.
    unfold motion_value.
    cbn [Dg.normalise Dg.set_timestamp Dg.heading Dg.pitch Dg.roll Dg.heave
         Dg.timestamp].
    rewrite Hh, Hp, Hr, Hv. rewrite !motion_list_append.
    unfold motion_keys in Hkey.
    repeat (apply elem_of_cons in Hkey as [->|Hkey];
            [eexists; split; [reflexivity|reflexivity]|]).
    by apply elem_of_nil in Hkey.
  - pose proof (read_datagram_frame loc d MotionBuffer s) as Hf.
    rewrite Hrun in Hf. simpl in Hf. unfold motion_list. rewrite Hf; [done|].
    intros Hh. apply handler_motion in Hh. congruence.
Qed.

Lemma motion_records_cons d fid :
  motion_records (d :: fid)
  = (if is_mru d then [Dg.normalise d] else []) ++ motion_records fid.
Proof. unfold motion_records. simpl. by destruct (is_mru d). Qed.

(** Every MRU datagram of a stream that is read without an exception
    adds one entry to each of the five motion lists, in stream order:
    each list is what it was, followed by the values of the MRU
    datagrams, so the five lists grow by the same number of entries and
    stay aligned with the time stamps.  No other datagram changes
    them. *)
Theorem motion_lists_aligned fid : ∀ loc s s' loc',
  run_datagrams fid loc s = (s', Return loc') →
  ∀ key, key ∈ motion_keys →
    Forall (λ d, is_Some (motion_value key d)) (motion_records fid)
    ∧ motion_list key s'
      = motion_list key s ++ omap (motion_value key) (motion_records fid)
    ∧ length (motion_list key s')
      = (length (motion_list key s) + length (motion_records fid))%nat.
Proof.
  induction fid as [|d fid IH]; intros loc s s' loc' Hrun key Hkey;
    simpl in Hrun.
  - injection Hrun as <- _. cbn. rewrite app_nil_r. split; [done|].
    split; [done|lia].
  - apply bind_return in Hrun as (s1 & loc1 & Hd & Hrun).
    destruct (IH _ _ _ _ Hrun key Hkey) as (Hall & Heq & Hlen).
    pose proof (read_datagram_motion _ _ _ _ _ Hd key Hkey) as H1.
    rewrite motion_records_cons. destruct (is_mru d).
    + destruct H1 as (v & Hv & H1).
      assert (Ho : omap (motion_value key) [Dg.normalise d] = [v])
        by (simpl; by rewrite Hv).
      rewrite omap_app, Ho, Hlen, Heq, H1, <- app_assoc, length_app.
      split; [constructor; [by rewrite Hv|done]|]. split; [done|].
      simpl. lia.
    + simpl. rewrite <- H1. done.
Qed.

Definition motion_1 : Dg.t :=
  mru_datagram 1500 (PyFloat 10) (PyFloat 11) (PyFloat 12) (PyFloat 13).
Definition motion_2 : Dg.t :=
  mru_datagram 2500 (PyFloat 20) (PyFloat 21) (PyFloat 22) (PyFloat 23).

(** Two MRU datagrams between the datagrams of channel A. *)
Lemma motion_lists_aligned_witness :
  motion_list "pitch"
    (run_datagrams [motion_1; parameter_A; motion_2; data_A] initial_locals
       loaded_AB).1
  = motion_list "pitch" loaded_AB ++ [PyFloat 11; PyFloat 21].
Proof.
  apply (motion_lists_aligned [motion_1; parameter_A; motion_2; data_A]
           initial_locals loaded_AB _
           (returned initial_locals
              (run_datagrams [motion_1; parameter_A; motion_2; data_A]
                 initial_locals loaded_AB))).
  - vm_compute. reflexivity.
  - by right; left.
Defined.

(** ** The filter tables *)

(** [tbl[ch][stage]] as a reader that does not create the entry sees
    it. *)
Definition filter_entry (tbl : gmap string (gmap Z pyval)) (ch : string)
    (stage : Z) : option pyval :=
  tbl !! ch ≫= (λ stages, stages !! stage).

(** Whether [d] is a FIL datagram for [ch] and [stage]. *)
Definition is_filter_of (ch : string) (stage : Z) (d : Dg.t) : bool :=
  is_fil d
  && bool_decide (Dg.channel_id d = Some ch ∧ Dg.stage d = Some stage).

(** The value ([coefficients] or [decimation_factor]) of the last FIL
    datagram of [fid] for [ch] and [stage], or [before] when [fid] has
    none. *)
Fixpoint last_filter (value : Dg.t → option pyval) (ch : string) (stage : Z)
    (fid : list Dg.t) (before : option pyval) : option pyval :=
  match fid with
  | [] => before
  | d :: rest =>
      last_filter value ch stage rest
        (if is_filter_of ch stage d then value d else before)
  end.

Lemma fil_dispatch d :
  is_fil d = true →
  is_xml d = false ∧ is_raw d = false ∧ is_nme d = false ∧ is_mru d = false.
Proof.
  unfold is_fil, is_mru, is_xml, is_raw, is_nme, startswith.
  destruct (Dg.type d) as [|a t]; [done|]. cbn [String.prefix].
  destruct (Ascii.ascii_dec _ a) as [<-|]; [intros _|done].
  repeat split; by destruct (Ascii.ascii_dec _ _).
Qed.

Lemma handler_filter d : handler d = Some FilterTables → is_fil d = true.
Proof.
  unfold handler. destruct (is_xml d).
  - destruct (Dg.subtype d) as [st|]; [|done]. repeat case_decide; done.
  - destruct (is_raw d); [done|]. destruct (is_nme d); [done|].
    destruct (is_mru d); [done|]. by destruct (is_fil d).
Qed.

(** A FIL datagram, as the loop runs it. *)
Lemma read_datagram_fil loc d :
  is_fil d = true →
  read_datagram loc d
  = (fil_store fil_coeffs set_fil_coeffs (Dg.coefficients d) "coefficients"
       (Dg.normalise d) ;;;
     fil_store fil_df set_fil_df (Dg.decimation_factor d) "decimation_factor"
       (Dg.normalise d) ;;;
     ret (count_datagram loc)).
Proof.
  intros Hfil. destruct (fil_dispatch d Hfil) as (Hx & Hr & Hn & Hm).
  unfold read_datagram, is_fil, is_mru, is_xml, is_raw, is_nme in *.
  cbn [Dg.type Dg.normalise Dg.set_timestamp Dg.coefficients
       Dg.decimation_factor].
  by rewrite Hx, Hr, Hn, Hm, Hfil.
Qed.

Definition filter_insert (ch : string) (stage : Z) (x : pyval)
    (tbl : gmap string (gmap Z pyval)) : gmap string (gmap Z pyval) :=
  <[ch := <[stage := x]> (default ∅ (tbl !! ch))]> tbl.

Lemma fil_store_return get set x vkey d ch stage s :
  Dg.channel_id d = Some ch → Dg.stage d = Some stage →
  fil_store get set (Some x) vkey d s
  = (set (filter_insert ch stage x (get s)) s, Return tt).
Proof.
  intros Hch Hst. unfold fil_store. rewrite Hch. simpl getitem.
  rewrite !bind_lift_return. by rewrite Hst.
Qed.

Lemma fil_store_inv get set v vkey d s s' :
  fil_store get set v vkey d s = (s', Return tt) →
  ∃ x ch stage,
    v = Some x ∧ Dg.channel_id d = Some ch ∧ Dg.stage d = Some stage.
Proof.
  unfold fil_store. destruct v as [x|]; [|done].
  destruct (Dg.channel_id d) as [ch|]; [|done]. simpl getitem.
  rewrite !bind_lift_return.
  destruct (Dg.stage d) as [stage|]; [|done]. eauto 6.
Qed.

Lemma filter_entry_insert ch stage x tbl ch' stage' :
  filter_entry (filter_insert ch stage x tbl) ch' stage'
  = if bool_decide (Some ch = Some ch' ∧ Some stage = Some stage')
    then Some x else filter_entry tbl ch' stage'.
Proof.
  unfold filter_entry, filter_insert.
  destruct (decide (ch = ch')) as [->|Hch].
  - rewrite lookup_insert_eq. simpl.
    destruct (decide (stage = stage')) as [->|Hst].
    + rewrite lookup_insert_eq. by rewrite bool_decide_eq_true_2.
    + rewrite lookup_insert_ne by done.
      rewrite bool_decide_eq_false_2 by (intros [_ [=]]; done).
      by destruct (tbl !! ch').
  - rewrite lookup_insert_ne by done.
    by rewrite bool_decide_eq_false_2 by (intros [[=] _]; done).
Qed.

Lemma read_datagram_filter loc d s s' loc' :
  read_datagram loc d s = (s', Return loc') →
  ∀ ch stage,
    filter_entry (fil_coeffs s') ch stage
    = (if is_filter_of ch stage d then Dg.coefficients d
       else filter_entry (fil_coeffs s) ch stage)
    ∧ filter_entry (fil_df s') ch stage
      = (if is_filter_of ch stage d then Dg.decimation_factor d
         else filter_entry (fil_df s) ch stage).
Proof.
  intros Hrun ch stage. unfold is_filter_of.
  destruct (is_fil d) eqn:Hfil.
  - rewrite read_datagram_fil in Hrun by done.
    apply bind_return in Hrun as (s1 & [] & H1 & Hrun).
    apply bind_return in Hrun as (s2 & [] & H2 & [= <- _]).
    destruct (fil_store_inv _ _ _ _ _ _ _ H1) as (c & ch0 & st0 & Hc & Hch & Hst).
    destruct (fil_store_inv _ _ _ _ _ _ _ H2) as (df & _ & _ & Hdf & _ & _).
    rewrite Hc, (fil_store_return _ _ _ _ _ _ _ _ Hch Hst) in H1.
    rewrite Hdf, (fil_store_return _ _ _ _ _ _ _ _ Hch Hst) in H2.
    injection H1 as <-. injection H2 as <-.
    cbn [Dg.normalise Dg.set_timestamp Dg.channel_id Dg.stage] in Hch, Hst.
    rewrite Hch, Hst, Hc, Hdf.
    destruct s as [c1 c2 c3 c4 c5 c6 c7 c8 c9 c10 c11 c12 c13]; cbn [andb].
    cbn [fil_coeffs fil_df set_fil_coeffs set_fil_df].
    by rewrite !filter_entry_insert.
  - pose proof (read_datagram_frame loc d FilterTables s) as Hf.
    rewrite Hrun in Hf. simpl in Hf. destruct Hf as [-> ->]; [|done].
    intros Hh. apply handler_filter in Hh. congruence.
Qed.

(** The two filter tables after a stream that is read without an
    exception: the entry of a channel and a stage is the value of the
    last FIL datagram for this channel and stage, the coefficients in
    [fil_coeffs] and the decimation factor of the same datagram in
    [fil_df]; an entry no FIL datagram of the stream names is what it
    was. *)
Theorem filter_tables_last_datagram fid : ∀ loc s s' loc',
  run_datagrams fid loc s = (s', Return loc') →
  ∀ ch stage,
    filter_entry (fil_coeffs s') ch stage
    = last_filter Dg.coefficients ch stage fid
        (filter_entry (fil_coeffs s) ch stage)
    ∧ filter_entry (fil_df s') ch stage
      = last_filter Dg.decimation_factor ch stage fid
          (filter_entry (fil_df s) ch stage).
Proof.
  induction fid as [|d fid IH]; intros loc s s' loc' Hrun ch stage;
    simpl in Hrun.
  - by injection Hrun as <- _.
  - apply bind_return in Hrun as (s1 & loc1 & Hd & Hrun).
    destruct (IH _ _ _ _ Hrun ch stage) as [-> ->].
    destruct (read_datagram_filter _ _ _ _ _ Hd ch stage) as [-> ->].
    done.
Qed.

Definition filter_1 : Dg.t :=
  fil_datagram 500 "A" 1 (PyArray [1; 2; 3]) (PyInt 8).
Definition filter_2 : Dg.t :=
  fil_datagram 600 "A" 2 (PyArray [4; 5]) (PyInt 4).
Definition filter_3 : Dg.t :=
  fil_datagram 700 "A" 1 (PyArray [7]) (PyInt 2).

(** Stage 1 of channel A is given twice: the second datagram is what is
    left, in both tables. *)
Lemma filter_tables_last_datagram_witness :
  let s := (run_datagrams [filter_1; filter_2; parameter_A; filter_3]
              initial_locals loaded_AB).1 in
  filter_entry (fil_coeffs s) "A" 1 = Some (PyArray [7])
  ∧ filter_entry (fil_df s) "A" 1 = Some (PyInt 2).
Proof.
  cbv zeta.
  apply (filter_tables_last_datagram
           [filter_1; filter_2; parameter_A; filter_3]
           initial_locals loaded_AB _
           (returned initial_locals
              (run_datagrams [filter_1; filter_2; parameter_A; filter_3]
                 initial_locals loaded_AB))).
  vm_compute. reflexivity.
Defined.

(** ** [save]: the vendor group *)

(** [d[k] = v] on a dict whose key order is observable: a key that is
    there keeps its place. *)
Fixpoint dict_set {V} (d : pydict V) (k : string) (v : V) : pydict V :=
  match d with
  | [] => [(k, v)]
  | (k', v') :: d' =>
      if decide (k' = k) then (k, v) :: d' else (k', v') :: dict_set d' k v
  end.

(** The key of [KeyError(stage)], the integer as Python prints it. *)
Definition stage_key (stage : Z) : string :=
  NilZero.string_of_int (Z.to_int stage).

(** [d[ch][stage]] read on one of the two [defaultdict(dict)]s of filter
    data: the outer lookup creates a missing entry, the inner one raises
    [KeyError]. *)
Definition fil_lookup
    (get : ConvertEK80 → gmap string (gmap Z pyval))
    (set : gmap string (gmap Z pyval) → ConvertEK80 → ConvertEK80)
    (ch : string) (stage : Z) : M pyval :=
  λ s,
    let tbl := default ∅ (get s !! ch) in
    let s1 := set (<[ch := tbl]> (get s)) s in
    match tbl !! stage with
    | Some v => (s1, Return v)
    | None => (s1, Raise (KeyError (stage_key stage)))
    end.

(** The dict [_set_vendor_dict] returns: its three keys. *)
Record vendor := mkVendor {
  vendor_ch_ids : list string;
  filter_coefficients : pydict pyval;
  decimation_factors : pydict pyval
}.

(** The body of [for ch in self.ch_ids], on the local dicts [coeffs] and
    [decimation_factors]. *)
Definition vendor_channel (acc : pydict pyval * pydict pyval) (ch : string)
  : M (pydict pyval * pydict pyval) :=
  let! wbt := fil_lookup fil_coeffs set_fil_coeffs ch 1 in
  let coeffs := dict_set acc.1 (ch +:+ "_WBT_filter") wbt in
  let! pc := fil_lookup fil_coeffs set_fil_coeffs ch 2 in
  let coeffs := dict_set coeffs (ch +:+ "_PC_filter") pc in
  let! wbt_df := fil_lookup fil_df set_fil_df ch 1 in
  let dfs := dict_set acc.2 (ch +:+ "_WBT_decimation") wbt_df in
  let! pc_df := fil_lookup fil_df set_fil_df ch 2 in
  ret (coeffs, dict_set dfs (ch +:+ "_PC_decimation") pc_df).

(** A [for] loop that updates local variables. *)
Fixpoint for_fold {A B} (l : list A) (body : B → A → M B) (acc : B) : M B :=
  match l with
  | [] => ret acc
  | x :: l' => let! acc' := body acc x in for_fold l' body acc'
  end.

Definition _set_vendor_dict : M vendor :=
  let! ids := self ch_ids in
  let! dicts := for_fold ids vendor_channel ([], []) in
  ret (mkVendor ids dicts.1 dicts.2).

(** The entries of one channel in the two dicts. *)
Definition coefficient_items (wbt pc : string → pyval) (ch : string)
  : list (string * pyval) :=
  [(ch +:+ "_WBT_filter", wbt ch); (ch +:+ "_PC_filter", pc ch)].

Definition decimation_items (wbt pc : string → pyval) (ch : string)
  : list (string * pyval) :=
  [(ch +:+ "_WBT_decimation", wbt ch); (ch +:+ "_PC_decimation", pc ch)].

Definition coefficient_dict (wbt pc : string → pyval) (ids : list string)
  : pydict pyval :=
  mbind (M := list) (coefficient_items wbt pc) ids.

Definition decimation_dict (wbt pc : string → pyval) (ids : list string)
  : pydict pyval :=
  mbind (M := list) (decimation_items wbt pc) ids.

Lemma coefficient_dict_snoc wbt pc done ch :
  coefficient_dict wbt pc (done ++ [ch])
  = coefficient_dict wbt pc done ++ coefficient_items wbt pc ch.
Proof.
  unfold coefficient_dict. rewrite bind_app. by rewrite bind_singleton.
Qed.

Lemma decimation_dict_snoc wbt pc done ch :
  decimation_dict wbt pc (done ++ [ch])
  = decimation_dict wbt pc done ++ decimation_items wbt pc ch.
Proof.
  unfold decimation_dict. rewrite bind_app. by rewrite bind_singleton.
Qed.

Lemma dict_set_fresh {V} (d : pydict V) k v :
  k ∉ dict_keys d → dict_set d k v = d ++ [(k, v)].
Proof.
  induction d as [|[k' v'] d IH]; intros Hk; [done|].
  unfold dict_keys in *. simpl in *. apply not_elem_of_cons in Hk as [Hne Hk].
  rewrite decide_False by done. by rewrite IH.
Qed.

Lemma list_ascii_app s t :
  list_ascii_of_string (s +:+ t)
  = list_ascii_of_string s ++ list_ascii_of_string t.
Proof. induction s as [|a s IH]; [done|]. simpl. by rewrite IH. Qed.

Lemma string_app_inv_tail s s' t : s +:+ t = s' +:+ t → s = s'.
Proof.
  intros Heq. apply (f_equal list_ascii_of_string) in Heq.
  rewrite !list_ascii_app in Heq. apply app_inv_tail in Heq.
  apply (f_equal string_of_list_ascii) in Heq.
  by rewrite !string_of_list_ascii_of_string in Heq.
Qed.

Lemma filter_suffixes s s' : s +:+ "_WBT_filter" ≠ s' +:+ "_PC_filter".
Proof.
  intros Heq. apply (f_equal (λ x, reverse (list_ascii_of_string x))) in Heq.
  simpl in Heq. rewrite !list_ascii_app, !reverse_app in Heq.
  discriminate Heq.
Qed.

Lemma decimation_suffixes s s' :
  s +:+ "_WBT_decimation" ≠ s' +:+ "_PC_decimation".
Proof.
  intros Heq. apply (f_equal (λ x, reverse (list_ascii_of_string x))) in Heq.
  simpl in Heq. rewrite !list_ascii_app, !reverse_app in Heq.
  discriminate Heq.
Qed.

Lemma coefficient_keys wbt pc done k :
  k ∈ dict_keys (coefficient_dict wbt pc (done)) →
  ∃ ch, ch ∈ done ∧ (k = ch +:+ "_WBT_filter" ∨ k = ch +:+ "_PC_filter").
Proof.
  unfold dict_keys, coefficient_dict. intros Hk.
  apply list_elem_of_fmap in Hk as ([k' v] & -> & Hk).
  apply list_elem_of_bind in Hk as (ch & Hk & Hch).
  exists ch. split; [done|]. unfold coefficient_items in Hk.
  apply elem_of_cons in Hk as [[= -> _]|Hk]; [by left|].
  apply list_elem_of_singleton in Hk as [= -> _]. by right.
Qed.

Lemma decimation_keys wbt pc done k :
  k ∈ dict_keys (decimation_dict wbt pc (done)) →
  ∃ ch, ch ∈ done
        ∧ (k = ch +:+ "_WBT_decimation" ∨ k = ch +:+ "_PC_decimation").
Proof.
  unfold dict_keys, decimation_dict. intros Hk.
  apply list_elem_of_fmap in Hk as ([k' v] & -> & Hk).
  apply list_elem_of_bind in Hk as (ch & Hk & Hch).
  exists ch. split; [done|]. unfold decimation_items in Hk.
  apply elem_of_cons in Hk as [[= -> _]|Hk]; [by left|].
  apply list_elem_of_singleton in Hk as [= -> _]. by right.
Qed.

Lemma fil_lookup_return get set ch stage v s :
  (∀ s, set (get s) s = s) →
  filter_entry (get s) ch stage = Some v →
  fil_lookup get set ch stage s = (s, Return v).
Proof.
  intros Hid Hv. unfold fil_lookup, filter_entry in *.
  destruct (get s !! ch) as [tbl|] eqn:Htbl; [|done]. simpl in *.
  rewrite Hv. by rewrite insert_id, Hid.
Qed.

Lemma fil_lookup_raise get set ch stage s :
  filter_entry (get s) ch stage = None →
  fil_lookup get set ch stage s
  = (set (<[ch := default ∅ (get s !! ch)]> (get s)) s,
     Raise (KeyError (stage_key stage))).
Proof.
  intros Hv. unfold fil_lookup, filter_entry in *.
  destruct (get s !! ch) as [tbl|] eqn:Htbl; simpl in *.
  - by rewrite Hv.
  - by rewrite lookup_empty.
Qed.

Lemma set_fil_coeffs_id s : set_fil_coeffs (fil_coeffs s) s = s.
Proof. by destruct s. Qed.

Lemma set_fil_df_id s : set_fil_df (fil_df s) s = s.
Proof. by destruct s. Qed.

(** The channels whose filters are complete. *)
Definition filters_of (s : ConvertEK80) (wbt pc wbt_df pc_df : string → pyval)
    (ch : string) : Prop :=
  filter_entry (fil_coeffs s) ch 1 = Some (wbt ch)
  ∧ filter_entry (fil_coeffs s) ch 2 = Some (pc ch)
  ∧ filter_entry (fil_df s) ch 1 = Some (wbt_df ch)
  ∧ filter_entry (fil_df s) ch 2 = Some (pc_df ch).

Lemma vendor_channel_return s wbt pc wbt_df pc_df done ch :
  ch ∉ done →
  filters_of s wbt pc wbt_df pc_df ch →
  vendor_channel (coefficient_dict wbt pc (done),
                  decimation_dict wbt_df pc_df (done)) ch s
  = (s, Return (coefficient_dict wbt pc (done ++ [ch]),
                decimation_dict wbt_df pc_df (done ++ [ch]))).
Proof.
  intros Hch (H1 & H2 & H3 & H4). unfold vendor_channel.
  rewrite (bind_step _ _ _ _ _
             (fil_lookup_return _ _ _ _ _ _ set_fil_coeffs_id H1)).
  rewrite (bind_step _ _ _ _ _
             (fil_lookup_return _ _ _ _ _ _ set_fil_coeffs_id H2)).
  rewrite (bind_step _ _ _ _ _
             (fil_lookup_return _ _ _ _ _ _ set_fil_df_id H3)).
  rewrite (bind_step _ _ _ _ _
             (fil_lookup_return _ _ _ _ _ _ set_fil_df_id H4)).
  cbn [fst snd]. rewrite coefficient_dict_snoc, decimation_dict_snoc.
  unfold coefficient_items, decimation_items, ret. do 3 f_equal.
  - rewrite (dict_set_fresh (coefficient_dict wbt pc done)).
    + rewrite dict_set_fresh; [by rewrite <- app_assoc|].
      unfold dict_keys. rewrite fmap_app. intros Hk.
      apply elem_of_app in Hk as [Hk|Hk].
      * apply coefficient_keys in Hk as (ch' & Hin & [Heq|Heq]).
        -- by apply symmetry, filter_suffixes in Heq.
        -- apply string_app_inv_tail in Heq. by subst.
      * apply list_elem_of_singleton in Hk.
        by apply symmetry, filter_suffixes in Hk.
    + intros Hk. apply coefficient_keys in Hk as (ch' & Hin & [Heq|Heq]).
      * apply string_app_inv_tail in Heq. by subst.
      * by apply filter_suffixes in Heq.
  - rewrite (dict_set_fresh (decimation_dict wbt_df pc_df done)).
    + rewrite dict_set_fresh; [by rewrite <- app_assoc|].
      unfold dict_keys. rewrite fmap_app. intros Hk.
      apply elem_of_app in Hk as [Hk|Hk].
      * apply decimation_keys in Hk as (ch' & Hin & [Heq|Heq]).
        -- by apply symmetry, decimation_suffixes in Heq.
        -- apply string_app_inv_tail in Heq. by subst.
      * apply list_elem_of_singleton in Hk.
        by apply symmetry, decimation_suffixes in Hk.
    + intros Hk. apply decimation_keys in Hk as (ch' & Hin & [Heq|Heq]).
      * apply string_app_inv_tail in Heq. by subst.
      * by apply decimation_suffixes in Heq.
Qed.

Lemma vendor_loop s wbt pc wbt_df pc_df ids : ∀ done,
  NoDup (done ++ ids) →
  (∀ ch, ch ∈ ids → filters_of s wbt pc wbt_df pc_df ch) →
  for_fold ids vendor_channel
    (coefficient_dict wbt pc (done),
     decimation_dict wbt_df pc_df (done)) s
  = (s, Return (coefficient_dict wbt pc (done ++ ids),
                decimation_dict wbt_df pc_df (done ++ ids))).
Proof.
  induction ids as [|ch ids IH]; intros done Hnd Hall.
  - by rewrite app_nil_r.
  - cbn [for_fold].
    assert (Hch : ch ∉ done).
    { apply NoDup_app in Hnd as (_ & Hdis & _). intros Hin.
      apply (Hdis ch Hin). by left. }
    rewrite (bind_step _ _ _ _ _
               (vendor_channel_return s wbt pc wbt_df pc_df done ch Hch
                  (Hall ch ltac:(by left)))).
    rewrite (IH (done ++ [ch])).
    + by rewrite <- !app_assoc.
    + by rewrite <- app_assoc.
    + intros ch' Hin. apply Hall. by right.
Qed.

(** The vendor group built by [save] when the filter tables hold stages
    1 and 2 for every channel: [_set_vendor_dict] returns, channel by
    channel in the order of [ch_ids], the coefficients under
    [<ch>_WBT_filter] and [<ch>_PC_filter] and the decimation factors
    under [<ch>_WBT_decimation] and [<ch>_PC_decimation]; no entry
    overwrites another, and the converter is left as it was. *)
Theorem vendor_group s wbt pc wbt_df pc_df :
  NoDup (ch_ids s) →
  (∀ ch, ch ∈ ch_ids s → filters_of s wbt pc wbt_df pc_df ch) →
  _set_vendor_dict s
  = (s, Return (mkVendor (ch_ids s)
                  (coefficient_dict wbt pc (ch_ids s))
                  (decimation_dict wbt_df pc_df (ch_ids s)))).
Proof.
  intros Hnd Hall. unfold _set_vendor_dict. rewrite bind_self.
  by rewrite (bind_step _ _ _ _ _
                (vendor_loop s wbt pc wbt_df pc_df (ch_ids s) [] Hnd Hall)).
Qed.

Definition filters_AB : list Dg.t :=
  [fil_datagram 500 "A" 1 (PyArray [1]) (PyInt 8);
   fil_datagram 510 "A" 2 (PyArray [2]) (PyInt 4);
   fil_datagram 520 "B" 1 (PyArray [3]) (PyInt 6);
   fil_datagram 530 "B" 2 (PyArray [4]) (PyInt 2)].

(** Channels A and B with both stages each. *)
Lemma vendor_group_witness :
  let s := (run_datagrams filters_AB initial_locals loaded_AB).1 in
  _set_vendor_dict s
  = (s, Return (mkVendor ["A"; "B"]
                  [("A_WBT_filter", PyArray [1]); ("A_PC_filter", PyArray [2]);
                   ("B_WBT_filter", PyArray [3]); ("B_PC_filter", PyArray [4])]
                  [("A_WBT_decimation", PyInt 8); ("A_PC_decimation", PyInt 4);
                   ("B_WBT_decimation", PyInt 6);
                   ("B_PC_decimation", PyInt 2)])).
Proof.
  cbv zeta.
  etrans;
    [apply (vendor_group (run_datagrams filters_AB initial_locals loaded_AB).1
              (λ ch, if decide (ch = "A") then PyArray [1] else PyArray [3])
              (λ ch, if decide (ch = "A") then PyArray [2] else PyArray [4])
              (λ ch, if decide (ch = "A") then PyInt 8 else PyInt 6)
              (λ ch, if decide (ch = "A") then PyInt 4 else PyInt 2))
    |vm_compute; reflexivity].
  - exact NoDup_AB.
  - intros ch Hin.
    change (ch ∈ ["A"; "B"]) in Hin.
    apply elem_of_cons in Hin as [->|Hin];
      [|apply list_elem_of_singleton in Hin as ->];
      vm_compute; repeat split; reflexivity.
Defined.

(** ** [save]: the vendor group without filters *)

Lemma run_datagrams_filter_absent ch stage fid : ∀ loc s s' loc',
  run_datagrams fid loc s = (s', Return loc') →
  (∀ d, d ∈ fid → is_filter_of ch stage d = false) →
  filter_entry (fil_coeffs s') ch stage = filter_entry (fil_coeffs s) ch stage
  ∧ filter_entry (fil_df s') ch stage = filter_entry (fil_df s) ch stage.
Proof.
  induction fid as [|d fid IH]; intros loc s s' loc' Hrun Hno;
    simpl in Hrun.
  - by injection Hrun as <- _.
  - apply bind_return in Hrun as (s1 & loc1 & Hd & Hrun).
    destruct (IH _ _ _ _ Hrun) as [-> ->]; [intros; apply Hno; by right|].
    destruct (read_datagram_filter _ _ _ _ _ Hd ch stage) as [-> ->].
    by rewrite (Hno d) by (by left).
Qed.

Lemma fil_coeffs_read_configuration first s :
  fil_coeffs (read_configuration first s).1 = fil_coeffs s.
Proof.
  rewrite read_configuration_eq. cbv zeta.
  destruct (Dg.subtype first) as [st|]; [|done].
  destruct (Dg.keys_at st first) as [ids|]; [|done].
  by rewrite keeps_init_channels.
Qed.

(** [save] needs the filters: after a file without a stage-1 FIL
    datagram for its first channel, loaded into a new converter,
    [_set_vendor_dict] raises [KeyError(1)].  The lookup that fails has
    then created the entry of the channel in [fil_coeffs]; nothing else
    of the converter has changed. *)
Theorem vendor_group_needs_filters first fid s0 s loc ch rest :
  read_configuration first init = (s0, Return tt) →
  run_datagrams fid initial_locals s0 = (s, Return loc) →
  ch_ids s = ch :: rest →
  (∀ d, d ∈ fid → is_filter_of ch 1 d = false) →
  _set_vendor_dict s
  = (set_fil_coeffs (<[ch := default ∅ (fil_coeffs s !! ch)]> (fil_coeffs s)) s,
     Raise (KeyError "1")).
Proof.
  intros Hcfg Hrun Hids Hno.
  assert (Hnone : filter_entry (fil_coeffs s) ch 1 = None).
  { rewrite (proj1 (run_datagrams_filter_absent _ _ _ _ _ _ _ Hrun Hno)).
    pose proof (fil_coeffs_read_configuration first init) as H0.
    rewrite Hcfg in H0. simpl in H0. by rewrite H0. }
  unfold _set_vendor_dict. rewrite bind_self, Hids. cbn [for_fold].
  apply bind_raise, bind_raise. unfold vendor_channel.
  apply bind_raise. by apply (fil_lookup_raise fil_coeffs set_fil_coeffs).
Qed.

(** Channels A and B and a file without FIL datagrams. *)
Lemma vendor_group_needs_filters_witness :
  let s := (run_datagrams [parameter_A; data_A] initial_locals loaded_AB).1 in
  _set_vendor_dict s
  = (set_fil_coeffs (<["A" := default ∅ (fil_coeffs s !! "A")]> (fil_coeffs s))
       s,
     Raise (KeyError "1")).
Proof.
  cbv zeta.
  apply (vendor_group_needs_filters config_AB [parameter_A; data_A] loaded_AB
           (run_datagrams [parameter_A; data_A] initial_locals loaded_AB).1
           (returned initial_locals
              (run_datagrams [parameter_A; data_A] initial_locals loaded_AB))
           "A" ["B"]).
  - vm_compute. reflexivity.
  - vm_compute. reflexivity.
  - vm_compute. reflexivity.
  - intros d Hin.
    apply elem_of_cons in Hin as [->|Hin];
      [|apply list_elem_of_singleton in Hin as ->]; reflexivity.
Defined.

(** ** The commit goes by position *)

(** The commit of [read_raw] is decided by the channel of the datagram
    just read and by the counter alone: when a datagram of the last
    channel arrives with the counter one short of the last place, the
    buffer is committed, and the buffered datagram at place [j] goes to
    the lists of the [j]-th channel, whatever channel it came from
    (nothing is assumed here about the channels of the buffered
    datagrams). *)
Theorem commit_by_position loc d s c cp (n : nat) :
  is_raw d = true →
  NoDup (ch_ids s) →
  length (ch_ids s) = S (S n) →
  ch_ids s !! S n = Some c →
  Dg.channel_id d = Some c →
  current_parameters loc = Some cp →
  Param.channel_id cp = c →
  tmp_num_ch_per_ping_parsed loc = Z.of_nat n →
  length (tmp_datagram_dict loc) = S n →
  Forall has_samples (tmp_datagram_dict loc ++ [d]) →
  (∀ ch, ch ∈ ch_ids s →
     is_Some (power_dict s !! ch) ∧ is_Some (angle_dict s !! ch)
     ∧ is_Some (complex_dict s !! ch)) →
  ∃ s' loc',
    read_datagram loc d s = (s', Return loc')
    ∧ ping_time s'
      = ping_time s ++ (Dg.timestamp <$> take 1 (tmp_datagram_dict loc))
    ∧ ∀ (j : nat) ch b,
        ch_ids s !! j = Some ch →
        (tmp_datagram_dict loc ++ [Dg.normalise d]) !! j = Some b →
        power_dict s' !! ch
        = (λ l, l ++ option_list (Dg.power b)) <$> power_dict s !! ch
        ∧ angle_dict s' !! ch
          = (λ l, l ++ option_list (Dg.angle b)) <$> angle_dict s !! ch
        ∧ complex_dict s' !! ch
          = (λ l, l ++ option_list (Dg.complex b)) <$> complex_dict s !! ch.
Proof.
  intros Hraw Hnd Hlen Hlast Hc Hcp Hch Hcount Hbuf Hsam Hlists.
  rewrite read_datagram_raw by done.
  pose proof (read_raw_eval (count_datagram loc) (Dg.normalise d) s c cp (S n)
                Hc Hcp Hch Hnd Hlast) as Heval.
  cbv zeta in Heval. rewrite Heval by (intros _; simpl; lia). clear Heval.
  rewrite decide_True by done. rewrite decide_False by done.
  cbn [tmp_datagram_dict count_datagram].
  set (buf := tmp_datagram_dict loc ++ [Dg.normalise d]).
  assert (Hbuflen : length buf = S (S n)).
  { unfold buf. rewrite length_app. simpl. lia. }
  destruct (save_ping_total buf s) as [s' Hsave].
  { intros j ch Hj. split.
    - assert (Hlt : (j < length buf)%nat).
      { rewrite Hbuflen, <- Hlen. by eapply lookup_lt_Some. }
      destruct (lookup_lt_is_Some_2 _ _ Hlt) as [b Hb]. exists b.
      split; [done|]. unfold buf in Hb.
      rewrite Forall_app, Forall_singleton in Hsam.
      destruct Hsam as [Hsam1 Hsam2].
      apply lookup_app_Some in Hb as [Hb|[_ Hb]].
      + eapply (Forall_lookup_1 has_samples); [exact Hsam1|exact Hb].
      + apply list_lookup_singleton_Some in Hb as [_ <-]. exact Hsam2.
    - apply Hlists. by eapply list_elem_of_lookup_2. }
  { intros Hnil. by rewrite Hnil in Hbuflen. }
  exists s'. eexists. split; [by rewrite (bind_step _ _ _ _ _ Hsave)|].
  destruct (save_ping_return _ _ _ Hsave Hnd) as (first & Hfirst & Htime & Hent).
  split.
  - rewrite Htime. f_equal.
    destruct (tmp_datagram_dict loc) as [|b0 rest] eqn:Htmp; [done|].
    unfold buf in Hfirst. simpl in Hfirst. by injection Hfirst as <-.
  - intros j ch b Hj Hb.
    destruct (proj2 (Hent ch) j Hj)
      as (b' & pw & an & cx & lp & la & lc & Hb' & Hpw & Han & Hcx
          & -> & -> & -> & -> & -> & ->).
    apply py_index_nat_return in Hb'. fold buf in Hb.
    assert (b' = b) as -> by congruence.
    by rewrite Hpw, Han, Hcx.
Qed.

Definition config_ABC : Dg.t :=
  xml_configuration 0 (configuration_of ["A"; "B"; "C"]).

Definition loaded_ABC : ConvertEK80 := (read_configuration config_ABC init).1.

Definition data_C1 : Dg.t :=
  raw_datagram 6000 "C" (PyArray [5; 6]) PyNone PyNone.
Definition data_C2 : Dg.t :=
  raw_datagram 8000 "C" (PyArray [7; 8]) PyNone PyNone.

(** Channels A, B and C, and a file in which channel B is missing and
    channel C comes twice: parameter(A), data(A), parameter(C), data(C),
    parameter(C), data(C).  The second datagram of C commits a ping in
    which the first datagram of C is stored under B. *)
Lemma commit_by_position_witness :
  let r := run_datagrams [parameter_A; data_A; parameter_C; data_C1;
                          parameter_C] initial_locals loaded_ABC in
  ∃ s' loc',
    read_datagram (returned initial_locals r) data_C2 r.1 = (s', Return loc')
    ∧ ping_time s' = [2000]
    ∧ power_dict s' !! "A" = Some [PyArray [1; 2]]
    ∧ power_dict s' !! "B" = Some [PyArray [5; 6]]
    ∧ power_dict s' !! "C" = Some [PyArray [7; 8]].
Proof.
  cbv zeta.
  destruct (commit_by_position
              (returned initial_locals
                 (run_datagrams [parameter_A; data_A; parameter_C; data_C1;
                                 parameter_C] initial_locals loaded_ABC))
              data_C2
              (run_datagrams [parameter_A; data_A; parameter_C; data_C1;
                              parameter_C] initial_locals loaded_ABC).1
              "C" (cw_parameter "C" 120000) 1%nat)
    as (s' & loc' & Hrun & Htime & Hsam).
  - reflexivity.
  - refine (bool_decide_unpack _ _). vm_compute. exact I.
  - vm_compute. reflexivity.
  - vm_compute. reflexivity.
  - reflexivity.
  - vm_compute. reflexivity.
  - reflexivity.
  - vm_compute. reflexivity.
  - vm_compute. reflexivity.
  - refine (bool_decide_unpack _ _). vm_compute. exact I.
  - intros ch Hin. refine (bool_decide_unpack _ _).
    change (ch ∈ ["A"; "B"; "C"]) in Hin.
    apply elem_of_cons in Hin as [->|Hin];
      [|apply elem_of_cons in Hin as [->|Hin];
        [|apply list_elem_of_singleton in Hin as ->]];
      vm_compute; exact I.
  - exists s', loc'. split; [exact Hrun|]. split; [exact Htime|].
    split; [|split].
    + exact (proj1 (Hsam 0%nat "A" (Dg.normalise data_A) eq_refl eq_refl)).
    + exact (proj1 (Hsam 1%nat "B" (Dg.normalise data_C1) eq_refl eq_refl)).
    + exact (proj1 (Hsam 2%nat "C" (Dg.normalise data_C2) eq_refl eq_refl)).
Defined.

(** ** The counter after a commit *)

(** A sample datagram that changed the converter committed a ping; the
    counter then stands at the last place. *)
Lemma read_raw_commit_counter loc d s s' loc' :
  NoDup (ch_ids s) →
  0 ≤ tmp_num_ch_per_ping_parsed loc →
  read_raw loc d s = (s', Return loc') →
  s' ≠ s →
  tmp_num_ch_per_ping_parsed loc' = Z.of_nat (length (ch_ids s)) - 1.
Proof.
  unfold read_raw. intros Hnd Hpos Hrun Hne.
  apply bind_return in Hrun as (s1 & c & [= <- Hc] & Hrun).
  apply bind_return in Hrun as (s1 & cp & [= <- Hcp] & Hrun).
  destruct (decide (Param.channel_id cp ≠ c)); [done|].
  apply bind_return in Hrun as (s1 & ids & [= <- <-] & Hrun).
  apply bind_return in Hrun as (s1 & first & [= <- Hfirst] & Hrun).
  cbv zeta in Hrun.
  apply bind_return in Hrun as (s1 & at_n & [= <- Hat] & Hrun).
  apply bind_return in Hrun as (s1 & last & [= <- Hlast] & Hrun).
  destruct (bool_decide (c = last) && bool_decide (at_n = last)) eqn:Hcommit;
    [|by injection Hrun as <- <-].
  apply bind_return in Hrun as (s1 & [] & Hsave & [= <- <-]).
  cbn [tmp_num_ch_per_ping_parsed].
  apply andb_true_iff in Hcommit as [_ Hat_last].
  apply bool_decide_eq_true in Hat_last. subst at_n.
  set (k := (if bool_decide (c = first) then -1
             else tmp_num_ch_per_ping_parsed loc) + 1) in *.
  assert (Hk : 0 ≤ k) by (unfold k; case_bool_decide; lia).
  rewrite py_index_nonneg in Hat by done.
  destruct (ch_ids s !! Z.to_nat k) as [x|] eqn:Hx; [|done].
  injection Hat as ->.
  rewrite py_index_last in Hlast.
  destruct (list.last (ch_ids s)) as [y|] eqn:Hy; [|done].
  injection Hlast as ->. rewrite last_lookup in Hy.
  pose proof (NoDup_lookup _ _ _ _ Hnd Hx Hy) as Heq.
  apply lookup_lt_Some in Hx. lia.
Qed.

(** Datagrams other than sample data leave the counter alone. *)
Lemma run_datagrams_counter mid : ∀ loc s s' loc',
  run_datagrams mid loc s = (s', Return loc') →
  Forall (λ d, is_raw d = false) mid →
  tmp_num_ch_per_ping_parsed loc' = tmp_num_ch_per_ping_parsed loc.
Proof.
  induction mid as [|d mid IH]; intros loc s s' loc' Hrun Hmid;
    simpl in Hrun.
  - by injection Hrun as _ <-.
  - apply Forall_cons in Hmid as [Hd Hmid].
    apply bind_return in Hrun as (s1 & loc1 & H1 & Hrun).
    rewrite (IH _ _ _ _ Hrun Hmid).
    apply read_datagram_locals in H1; [|by left]. by subst loc1.
Qed.

(** The counter is reset by a datagram of the first channel only, not
    by a commit: once a ping has been committed, the next sample
    datagram, if it is of another channel than the first (a datagram
    that comes twice, say), raises [IndexError] where the counter
    indexes [ch_ids], and the converter is left as the commit made it.
    Datagrams other than sample data may lie in between. *)
Theorem sample_after_commit_overruns loc d1 s s1 loc1 mid s2 loc2 d2 c cp :
  NoDup (ch_ids s) →
  0 ≤ tmp_num_ch_per_ping_parsed loc →
  is_raw d1 = true →
  read_datagram loc d1 s = (s1, Return loc1) →
  ping_time s1 ≠ ping_time s →
  Forall (λ d, is_raw d = false) mid →
  run_datagrams mid loc1 s1 = (s2, Return loc2) →
  is_raw d2 = true →
  Dg.channel_id d2 = Some c →
  current_parameters loc2 = Some cp →
  Param.channel_id cp = c →
  head (ch_ids s) ≠ Some c →
  read_datagram loc2 d2 s2 = (s2, Raise IndexError).
Proof.
  intros Hnd Hpos Hraw1 H1 Hcommit Hmid Hrun Hraw2 Hc Hcp Hch Hfirst.
  assert (Hids1 : ch_ids s1 = ch_ids s).
  { pose proof (proj2 (keeps_configuration_fields loc d1) s) as Hk.
    by rewrite H1 in Hk. }
  rewrite read_datagram_raw in H1 by done.
  assert (Hcount : tmp_num_ch_per_ping_parsed loc2
                   = Z.of_nat (length (ch_ids s)) - 1).
  { rewrite (run_datagrams_counter _ _ _ _ _ Hrun Hmid).
    apply (read_raw_commit_counter _ _ _ _ _ Hnd) in H1; [done|done|].
    by intros ->. }
  assert (Hids : ch_ids s2 = ch_ids s).
  { by rewrite (run_datagrams_ch_ids _ _ _ _ _ Hrun). }
  rewrite read_datagram_raw by done. unfold read_raw.
  cbn [Dg.channel_id Dg.normalise Dg.set_timestamp current_parameters
       count_datagram tmp_num_ch_per_ping_parsed].
  rewrite Hc, Hcp. simpl getitem. rewrite !bind_lift_return.
  rewrite decide_False by (intros Hne; by apply Hne).
  rewrite bind_self, Hids.
  destruct (ch_ids s) as [|first chs] eqn:Hs; [done|].
  change (py_index (first :: chs) 0) with (Return (A:=string) first).
  rewrite bind_lift_return. cbv zeta.
  rewrite bool_decide_eq_false_2 by (intros ->; by apply Hfirst).
  rewrite Hcount.
  replace (Z.of_nat (length (first :: chs)) - 1 + 1)
    with (Z.of_nat (length (first :: chs))) by lia.
  rewrite py_index_nat, lookup_ge_None_2 by done.
  reflexivity.
Qed.

(** Channels A and B, one complete ping, and the parameter and sample
    datagrams of B once more. *)
Lemma sample_after_commit_overruns_witness :
  let r0 := run_datagrams [parameter_A; data_A; parameter_B] initial_locals
              loaded_AB in
  let r1 := read_datagram (returned initial_locals r0) data_B r0.1 in
  let r2 := run_datagrams [parameter_B] (returned initial_locals r1) r1.1 in
  read_datagram (returned initial_locals r2) data_B r2.1
  = (r2.1, Raise IndexError).
Proof.
  cbv zeta.
  set (r0 := run_datagrams [parameter_A; data_A; parameter_B] initial_locals
               loaded_AB).
  set (r1 := read_datagram (returned initial_locals r0) data_B r0.1).
  set (r2 := run_datagrams [parameter_B] (returned initial_locals r1) r1.1).
  apply (sample_after_commit_overruns (returned initial_locals r0) data_B
           r0.1 r1.1 (returned initial_locals r1) [parameter_B] r2.1
           (returned initial_locals r2) data_B "B" (cw_parameter "B" 70000)).
  - refine (bool_decide_unpack _ _). vm_compute. exact I.
  - vm_compute. discriminate.
  - reflexivity.
  - vm_compute. reflexivity.
  - vm_compute. discriminate.
  - repeat constructor.
  - vm_compute. reflexivity.
  - reflexivity.
  - reflexivity.
  - vm_compute. reflexivity.
  - reflexivity.
  - vm_compute. discriminate.
Defined.

(** ** Several files *)

(** A file as [load_ek80_raw] expects it: a configuration datagram
    [first] whose configuration [c] describes every channel with its
    [transducer_frequency], then a well-formed stream [fid] of whole
    cycles. *)
Definition proper_file (f : Dg.t * pydict (pydict pyval) * list Dg.t)
  : Prop :=
  let '(first, c, fid) := f in
  Dg.subtype first = Some "configuration"
  ∧ Dg.configuration first = Some c
  ∧ (∀ ch desc, dict_get c ch = Some desc →
       is_Some (dict_get desc "transducer_frequency"))
  ∧ NoDup (dict_keys c)
  ∧ well_formed (dict_keys c) 0 None fid = true.

(** The datagrams [fid.read(1)] gives for the file. *)
Definition file_datagrams (f : Dg.t * pydict (pydict pyval) * list Dg.t)
  : list Dg.t :=
  let '(first, _, fid) := f in first :: fid.

(** The ping times of the file: the time stamps of the sample datagrams
    of its first channel. *)
Definition file_ping_times (f : Dg.t * pydict (pydict pyval) * list Dg.t)
  : list Z :=
  let '(_, c, fid) := f in
  from_option (λ ch0, times_of ch0 (data_records fid)) [] (head (dict_keys c)).

Lemma load_file_proper first c fid s_init :
  proper_file (first, c, fid) →
  ∃ s,
    load_file (first :: fid) s_init = (s, Return tt)
    ∧ ch_ids s = dict_keys c
    ∧ ping_time s = ping_time s_init ++ file_ping_times (first, c, fid)
    ∧ ∀ ch, ch ∈ dict_keys c →
        power_dict s !! ch = Some (samples_of Dg.power ch (data_records fid))
        ∧ angle_dict s !! ch = Some (samples_of Dg.angle ch (data_records fid))
        ∧ complex_dict s !! ch
          = Some (samples_of Dg.complex ch (data_records fid)).
Proof.
  intros (Hst & Hc & Hdesc & Hnd & Hwf).
  destruct (read_configuration_total first c s_init Hst Hc Hdesc)
    as (s0 & Hcfg & Hids).
  pose proof (cycle_state_start _ _ _ Hcfg) as Hstart. rewrite Hids in Hstart.
  destruct (well_formed_run _ Hnd fid 0%nat None [] s0 initial_locals Hwf Hstart)
    as (s & loc & Hrun & Hcount & Htime & Hsam).
  destruct (read_configuration_return _ _ _ Hcfg)
    as (_ & _ & _ & _ & Hfresh & Hpt).
  exists s. split; [|split; [|split]].
  - unfold load_file, _read_datagrams.
    exact (bind_step_eq _ _ _ _ _ _ Hcfg (read_loop_return _ _ _ _ _ Hrun)).
  - by rewrite (run_datagrams_ch_ids _ _ _ _ _ Hrun).
  - unfold file_ping_times. by rewrite Htime, Hpt.
  - intros ch Hch. destruct (Hsam ch Hch) as (-> & -> & ->).
    rewrite <- Hids in Hch.
    destruct (Hfresh ch Hch) as (-> & -> & -> & _). done.
Qed.

(** Several proper files loaded by one call: every file is read without
    an exception; [ping_time] is never reset, it collects the ping times
    of all the files in order, while the channels and the sample lists
    are those of the last file alone (the configuration datagram of each
    file empties the lists of its channels).  After more than one file
    with pings the sample lists are therefore shorter than
    [ping_time]. *)
Theorem files_accumulate_ping_times files : ∀ s_init,
  Forall proper_file files →
  ∃ s,
    load_ek80_raw (file_datagrams <$> files) s_init = (s, Return tt)
    ∧ ping_time s = ping_time s_init ++ concat (file_ping_times <$> files)
    ∧ ∀ first c fid, last files = Some (first, c, fid) →
        ch_ids s = dict_keys c
        ∧ ∀ ch, ch ∈ dict_keys c →
            power_dict s !! ch
            = Some (samples_of Dg.power ch (data_records fid))
            ∧ angle_dict s !! ch
              = Some (samples_of Dg.angle ch (data_records fid))
            ∧ complex_dict s !! ch
              = Some (samples_of Dg.complex ch (data_records fid)).
Proof.
  induction files as [|[[first c] fid] files IH]; intros s_init Hall.
  - exists s_init. split; [done|]. split; [by rewrite app_nil_r|done].
  - apply Forall_cons in Hall as [Hf Hall].
    destruct (load_file_proper first c fid s_init Hf)
      as (s1 & Hload & Hids & Htime & Hsam).
    destruct (IH s1 Hall) as (s & Hrest & Htimes & Hlast).
    exists s. split; [|split].
    + unfold load_ek80_raw in *. cbn [fmap list_fmap for_each file_datagrams].
      by rewrite (bind_step _ _ _ _ _ Hload).
    + rewrite Htimes, Htime. cbn [fmap list_fmap concat].
      by rewrite app_assoc.
    + intros first' c' fid' Hl.
      destruct files as [|f files].
      * injection Hl as <- <- <-. simpl in Hrest. by injection Hrest as <-.
      * apply (Hlast first' c' fid'). exact Hl.
Qed.

Definition file_AB : Dg.t * pydict (pydict pyval) * list Dg.t :=
  (config_AB, configuration_of ["A"; "B"],
   [parameter_A; data_A; parameter_B; data_B]).

Lemma proper_file_AB : proper_file file_AB.
Proof.
  split; [reflexivity|]. split; [reflexivity|].
  split; [apply configuration_of_descriptors|].
  split; [exact NoDup_AB|]. vm_compute. reflexivity.
Qed.

(** The file of scenario A loaded twice by one call: two ping times, one
    sample per channel. *)
Lemma files_accumulate_ping_times_witness :
  ∃ s,
    load_ek80_raw (file_datagrams <$> [file_AB; file_AB]) init
    = (s, Return tt)
    ∧ ping_time s = [2000; 2000]
    ∧ power_dict s !! "A" = Some [PyArray [1; 2]]
    ∧ power_dict s !! "B" = Some [PyArray [3; 4]].
Proof.
  destruct (files_accumulate_ping_times [file_AB; file_AB] init)
    as (s & Hrun & Htime & Hlast).
  - constructor; [exact proper_file_AB|].
    constructor; [exact proper_file_AB|]. constructor.
  - exists s. split; [exact Hrun|]. split; [exact Htime|].
    destruct (Hlast config_AB (configuration_of ["A"; "B"])
                [parameter_A; data_A; parameter_B; data_B] eq_refl)
      as [_ Hsam].
    split.
    + exact (proj1 (Hsam "A" ltac:(by left))).
    + exact (proj1 (Hsam "B" ltac:(by right; left))).
Defined.

(** ** [save]: the date and the time in the file name *)

(** [s.split(sep)] for a separator of one character: the fields between
    the separators, at least one. *)
Fixpoint split (sep : ascii) (s : string) : list string :=
  match s with
  | EmptyString => [EmptyString]
  | String a s' =>
      if decide (a = sep) then EmptyString :: split sep s'
      else match split sep s' with
           | field :: fields => String a field :: fields
           | [] => [String a EmptyString]
           end
  end.

(** [s.replace(c, "")] for one character [c]: every [c] is removed. *)
Fixpoint remove (c : ascii) (s : string) : string :=
  match s with
  | EmptyString => EmptyString
  | String a s' => if decide (a = c) then remove c s' else String a (remove c s')
  end.

(** Whether [c] occurs in [s]. *)
Fixpoint occurs (c : ascii) (s : string) : bool :=
  match s with
  | EmptyString => false
  | String a s' => bool_decide (a = c) || occurs c s'
  end.

(** [filedate] and [filetime] of [export], from the name of the raw file
    without its directory and extension:
    [filename_tup = stem.split("-")],
    [filedate = filename_tup[len(filename_tup) - 2].replace("D", "")],
    [filetime = filename_tup[len(filename_tup) - 1].replace("T", "")]. *)
Definition file_date_time (stem : string) : outcome (string * string) :=
  let filename_tup := split "-" stem in
  let len := Z.of_nat (length filename_tup) in
  match py_index filename_tup (len - 2) with
  | Raise e => Raise e
  | Return date_field =>
      let filedate := remove "D" date_field in
      match py_index filename_tup (len - 1) with
      | Raise e => Raise e
      | Return time_field => Return (filedate, remove "T" time_field)
      end
  end.

Lemma split_cons sep s : ∃ field fields, split sep s = field :: fields.
Proof.
  induction s as [|a s (f & fs & IH)]; simpl; [by eauto|].
  case_decide; [by eauto|]. rewrite IH. by eauto.
Qed.

Lemma split_absent sep s : occurs sep s = false → split sep s = [s].
Proof.
  induction s as [|a s IH]; simpl; [done|].
  intros [Ha Hs]%orb_false_iff. apply bool_decide_eq_false in Ha.
  rewrite decide_False by done. by rewrite IH.
Qed.

Lemma split_app sep s t :
  split sep (s +:+ String sep t) = split sep s ++ split sep t.
Proof.
  induction s as [|a s IH]; simpl.
  - by rewrite decide_True.
  - case_decide; [by rewrite IH|].
    rewrite IH. by destruct (split_cons sep s) as (f & fs & ->).
Qed.

Lemma remove_absent c s : occurs c s = false → remove c s = s.
Proof.
  induction s as [|a s IH]; simpl; [done|].
  intros [Ha Hs]%orb_false_iff. apply bool_decide_eq_false in Ha.
  rewrite decide_False by done. by rewrite IH.
Qed.

Lemma py_index_last_two {A} (l : list A) x y :
  let len := Z.of_nat (length (l ++ [x; y])) in
  py_index (l ++ [x; y]) (len - 2) = Return x
  ∧ py_index (l ++ [x; y]) (len - 1) = Return y.
Proof.
  cbv zeta. rewrite length_app. simpl length. split.
  - replace (Z.of_nat (length l + 2) - 2) with (Z.of_nat (length l)) by lia.
    rewrite py_index_nat. by rewrite lookup_app_r, Nat.sub_diag by lia.
  - replace (Z.of_nat (length l + 2) - 1) with (Z.of_nat (S (length l)))
      by lia.
    rewrite py_index_nat. rewrite lookup_app_r by lia.
    by replace (S (length l) - length l)%nat with 1%nat by lia.
Qed.

Lemma py_index_last_fields {A} (l : list A) :
  l ≠ [] →
  let len := Z.of_nat (length l) in
  ∃ x y, py_index l (len - 2) = Return x ∧ py_index l (len - 1) = Return y.
Proof.
  intros Hl. destruct l as [|y l _] using rev_ind; [done|]. clear Hl.
  destruct l as [|x l _] using rev_ind.
  - exists y, y. by split.
  - rewrite <- app_assoc. exists x, y. apply py_index_last_two.
Qed.

(** The date and the time [export] takes from the name of the raw file.
    - A name [<prefix>-D<date>-T<time>] gives [date] and [time] back,
      when they hold no ["-"], [date] no ["D"] and [time] no ["T"].
    - A name without any ["-"] does not raise: the index
      [len(filename_tup) - 2] is then [-1], and the date and the time
      are both taken from the whole name, without its ["D"]s and
      without its ["T"]s.
    - No name raises [IndexError]. *)
Theorem file_name_date_time :
  (∀ pre date time,
     occurs "-" date = false → occurs "D" date = false →
     occurs "-" time = false → occurs "T" time = false →
     file_date_time (pre +:+ "-D" +:+ date +:+ "-T" +:+ time)
     = Return (date, time))
  ∧ (∀ stem, occurs "-" stem = false →
       file_date_time stem = Return (remove "D" stem, remove "T" stem))
  ∧ (∀ stem, ∃ date time, file_date_time stem = Return (date, time)).
Proof.
  split; [|split].
  - intros pre date time Hd1 Hd2 Ht1 Ht2. unfold file_date_time. cbv zeta.
    change (pre +:+ "-D" +:+ date +:+ "-T" +:+ time)
      with (pre +:+ String "-" (String "D" date +:+ String "-" (String "T" time))).
    rewrite split_app, split_app.
    rewrite (split_absent "-" (String "D" date)) by done.
    rewrite (split_absent "-" (String "T" time)) by done.
    cbn [app].
    destruct (py_index_last_two (split "-" pre) (String "D" date)
                (String "T" time)) as [-> ->].
    simpl remove. by rewrite !remove_absent.
  - intros stem Hs. unfold file_date_time. cbv zeta.
    rewrite split_absent by done. reflexivity.
  - intros stem. unfold file_date_time. cbv zeta.
    destruct (py_index_last_fields (split "-" stem)) as (x & y & Hx & Hy).
    { by destruct (split_cons "-" stem) as (f & fs & ->). }
    cbv zeta in Hx, Hy. rewrite Hx, Hy. by eauto.
Qed.

(** The name of a file of the echosounder. *)
Lemma file_name_date_time_witness :
  file_date_time "Summer2018--D20180905-T033113"
  = Return ("20180905", "033113").
Proof.
  exact (proj1 file_name_date_time "Summer2018-" "20180905" "033113"
           eq_refl eq_refl eq_refl eq_refl).
Defined.

(** ** An MRU datagram without one of its keys *)

(** The four values of an MRU datagram are appended one after the other,
    each list before the next key is read.  When [key] is the first of
    [heading], [pitch], [roll], [heave] the datagram does not have, the
    datagram raises [KeyError] for it; the lists of the keys read before
    have by then grown by one entry, the other lists (the time stamps
    among them) have not: the motion lists are left with different
    lengths. *)
Theorem motion_missing_key loc d s read key rest :
  is_mru d = true →
  ["heading"; "pitch"; "roll"; "heave"] = read ++ key :: rest →
  (∀ k, k ∈ read → is_Some (motion_value k d)) →
  motion_value key d = None →
  ∃ s',
    read_datagram loc d s = (s', Raise (KeyError key))
    ∧ (∀ k, k ∈ read →
         motion_list k s'
         = motion_list k s ++ option_list (motion_value k d))
    ∧ (∀ k, k ∉ read → motion_list k s' = motion_list k s).
Proof.
  intros Hmru Hkeys Hread Hkey. rewrite read_datagram_mru by done.
  assert (Hval : ∀ k, k ∈ read → ∃ v, motion_value k d = Some v).
  { intros k Hk. by destruct (Hread k Hk) as [v ->]; eexists. }
  clear Hread.
  destruct read as [|k1 [|k2 [|k3 [|k4 read]]]]; simplify_eq/=.
  - unfold motion_value in Hkey. simpl in Hkey. rewrite Hkey. simpl getitem.
    rewrite mru_append_raise. eexists. split; [done|].
    split; [by intros k ?%elem_of_nil|].
    intros k _. by rewrite motion_list_touch.
  - destruct (Hval "heading" ltac:(by left)) as [h Hh].
    unfold motion_value in Hkey, Hh. simpl in Hkey, Hh.
    rewrite Hh, Hkey. simpl getitem.
    rewrite mru_append_return, mru_append_raise. eexists. split; [done|].
    split.
    + intros k Hk. apply list_elem_of_singleton in Hk as ->.
      rewrite motion_list_touch, motion_list_append.
      unfold motion_value. simpl. by rewrite Hh.
    + intros k Hk%not_elem_of_cons.
      rewrite motion_list_touch, motion_list_append.
      by rewrite decide_False by apply Hk.
  - destruct (Hval "heading" ltac:(by left)) as [h Hh].
    destruct (Hval "pitch" ltac:(by right; left)) as [p Hp].
    unfold motion_value in Hkey, Hh, Hp. simpl in Hkey, Hh, Hp.
    rewrite Hh, Hp, Hkey. simpl getitem.
    rewrite !mru_append_return, mru_append_raise. eexists. split; [done|].
    split.
    + intros k Hk. rewrite motion_list_touch, !motion_list_append.
      apply elem_of_cons in Hk as [->|Hk];
        [|apply list_elem_of_singleton in Hk as ->];
        unfold motion_value; simpl; by rewrite ?Hh, ?Hp.
    + intros k Hk. apply not_elem_of_cons in Hk as [Hk1 Hk].
      apply not_elem_of_cons in Hk as [Hk2 _].
      rewrite motion_list_touch, !motion_list_append.
      by rewrite !decide_False by done.
  - destruct (Hval "heading" ltac:(by left)) as [h Hh].
    destruct (Hval "pitch" ltac:(by right; left)) as [p Hp].
    destruct (Hval "roll" ltac:(by do 2 right; left)) as [r Hr].
    unfold motion_value in Hkey, Hh, Hp, Hr. simpl in Hkey, Hh, Hp, Hr.
    rewrite Hh, Hp, Hr, Hkey. simpl getitem.
    rewrite !mru_append_return, mru_append_raise. eexists. split; [done|].
    split.
    + intros k Hk. rewrite motion_list_touch, !motion_list_append.
      apply elem_of_cons in Hk as [->|Hk];
        [|apply elem_of_cons in Hk as [->|Hk];
          [|apply list_elem_of_singleton in Hk as ->]];
        unfold motion_value; simpl; by rewrite ?Hh, ?Hp, ?Hr.
    + intros k Hk. apply not_elem_of_cons in Hk as [Hk1 Hk].
      apply not_elem_of_cons in Hk as [Hk2 Hk].
      apply not_elem_of_cons in Hk as [Hk3 _].
      rewrite motion_list_touch, !motion_list_append.
      by rewrite !decide_False by done.
  - by destruct read.
Qed.

Definition motion_without_roll : Dg.t :=
  Dg.mk "MRU0" 1500 None None None None None None None None None
    (Some (PyFloat 10)) (Some (PyFloat 11)) None (Some (PyFloat 13))
    None None None.

(** An MRU datagram without [roll]: the heading and the pitch have been
    appended, the heave and the time stamp have not. *)
Lemma motion_missing_key_witness :
  ∃ s',
    read_datagram initial_locals motion_without_roll loaded_AB
    = (s', Raise (KeyError "roll"))
    ∧ motion_list "heading" s' = [PyFloat 10]
    ∧ motion_list "pitch" s' = [PyFloat 11]
    ∧ motion_list "heave" s' = []
    ∧ motion_list "timestamp" s' = [].
Proof.
  destruct (motion_missing_key initial_locals motion_without_roll loaded_AB
              ["heading"; "pitch"] "roll" ["heave"])
    as (s' & Hrun & Hread & Hrest).
  - reflexivity.
  - reflexivity.
  - intros k Hk.
    apply elem_of_cons in Hk as [->|Hk];
      [|apply list_elem_of_singleton in Hk as ->]; by eexists.
  - reflexivity.
  - exists s'. split; [exact Hrun|].
    split; [exact (Hread "heading" ltac:(by left))|].
    split; [exact (Hread "pitch" ltac:(by right; left))|].
    split.
    + apply (Hrest "heave").
      by intros [|[|?%elem_of_nil]%elem_of_cons]%elem_of_cons.
    + apply (Hrest "timestamp").
      by intros [|[|?%elem_of_nil]%elem_of_cons]%elem_of_cons.
Defined.

(** ** A configuration without a transducer frequency *)

(** [config['configuration'][ch]['transducer_frequency']] for a channel
    of the configuration [c], as a lookup. *)
Definition frequency_of (c : pydict (pydict pyval)) (ch : string)
  : option pyval :=
  dict_get c ch ≫= λ desc, dict_get desc "transducer_frequency".

Lemma fresh_new_ping_data ch0 ch s :
  fresh_channel ch0 s → fresh_channel ch0 (new_ping_data ch s).
Proof. done. Qed.

Lemma config_datagram_channel_initialised ch f s :
  config_datagram (channel_initialised ch f s) = config_datagram s.
Proof. unfold channel_initialised. by rewrite foldl_clear_keeps. Qed.

Lemma init_channels_raise e ch post pre : ∀ s,
  (∀ ch', ch' ∈ pre →
     ∃ f, transducer_frequency (config_datagram s) ch' = Return f) →
  transducer_frequency (config_datagram s) ch = Raise e →
  ∃ s',
    for_each (pre ++ ch :: post) init_channel s = (s', Raise e)
    ∧ ping_data_dict s' !! ch = Some ∅
    ∧ (∀ ch0, fresh_channel ch0 s → fresh_channel ch0 s')
    ∧ (∀ ch', ch' ∈ pre → fresh_channel ch' s')
    ∧ (ch ∉ pre → same_samples ch s s').
Proof.
  induction pre as [|c pre IH]; intros s Hpre Hch.
  - exists (new_ping_data ch s). split; [|split; [|split; [|split]]].
    + simpl. apply bind_raise. by rewrite init_channel_eq, Hch.
    + unfold new_ping_data. destruct s; simpl. by rewrite lookup_insert_eq.
    + intros ch0. apply fresh_new_ping_data.
    + by intros ch' ?%elem_of_nil.
    + done.
  - destruct (Hpre c) as [f Hc]; [by left|].
    assert (Hs : init_channel c s = (channel_initialised c f s, Return tt))
      by (by rewrite init_channel_eq, Hc).
    destruct (IH (channel_initialised c f s))
      as (s' & Hrun & Hping & Hkeep & Hfresh & Hsame).
    { intros ch' Hin. rewrite config_datagram_channel_initialised.
      apply Hpre. by right. }
    { by rewrite config_datagram_channel_initialised. }
    exists s'. split; [|split; [|split; [|split]]].
    + simpl. by rewrite (bind_step _ _ _ _ _ Hs).
    + done.
    + intros ch0 H0. by apply Hkeep, fresh_preserved.
    + intros ch' [->|Hin]%elem_of_cons; [|by apply Hfresh].
      apply Hkeep, fresh_after_init.
    + intros [Hne Hni]%not_elem_of_cons.
      destruct (Hsame Hni) as (Hp & Ha & Hx).
      destruct (channel_initialised_samples c f s) as (Ep & Ea & Ex).
      unfold same_samples. rewrite Hp, Ha, Hx, Ep, Ea, Ex.
      by rewrite !lookup_insert_ne by done.
Qed.

(** A configuration in which a channel descriptor has no
    [transducer_frequency] ends the load with [KeyError], and leaves the
    converter half initialised: the datagram is stored and [ch_ids]
    names all the channels of the configuration, the channels before
    the failing one have their empty lists, the failing one has an
    empty entry in [ping_data_dict] and the sample lists it had before
    (none, in a new converter).  Nothing of the file is read. *)
Theorem load_aborts_without_frequency first fid files c pre ch post s :
  Dg.subtype first = Some "configuration" →
  Dg.configuration first = Some c →
  dict_keys c = pre ++ ch :: post →
  (∀ ch', ch' ∈ pre → is_Some (frequency_of c ch')) →
  frequency_of c ch = None →
  ∃ s',
    load_ek80_raw ((first :: fid) :: files) s
    = (s', Raise (KeyError "transducer_frequency"))
    ∧ config_datagram s' = Some (Dg.normalise first)
    ∧ ch_ids s' = dict_keys c
    ∧ ping_data_dict s' !! ch = Some ∅
    ∧ (∀ ch', ch' ∈ pre → fresh_channel ch' s')
    ∧ (ch ∉ pre → same_samples ch s s').
Proof.
  intros Hst Hc Hkeys Hpre Hch.
  set (s1 := set_ch_ids (dict_keys c)
               (set_config_datagram (Some (Dg.normalise first)) s)).
  assert (Hfreq : ∀ ch', transducer_frequency (config_datagram s1) ch'
                  = match dict_get c ch' with
                    | Some desc =>
                        getitem "transducer_frequency"
                          (dict_get desc "transducer_frequency")
                    | None => Raise (KeyError ch')
                    end).
  { intros ch'. unfold s1, transducer_frequency.
    cbn [config_datagram set_ch_ids set_config_datagram Dg.configuration
         Dg.normalise Dg.set_timestamp].
    rewrite Hc. simpl getitem. unfold pydict.
    destruct (@dict_get (list (string * pyval)) c ch'); reflexivity. }
  destruct (init_channels_raise (KeyError "transducer_frequency") ch post pre s1)
    as (s' & Hrun & Hping & _ & Hfresh & Hsame).
  { intros ch' Hin. rewrite Hfreq. destruct (Hpre ch' Hin) as [f Hf].
    unfold frequency_of in Hf. destruct (dict_get c ch') as [desc|]; [|done].
    simpl in Hf. rewrite Hf. eexists. reflexivity. }
  { rewrite Hfreq. unfold frequency_of in Hch.
    destruct (dict_get_keys c ch) as [desc Hd].
    { rewrite Hkeys. apply elem_of_app. right. by left. }
    rewrite Hd in *. simpl in Hch. by rewrite Hch. }
  assert (Hcfg : read_configuration first s
                 = (s', Raise (KeyError "transducer_frequency"))).
  { rewrite read_configuration_eq. cbv zeta. rewrite Hst.
    unfold Dg.keys_at. rewrite decide_True by done. rewrite Hc, Hkeys.
    fold s1 in Hrun. unfold s1 in Hrun. by rewrite Hkeys in Hrun. }
  exists s'. split; [|split; [|split; [|split; [|split]]]].
  - unfold load_ek80_raw, load_file. cbn [for_each].
    apply bind_raise, bind_raise. exact Hcfg.
  - pose proof (config_datagram_read_configuration first s) as H0.
    by rewrite Hcfg in H0.
  - pose proof (keeps_init_channels ch_ids (pre ++ ch :: post)
                  (λ _ _, eq_refl) (λ _ _, eq_refl) (λ _ _, eq_refl)
                  (λ _ _, eq_refl) (λ _ _, eq_refl) s1) as Hids.
    rewrite Hrun in Hids. exact Hids.
  - done.
  - done.
  - intros Hni. by apply Hsame.
Qed.

Definition config_without_frequency : Dg.t :=
  xml_configuration 0
    [("A", channel_descriptor 38000);
     ("B", [("transducer_name", PyStr "ES")]);
     ("C", channel_descriptor 120000)].

(** Channels A, B and C, of which B has no transducer frequency. *)
Lemma load_aborts_without_frequency_witness :
  ∃ s',
    load_ek80_raw [[config_without_frequency; parameter_A; data_A]] init
    = (s', Raise (KeyError "transducer_frequency"))
    ∧ ch_ids s' = ["A"; "B"; "C"]
    ∧ ping_data_dict s' !! "B" = Some ∅
    ∧ power_dict s' !! "A" = Some []
    ∧ power_dict s' !! "B" = None.
Proof.
  destruct (load_aborts_without_frequency config_without_frequency
              [parameter_A; data_A] []
              [("A", channel_descriptor 38000);
               ("B", [("transducer_name", PyStr "ES")]);
               ("C", channel_descriptor 120000)]
              ["A"] "B" ["C"] init)
    as (s' & Hrun & _ & Hids & Hping & Hfresh & Hsame).
  - reflexivity.
  - reflexivity.
  - reflexivity.
  - intros ch' Hin. apply list_elem_of_singleton in Hin as ->. by eexists.
  - reflexivity.
  - exists s'. split; [exact Hrun|]. split; [exact Hids|].
    split; [exact Hping|]. split.
    + exact (proj1 (Hfresh "A" ltac:(by left))).
    + destruct Hsame as [Hp _].
      * by intros [|?%elem_of_nil]%elem_of_cons.
      * exact Hp.
Defined.
